(** * github-contribution-merge: the merge and render pipeline of src/index.js

    A shallow embedding of the worker's pure functions (mergeContributions,
    getLevel, the theme table, escapeXml, the tooltip and document
    generators) and of the request handler's control flow, followed by the
    properties of the specification that are stated about them.

    Modelling conventions.
    - JS numbers that hold day counts, years and pixel offsets are integers
      and are modelled as [Z].
    - JS strings are modelled as [string]; a character stands for one code
      unit below 256.
    - [contributionMap] is a JS [Map]: a [gmap string Z].
    - Plain objects used as dictionaries are [gmap]s of their own
      properties.  Where the key comes from the request (account names,
      theme names) a lookup that misses the own properties continues in
      [Object.prototype], as it does in JS; date keys come from the
      upstream API as YYYY-MM-DD and never spell a member of it. *)

From Stdlib Require Import ZArith List String Ascii Bool Lia Sorted.
From stdpp Require Import gmap strings list fin_maps pretty.

Local Open Scope string_scope.
Local Open Scope list_scope.
Local Open Scope Z_scope.

(** ** JS helpers *)

(** [o || 0] for a [Map.get] result or an optional count: [undefined] and
    [0] are the falsy cases. *)
Definition or0 (o : option Z) : Z :=
  match o with
  | Some v => if v =? 0 then 0 else v
  | None => 0
  end.

(** ** Data model *)

(** One entry of [contributionDays] as returned by the upstream API. *)
Record ContributionDay := {
  date : string;
  contributionCount : Z
}.

Record Week := { contributionDays : list ContributionDay }.

(** The [contributionCalendar] object returned by [fetchContributions]. *)
Record Calendar := {
  apiTotalContributions : Z;
  weeks : list Week
}.

Inductive Level :=
  | NONE
  | FIRST_QUARTILE
  | SECOND_QUARTILE
  | THIRD_QUARTILE
  | FOURTH_QUARTILE.

Record MergedDay := {
  mdate : string;
  mcount : Z;
  contributionLevel : Level
}.

Record MergedWeek := { mergedDays : list MergedDay }.

Record Merged := {
  totalContributions : Z;
  mergedWeeks : list MergedWeek;
  userContributions : gmap string (gmap string Z)
}.

(** ** getLevel (index.js 170-176) *)

Definition getLevel (count : Z) : Level :=
  if count =? 0 then NONE
  else if count <? 5 then FIRST_QUARTILE
  else if count <? 10 then SECOND_QUARTILE
  else if count <? 20 then THIRD_QUARTILE
  else FOURTH_QUARTILE.

(** ** mergeContributions (index.js 115-168) *)

(** [obj[key] = v] on a plain object: the [__proto__] setter ignores a
    number, every other key becomes an own property. *)
Definition obj_set (key : string) (v : Z) (o : gmap string Z) : gmap string Z :=
  if decide (key = "__proto__") then o else <[key := v]> o.

(** [usernames[idx]], used as a property key: a missing element is
    [undefined], whose key is the text "undefined". *)
Definition username_at (usernames : list string) (idx : nat) : string :=
  nth idx usernames "undefined".

(** The state of the first pass: [contributionMap] and
    [userContributionData]. *)
Definition MergeState : Type := gmap string Z * gmap string (gmap string Z).

(** Body of the innermost [forEach] of the first pass (lines 127-135). *)
Definition merge_day (username : string) (st : MergeState) (day : ContributionDay)
  : MergeState :=
  let '(contributionMap, userContributionData) := st in
  let created :=
    match userContributionData !! date day with
    | Some _ => userContributionData
    | None => <[date day := ∅]> userContributionData
    end in
  let recorded :=
    alter (obj_set username (contributionCount day)) (date day) created in
  let existing := or0 (contributionMap !! date day) in
  (<[date day := existing + contributionCount day]> contributionMap, recorded).

Definition merge_week (username : string) (st : MergeState) (week : Week)
  : MergeState :=
  fold_left (merge_day username) (contributionDays week) st.

Definition merge_calendar (username : string) (st : MergeState) (calendar : Calendar)
  : MergeState :=
  fold_left (merge_week username) (weeks calendar) st.

(** [dataArray.forEach((calendar, idx) => ...)], [idx] counting from the
    position of the first element of [dataArray]. *)
Fixpoint merge_all (usernames : list string) (idx : nat)
    (dataArray : list Calendar) (st : MergeState) : MergeState :=
  match dataArray with
  | [] => st
  | calendar :: rest =>
      merge_all usernames (S idx) rest
        (merge_calendar (username_at usernames idx) st calendar)
  end.

(** Body of the inner [forEach] of the template walk (lines 153-162): the
    running total and the days pushed so far. *)
Definition template_day (contributionMap : gmap string Z)
    (st : Z * list MergedDay) (day : ContributionDay) : Z * list MergedDay :=
  let count := or0 (contributionMap !! date day) in
  (st.1 + count,
   st.2 ++ [ {| mdate := date day; mcount := count;
                contributionLevel := getLevel count |} ]).

(** Body of the outer [forEach] of the template walk (lines 148-165). *)
Definition template_week (contributionMap : gmap string Z)
    (st : Z * list MergedWeek) (week : Week) : Z * list MergedWeek :=
  let r := fold_left (template_day contributionMap) (contributionDays week)
                     (st.1, []) in
  (r.1, st.2 ++ [ {| mergedDays := r.2 |} ]).

Definition template_walk (contributionMap : gmap string Z) (template : Calendar)
  : Z * list MergedWeek :=
  fold_left (template_week contributionMap) (weeks template) (0, []).

(** [null] for an empty [dataArray] is [None]. *)
Definition mergeContributions (dataArray : list Calendar) (usernames : list string)
  : option Merged :=
  match dataArray with
  | [] => None
  | template :: _ =>
      let st := merge_all usernames 0 dataArray (∅, ∅) in
      let r := template_walk st.1 template in
      Some {| totalContributions := r.1;
              mergedWeeks := r.2;
              userContributions := st.2 |}
  end.

(** ** Quantities the properties are stated with *)

Definition calendar_days (calendar : Calendar) : list ContributionDay :=
  concat (map contributionDays (weeks calendar)).

Definition merged_days (ws : list MergedWeek) : list MergedDay :=
  concat (map mergedDays ws).

Definition sum_Z (l : list Z) : Z := fold_right Z.add 0 l.

(** Sum of the count of every day of a merged week structure. *)
Definition sum_merged_counts (ws : list MergedWeek) : Z :=
  sum_Z (map mcount (merged_days ws)).

(** The count an account has on a date: that of its day with this date, 0
    when it has none. *)
Definition count_on (calendar : Calendar) (d : string) : Z :=
  match find (fun day => bool_decide (date day = d)) (calendar_days calendar) with
  | Some day => contributionCount day
  | None => 0
  end.

(** Each date occurs at most once in the series. *)
Definition dates_once (calendar : Calendar) : Prop :=
  NoDup (map date (calendar_days calendar)).

(** The dates of a week structure, week by week. *)
Definition calendar_shape (calendar : Calendar) : list (list string) :=
  map (fun w => map date (contributionDays w)) (weeks calendar).

Definition merged_shape (ws : list MergedWeek) : list (list string) :=
  map (fun w => map mdate (mergedDays w)) ws.

(** ** Strings: the JS library functions the worker calls *)

(** The double-quote character and a double-quoted attribute value. *)
Definition dquote : string := String "034"%char EmptyString.

Definition quoted (s : string) : string := dquote +:+ s +:+ dquote.

Definition newline : string := String "010"%char EmptyString.

(** [`${n}`] for an integer. *)
Definition num (n : Z) : string := pretty n.

(** [Array.prototype.join]. *)
Fixpoint join (sep : string) (l : list string) : string :=
  match l with
  | [] => EmptyString
  | [x] => x
  | x :: rest => x +:+ sep +:+ join sep rest
  end.

(** White space as [String.prototype.trim] and [parseInt] see it, for code
    units below 256: TAB, LF, VT, FF, CR, SPACE and NBSP. *)
Definition is_js_space (c : ascii) : bool :=
  let n := nat_of_ascii c in
  (Nat.leb 9 n && Nat.leb n 13) || Nat.eqb n 32 || Nat.eqb n 160.

Fixpoint trimStart (s : string) : string :=
  match s with
  | EmptyString => EmptyString
  | String c rest => if is_js_space c then trimStart rest else s
  end.

Fixpoint trimEnd (s : string) : string :=
  match s with
  | EmptyString => EmptyString
  | String c rest =>
      match trimEnd rest with
      | EmptyString => if is_js_space c then EmptyString else String c EmptyString
      | kept => String c kept
      end
  end.

(** [String.prototype.trim]. *)
Definition trim (s : string) : string := trimEnd (trimStart s).

(** [str.split(",")]: the pieces between the commas; never an empty list. *)
Fixpoint split_comma (s : string) : list string :=
  match s with
  | EmptyString => [EmptyString]
  | String c rest =>
      if Ascii.eqb c ","%char then EmptyString :: split_comma rest
      else match split_comma rest with
           | piece :: pieces => String c piece :: pieces
           | [] => [String c EmptyString]
           end
  end.

(** The value of a digit in the given radix, if it is one. *)
Definition digit_value (radix : Z) (c : ascii) : option Z :=
  let n := Z.of_nat (nat_of_ascii c) in
  let v :=
    if (48 <=? n) && (n <=? 57) then Some (n - 48)
    else if (97 <=? n) && (n <=? 122) then Some (n - 87)
    else if (65 <=? n) && (n <=? 90) then Some (n - 55)
    else None in
  match v with
  | Some d => if d <? radix then Some d else None
  | None => None
  end.

(** The longest prefix of digits, read left to right; [None] when the
    first character is not a digit. *)
Fixpoint read_digits (radix : Z) (s : string) (acc : option Z) : option Z :=
  match s with
  | EmptyString => acc
  | String c rest =>
      match digit_value radix c with
      | Some d => read_digits radix rest (Some (default 0 acc * radix + d))
      | None => acc
      end
  end.

(** [parseInt(s)] with no radix argument; [None] is [NaN].  Leading white
    space is skipped, a sign is read, a [0x]/[0X] prefix selects radix 16,
    and the digits up to the first character that is not one are used.
    The result is the integer the digits denote; the JS number is that
    integer up to [2 ^ 53] in absolute value and its rounding beyond. *)
Definition parseInt (s : string) : option Z :=
  let s1 := trimStart s in
  let '(sign, s2) :=
    match s1 with
    | String "-"%char rest => (-1, rest)
    | String "+"%char rest => (1, rest)
    | _ => (1, s1)
    end in
  let '(radix, s3) :=
    match s2 with
    | String "0"%char (String "x"%char rest) => (16, rest)
    | String "0"%char (String "X"%char rest) => (16, rest)
    | _ => (10, s2)
    end in
  match read_digits radix s3 None with
  | Some n => Some (sign * n)
  | None => None
  end.

(** ** escapeXml (index.js 278-293) *)

(** The replacement callback: the entity of a matched character; a
    character the pattern does not match is kept. *)
Definition escape_char (c : ascii) : string :=
  if Ascii.eqb c "<"%char then "&lt;"
  else if Ascii.eqb c ">"%char then "&gt;"
  else if Ascii.eqb c "&"%char then "&amp;"
  else if Ascii.eqb c "'"%char then "&apos;"
  else if Ascii.eqb c "034"%char then "&quot;"
  else String c EmptyString.

Fixpoint escapeXml (str : string) : string :=
  match str with
  | EmptyString => EmptyString
  | String c rest => escape_char c +:+ escapeXml rest
  end.

(** ** Property lookup on a plain object *)

(** The own property names of [Object.prototype]: what a key that is not
    an own property of an object literal can still find. *)
Definition Object_prototype_members : list string :=
  [ "constructor"; "__defineGetter__"; "__defineSetter__"; "hasOwnProperty";
    "__lookupGetter__"; "__lookupSetter__"; "isPrototypeOf";
    "propertyIsEnumerable"; "toString"; "valueOf"; "__proto__";
    "toLocaleString" ].

(** The outcome of [obj[key]] on an object literal. *)
Inductive Lookup (A : Type) :=
  | Own (a : A)
  | Inherited (member : string)
  | Undefined.

Arguments Own {A} a.
Arguments Inherited {A} member.
Arguments Undefined {A}.

Definition obj_get {A : Type} (own : option A) (key : string) : Lookup A :=
  match own with
  | Some a => Own a
  | None =>
      if bool_decide (key ∈ Object_prototype_members) then Inherited key
      else Undefined
  end.

(** [`${v}`] for an inherited member: a built-in function prints as native
    code under its own name, [Object.prototype] itself as an object. *)
Definition inherited_text (member : string) : string :=
  if String.eqb member "__proto__" then "[object Object]"
  else "function "
       +:+ (if String.eqb member "constructor" then "Object" else member)
       +:+ "() { [native code] }".

(** ** Theme definitions (index.js 178-271) *)

Record LevelColors := {
  c_NONE : string;
  c_FIRST_QUARTILE : string;
  c_SECOND_QUARTILE : string;
  c_THIRD_QUARTILE : string;
  c_FOURTH_QUARTILE : string
}.

Record Theme := {
  background : string;
  yearLabel : string;
  monthLabel : string;
  dayLabel : string;
  levels : LevelColors
}.

Definition mkTheme (bg yl ml dl n q1 q2 q3 q4 : string) : Theme :=
  {| background := bg; yearLabel := yl; monthLabel := ml; dayLabel := dl;
     levels := {| c_NONE := n; c_FIRST_QUARTILE := q1; c_SECOND_QUARTILE := q2;
                  c_THIRD_QUARTILE := q3; c_FOURTH_QUARTILE := q4 |} |}.

Definition dark : Theme :=
  mkTheme "#0d1117" "#f0f6fc" "#8b949e" "#8b949e"
          "#161b22" "#0e4429" "#006d32" "#26a641" "#39d353".

Definition light : Theme :=
  mkTheme "#ffffff" "#24292f" "#57606a" "#57606a"
          "#ebedf0" "#9be9a8" "#40c463" "#30a14e" "#216e39".

Definition solarized_dark : Theme :=
  mkTheme "#002b36" "#839496" "#839496" "#839496"
          "#073642" "#268bd2" "#2aa198" "#859900" "#b58900".

Definition solarized_light : Theme :=
  mkTheme "#fdf6e3" "#657b83" "#657b83" "#657b83"
          "#eee8d5" "#268bd2" "#2aa198" "#859900" "#b58900".

Definition nord_polar_night : Theme :=
  mkTheme "#2e3440" "#d8dee9" "#d8dee9" "#d8dee9"
          "#3b4252" "#434c5e" "#4c566a" "#5e81ac" "#88c0d0".

Definition nord_frost : Theme :=
  mkTheme "#2e3440" "#d8dee9" "#d8dee9" "#d8dee9"
          "#3b4252" "#8fbcbb" "#88c0d0" "#81a1c1" "#5e81ac".

Definition nord_aurora : Theme :=
  mkTheme "#2e3440" "#d8dee9" "#d8dee9" "#d8dee9"
          "#3b4252" "#a3be8c" "#ebcb8b" "#d08770" "#bf616a".

(** The own properties of the [THEMES] object literal. *)
Definition THEMES : list (string * Theme) :=
  [ ("dark", dark); ("light", light);
    ("solarized-dark", solarized_dark); ("solarized-light", solarized_light);
    ("nord-polar-night", nord_polar_night); ("nord-frost", nord_frost);
    ("nord-aurora", nord_aurora) ].

Fixpoint assoc {A : Type} (key : string) (l : list (string * A)) : option A :=
  match l with
  | [] => None
  | (k, a) :: rest => if String.eqb k key then Some a else assoc key rest
  end.

(** [THEMES[theme]]. *)
Definition THEMES_get (theme : string) : Lookup Theme :=
  obj_get (assoc theme THEMES) theme.

(** [colors[level]]. *)
Definition level_color (colors : LevelColors) (level : Level) : string :=
  match level with
  | NONE => c_NONE colors
  | FIRST_QUARTILE => c_FIRST_QUARTILE colors
  | SECOND_QUARTILE => c_SECOND_QUARTILE colors
  | THIRD_QUARTILE => c_THIRD_QUARTILE colors
  | FOURTH_QUARTILE => c_FOURTH_QUARTILE colors
  end.

(** [THEMES[theme]?.levels || THEMES.dark.levels]: an inherited member has
    no [levels] property. *)
Definition theme_levels (theme : string) : LevelColors :=
  match THEMES_get theme with
  | Own t => levels t
  | Inherited _ => levels dark
  | Undefined => levels dark
  end.

(** getLevelColor (index.js 273-276); an empty string is falsy. *)
Definition getLevelColor (level : Level) (theme : string) : string :=
  let colors := theme_levels theme in
  match level_color colors level with
  | EmptyString => c_NONE colors
  | color => color
  end.

(** [THEMES[theme] || THEMES.dark] (line 468): an inherited member is an
    object, hence truthy, and is what [themeColors] is bound to. *)
Definition resolve_theme (theme : string) : Lookup Theme :=
  match THEMES_get theme with
  | Undefined => Own dark
  | found => found
  end.

(** [`${themeColors.field}`]: a property that does not exist prints as
    "undefined". *)
Definition theme_field (field : Theme -> string) (themeColors : Lookup Theme)
  : string :=
  match themeColors with
  | Own t => field t
  | _ => "undefined"
  end.

(** ** Dates as the runtime reads them *)

Inductive Month :=
  | Jan | Feb | Mar | Apr | May | Jun | Jul | Aug | Sep | Oct | Nov | Dec.

(** [toLocaleDateString("en-US", { month: "short" })]. *)
Definition month_short (m : Month) : string :=
  match m with
  | Jan => "Jan" | Feb => "Feb" | Mar => "Mar" | Apr => "Apr"
  | May => "May" | Jun => "Jun" | Jul => "Jul" | Aug => "Aug"
  | Sep => "Sep" | Oct => "Oct" | Nov => "Nov" | Dec => "Dec"
  end.

(** What the worker consumes from its surroundings.
    - [Date_parse s]: the month and the day of the month of [new Date(s)]
      in the runtime's time zone, [None] for an Invalid Date;
    - [currentYear]: [new Date().getFullYear()];
    - [isAuthorized additionalUser primaryUser]: what
      [verifyUserAuthorization] resolves to (it never rejects);
    - [contributions username year]: what [fetchContributions] resolves
      to, [None] when it rejects. *)
Record Runtime := {
  Date_parse : string -> option (Month * Z);
  currentYear : Z;
  isAuthorized : string -> string -> bool;
  contributions : string -> Z -> option Calendar
}.

Section Rendering.

Variable rt : Runtime.

(** formatDate (index.js 295-300); an Invalid Date has month text
    "Invalid Date" and day [NaN]. *)
Definition formatDate (dateString : string) : string :=
  match Date_parse rt dateString with
  | Some (month, day) => month_short month +:+ " " +:+ num day
  | None => "Invalid Date NaN"
  end.

(** The line of one account (the [forEach] body, lines 306-311), without
    its newline. *)
Definition tooltip_line (userContribs : gmap string Z) (username : string)
  : string :=
  match obj_get (userContribs !! username) username with
  | Undefined => username +:+ " no contributions"
  | Own count =>
      if count =? 0 then username +:+ " no contributions"
      else username +:+ " " +:+ num count +:+ " contribution"
           +:+ (if count =? 1 then EmptyString else "s")
  | Inherited member =>
      username +:+ " " +:+ inherited_text member +:+ " contributions"
  end.

(** generateTooltipContent (index.js 302-315). *)
Definition generateTooltipContent (dateString : string)
    (userContribs : gmap string Z) (usernames : list string) : string :=
  let content :=
    fold_left
      (fun content username =>
         content +:+ tooltip_line userContribs username +:+ newline)
      usernames
      (formatDate dateString +:+ ":" +:+ newline) in
  trim content.

(** ** renderYearGraph (index.js 328-412) *)

Definition cellSize : Z := 10.
Definition cellGap : Z := 3.
Definition yearLabelHeight : Z := 20.
Definition monthLabelHeight : Z := 15.
Definition dayLabelWidth : Z := 30.

(** The year label (line 351). *)
Definition year_label (year xOffset yOffset padding : Z) : string :=
  "<text x=" +:+ quoted (num (xOffset + padding))
  +:+ " y=" +:+ quoted (num (yOffset + padding + 14))
  +:+ " class=" +:+ quoted "year-label" +:+ ">" +:+ num year
  +:+ "</text>" +:+ newline.

(** State of the month-label loop: the text emitted, [currentMonth] and
    [monthX]. *)
Definition MonthState : Type := string * string * Z.

(** Body of the month-label [forEach] (lines 358-367). *)
Definition month_label_step (yOffset padding : Z) (st : MonthState)
    (week : MergedWeek) : MonthState :=
  let '(svg, currentMonth, monthX) := st in
  match mergedDays week with
  | [] => st
  | first :: _ =>
      let parsed := Date_parse rt (mdate first) in
      let month :=
        match parsed with
        | Some (m, _) => month_short m
        | None => "Invalid Date"
        end in
      let early :=
        match parsed with
        | Some (_, day) => day <=? 7
        | None => false
        end in
      if negb (String.eqb month currentMonth) && early then
        (svg +:+ "<text x=" +:+ quoted (num monthX)
             +:+ " y=" +:+ quoted (num (yOffset + padding + yearLabelHeight + 10))
             +:+ " class=" +:+ quoted "month-label" +:+ ">" +:+ month
             +:+ "</text>" +:+ newline,
         month, monthX + (cellSize + cellGap))
      else (svg, currentMonth, monthX + (cellSize + cellGap))
  end.

Definition dayLabels : list string :=
  [ EmptyString; "Mon"; EmptyString; "Wed"; EmptyString; "Fri"; EmptyString ].

(** Body of the day-label [forEach] (lines 373-383). *)
Definition day_label (xOffset yOffset padding : Z) (idx : nat) (label : string)
  : string :=
  match label with
  | EmptyString => EmptyString
  | _ =>
      let y := yOffset + padding + yearLabelHeight + monthLabelHeight
               + Z.of_nat idx * (cellSize + cellGap) + cellSize - 2 in
      "<text x=" +:+ quoted (num (xOffset + padding))
      +:+ " y=" +:+ quoted (num y)
      +:+ " class=" +:+ quoted "day-label" +:+ ">" +:+ label
      +:+ "</text>" +:+ newline
  end.

(** The three lines appended for one square (lines 405-407). *)
Definition square_markup (x y : Z) (color : string) (day : MergedDay)
    (tooltipContent : string) : string :=
  "<rect class=" +:+ quoted "contribution-square"
  +:+ " x=" +:+ quoted (num x) +:+ " y=" +:+ quoted (num y)
  +:+ " width=" +:+ quoted (num cellSize)
  +:+ " height=" +:+ quoted (num cellSize)
  +:+ " fill=" +:+ quoted color
  +:+ " data-date=" +:+ quoted (escapeXml (mdate day))
  +:+ " data-count=" +:+ quoted (num (mcount day)) +:+ ">" +:+ newline
  +:+ "  <title>" +:+ escapeXml tooltipContent +:+ "</title>" +:+ newline
  +:+ "</rect>" +:+ newline.

(** [calendar.userContributions[day.date] || {}]. *)
Definition userContribs_of (calendar : Merged) (dateString : string)
  : gmap string Z :=
  default ∅ (userContributions calendar !! dateString).

(** Body of the inner square [forEach] (lines 389-407). *)
Definition render_square (calendar : Merged) (usernames : list string)
    (xOffset yOffset : Z) (theme : string) (padding : Z)
    (weekIdx dayIdx : nat) (day : MergedDay) : string :=
  let x := xOffset + padding + dayLabelWidth
           + Z.of_nat weekIdx * (cellSize + cellGap) in
  let y := yOffset + padding + yearLabelHeight + monthLabelHeight
           + Z.of_nat dayIdx * (cellSize + cellGap) in
  let color := getLevelColor (contributionLevel day) theme in
  let tooltipContent :=
    generateTooltipContent (mdate day) (userContribs_of calendar (mdate day))
                           usernames in
  square_markup x y color day tooltipContent.

(** [l.forEach((x, idx) => svg += f idx x)] seen as the text appended. *)
Fixpoint concat_indexed {A : Type} (f : nat -> A -> string) (idx : nat)
    (l : list A) : string :=
  match l with
  | [] => EmptyString
  | x :: rest => f idx x +:+ concat_indexed f (S idx) rest
  end.

Record Graph := { svg : string; width : Z; height : Z }.

Definition renderYearGraph (calendar : Merged) (year : Z)
    (usernames : list string) (xOffset yOffset : Z) (theme : string)
    (padding : Z) : Graph :=
  let weeks := mergedWeeks calendar in
  let graphWidth := dayLabelWidth + Z.of_nat (length weeks) * (cellSize + cellGap) in
  let graphHeight := yearLabelHeight + monthLabelHeight + 7 * (cellSize + cellGap) in
  let months :=
    fold_left (month_label_step yOffset padding) weeks
              (EmptyString, EmptyString, xOffset + padding + dayLabelWidth) in
  {| svg :=
       year_label year xOffset yOffset padding
       +:+ months.1.1
       +:+ concat_indexed (day_label xOffset yOffset padding) 0 dayLabels
       +:+ concat_indexed
             (fun weekIdx week =>
                concat_indexed
                  (render_square calendar usernames xOffset yOffset theme
                                 padding weekIdx)
                  0 (mergedDays week))
             0 weeks;
     width := graphWidth;
     height := graphHeight |}.

End Rendering.

(** ** generateSVGStyles (index.js 419-448) *)

Definition generateSVGStyles (themeColors : Lookup Theme) : string :=
  "
    .header-label {
      font-family: -apple-system, BlinkMacSystemFont, 'Segoe UI', Helvetica, Arial, sans-serif;
      font-size: 12px;
      font-weight: 600;
      fill: "
  +:+ theme_field yearLabel themeColors
  +:+ ";
    }
    .year-label {
      font-family: -apple-system, BlinkMacSystemFont, 'Segoe UI', Helvetica, Arial, sans-serif;
      font-size: 14px;
      font-weight: 600;
      fill: "
  +:+ theme_field yearLabel themeColors
  +:+ ";
    }
    .month-label {
      font-family: -apple-system, BlinkMacSystemFont, 'Segoe UI', Helvetica, Arial, sans-serif;
      font-size: 10px;
      fill: "
  +:+ theme_field monthLabel themeColors
  +:+ ";
    }
    .day-label {
      font-family: -apple-system, BlinkMacSystemFont, 'Segoe UI', Helvetica, Arial, sans-serif;
      font-size: 9px;
      fill: "
  +:+ theme_field dayLabel themeColors
  +:+ ";
    }
    .contribution-square {
      shape-rendering: geometricPrecision;
      outline: 1px solid rgba(27, 31, 35, 0.06);
      outline-offset: -1px;
    }".

(** ** generateCompleteSVG (index.js 460-478) *)

(** A document extent: [Math.max] of no week counts is [-Infinity]. *)
Inductive Extent :=
  | Finite (n : Z)
  | MinusInfinity.

Definition extent_text (e : Extent) : string :=
  match e with
  | Finite n => num n
  | MinusInfinity => "-Infinity"
  end.

(** [`Users - ${usernames.join(", ")}`]. *)
Definition userListText (usernames : list string) : string :=
  "Users - " +:+ join ", " usernames.

(** The document before the header line's text element: declaration, root
    element, stylesheet, background, and the indentation of the header. *)
Definition document_prolog (width : Extent) (height : Z)
    (themeColors : Lookup Theme) : string :=
  "<?xml version=" +:+ quoted "1.0" +:+ " encoding=" +:+ quoted "UTF-8"
  +:+ "?>" +:+ newline
  +:+ "<svg width=" +:+ quoted (extent_text width)
  +:+ " height=" +:+ quoted (num height)
  +:+ " xmlns=" +:+ quoted "http://www.w3.org/2000/svg"
  +:+ " xmlns:xlink=" +:+ quoted "http://www.w3.org/1999/xlink" +:+ ">"
  +:+ newline
  +:+ "  <style>" +:+ generateSVGStyles themeColors +:+ "</style>" +:+ newline
  +:+ "  <rect width=" +:+ quoted "100%" +:+ " height=" +:+ quoted "100%"
  +:+ " fill=" +:+ quoted (theme_field background themeColors) +:+ "/>"
  +:+ newline
  +:+ "  ".

(** The header element (line 475). *)
Definition header_element (padding : Z) (usernames : list string) : string :=
  "<text x=" +:+ quoted (num padding)
  +:+ " y=" +:+ quoted (num (padding + 16))
  +:+ " class=" +:+ quoted "header-label" +:+ ">"
  +:+ escapeXml (userListText usernames)
  +:+ "</text>".

(** The document after the header element: the year graphs and the
    closing tag. *)
Definition document_epilog (graphSVGs : list string) : string :=
  newline +:+ "  " +:+ join newline graphSVGs +:+ newline +:+ "</svg>".

Definition generateCompleteSVG (width : Extent) (height : Z)
    (usernames : list string) (graphSVGs : list string) (theme : string)
    (padding : Z) : string :=
  let themeColors := resolve_theme theme in
  document_prolog width height themeColors
  +:+ header_element padding usernames
  +:+ document_epilog graphSVGs.

(** ** generateSVGVertical (index.js 480-522) *)

Record YearData := { year : Z; calendar : Merged }.

Definition graphSpacing : Z := 20.
Definition headerHeight : Z := 25.
Definition bottomSpacing : Z := 15.

(** [Math.max(...yearData.map((yd) => yd.calendar.weeks.length))]. *)
Definition maxWeeks (yearData : list YearData) : Extent :=
  match yearData with
  | [] => MinusInfinity
  | _ =>
      Finite (fold_right Z.max 0
                (map (fun yd => Z.of_nat (length (mergedWeeks (calendar yd))))
                     yearData))
  end.

(** [padding + dayLabelWidth + maxWeeks * (cellSize + cellGap) + padding]. *)
Definition document_width (padding : Z) (m : Extent) : Extent :=
  match m with
  | Finite n => Finite (padding + dayLabelWidth + n * (cellSize + cellGap) + padding)
  | MinusInfinity => MinusInfinity
  end.

(** The [forEach] over [yearData] (lines 497-509): [currentY] and
    [graphSVGs] after the years from position [idx] on. *)
Fixpoint stack_years (rt : Runtime) (usernames : list string) (theme : string)
    (padding : Z) (total : nat) (idx : nat) (yearData : list YearData)
    (currentY : Z) (graphSVGs : list string) : Z * list string :=
  match yearData with
  | [] => (currentY, graphSVGs)
  | yd :: rest =>
      let result :=
        renderYearGraph rt (calendar yd) (year yd) usernames 0 currentY theme
                        padding in
      let spacing :=
        if Z.of_nat idx <? Z.of_nat total - 1 then graphSpacing else 0 in
      stack_years rt usernames theme padding total (S idx) rest
                  (currentY + (height result + spacing))
                  (graphSVGs ++ [svg result])
  end.

Definition generateSVGVertical (rt : Runtime) (yearData : list YearData)
    (usernames : list string) (theme : string) : string :=
  let padding := 10 in
  let width := document_width padding (maxWeeks yearData) in
  let r := stack_years rt usernames theme padding (length yearData) 0 yearData
                       (padding + headerHeight) [] in
  let totalHeight := r.1 + padding + bottomSpacing in
  generateCompleteSVG width totalHeight usernames r.2 theme padding.

(** ** The request handler (index.js 524-676) *)

(** The bindings of the worker: a missing binding is [None]. *)
Record Env := {
  GITHUB_TOKEN : option string;
  PRIMARY_USER : option string
}.

(** The three query parameters as [url.searchParams.get] returns them:
    [None] is [null]. *)
Record Request := {
  merge_param : option string;
  years_param : option string;
  theme_param : option string
}.

(** The status, the Content-Type header and the body of a response.  The
    caching headers of the success response are not part of the model. *)
Record Response := {
  status : Z;
  contentType : string;
  body : string
}.

(** The network calls the handler issues, in the order it issues them. *)
Inductive Event :=
  | AuthorizationCheck (additionalUser primaryUser : string)
  | ContributionFetch (username : string) (fetchYear : Z).

(** A JS value used as a condition: [null] and the empty string are
    falsy. *)
Definition truthy (o : option string) : option string :=
  match o with
  | Some EmptyString => None
  | other => other
  end.

Definition plain (code : Z) (message : string) : Response :=
  {| status := code; contentType := "text/plain"; body := message |}.

(** The [catch] clause (lines 665-674). *)
Definition internal_error : Response :=
  plain 500 "An error occurred while generating the contribution graph".

Definition validThemes : list string :=
  [ "dark"; "light"; "solarized-dark"; "solarized-light";
    "nord-polar-night"; "nord-frost"; "nord-aurora" ].

Definition invalid_theme : Response :=
  plain 400 ("Error: Invalid theme parameter. Valid options: " +:+ newline
             +:+ "- " +:+ join (newline +:+ "- ") validThemes).

Definition invalid_years : Response :=
  plain 400
    "Error: Invalid years parameter. Use ?years=N where N is a positive number".

Definition no_authorized_users : Response :=
  plain 400 "Error: No authorized users to display".

(** [validThemes.includes(themeParam)]. *)
Definition includes (l : list string) (s : string) : bool :=
  existsb (String.eqb s) l.

(** The [for] loop of lines 623-629.  One unit of [fuel] is one test of
    the loop condition; [Z.to_nat yearCount] units always reach the exit
    (see [years_loop_more_fuel]). *)
Fixpoint years_loop (fuel : nat) (i yearCount thisYear : Z) (years : list Z)
  : list Z :=
  match fuel with
  | O => years
  | S fuel' =>
      if i <? yearCount then
        let y := thisYear - i in
        if y <? 2008 then years
        else years_loop fuel' (i + 1) yearCount thisYear (years ++ [y])
      else years
  end.

(** Lines 606-633: the response of the early return, or [years]. *)
Definition parse_years (yearsParam : option string) (thisYear : Z)
  : Response + list Z :=
  match truthy yearsParam with
  | Some text =>
      match parseInt (trim text) with
      | None => inl invalid_years
      | Some yearCount =>
          if yearCount <? 1 then inl invalid_years
          else inr (years_loop (Z.to_nat yearCount) 0 yearCount thisYear [])
      end
  | None => inr [thisYear]
  end.

(** Lines 550-556: the additional users named by the [merge] parameter. *)
Definition parse_additional_users (mergeParam : option string)
    (primaryUser : string) : list string :=
  match truthy mergeParam with
  | Some text =>
      filter (fun u => u ≠ EmptyString ∧ u ≠ primaryUser)
             (map trim (split_comma text))
  | None => []
  end.

(** A computation of the handler: the calls issued so far, and either the
    response it has returned or a value to go on with.  A thrown exception
    is the early return of [internal_error]. *)
Definition Handler (A : Type) : Type := list Event * (Response + A).

Definition respond {A : Type} (r : Response) : Handler A := ([], inl r).

Definition issue (e : Event) : Handler unit := ([e], inr tt).

#[local] Instance Handler_ret : MRet Handler := fun A a => ([], inr a).

#[local] Instance Handler_bind : MBind Handler := fun A B k m =>
  match m with
  | (issued, inl r) => (issued, inl r)
  | (issued, inr a) => let '(later, out) := k a in (issued ++ later, out)
  end.

(** [l.map(f)] where each call of [f] may issue network calls. *)
Fixpoint for_each {A B : Type} (f : A -> Handler B) (l : list A)
  : Handler (list B) :=
  match l with
  | [] => mret []
  | x :: rest => y ← f x; ys ← for_each f rest; mret (y :: ys)
  end.

(** [await Promise.all(...)] over settled fetches: one rejection rejects
    the whole. *)
Fixpoint all_resolved {A : Type} (l : list (option A)) : option (list A) :=
  match l with
  | [] => Some []
  | Some a :: rest => cons a <$> all_resolved rest
  | None :: _ => None
  end.

Definition ok_svg (document : string) : Response :=
  {| status := 200; contentType := "image/svg+xml"; body := document |}.

(** Lines 558-577: one authorization check per additional user, issued in
    order, then [authorizedUsers] with the primary user first. *)
Definition authorize (rt : Runtime) (primaryUser : string)
    (additionalUsers : list string) : Handler (list string) :=
  authResults ←
    for_each
      (fun additionalUser =>
         issue (AuthorizationCheck additionalUser primaryUser);;
         mret (additionalUser, isAuthorized rt additionalUser primaryUser))
      additionalUsers;
  mret (primaryUser :: map fst (filter (fun r => snd r = true) authResults)).

(** Lines 636-645: every fetch of every year is issued before any result
    is awaited; a rejected fetch, or a [null] merge result read by the
    renderer, is an exception. *)
Definition fetch_years (rt : Runtime) (years : list Z)
    (authorizedUsers : list string) : Handler (list YearData) :=
  settled ←
    for_each
      (fun y =>
         dataArray ←
           for_each
             (fun u => issue (ContributionFetch u y);; mret (contributions rt u y))
             authorizedUsers;
         mret (y, dataArray))
      years;
  match
    all_resolved
      (map (fun '(y, results) =>
              dataArray ← all_resolved results;
              merged ← mergeContributions dataArray authorizedUsers;
              Some {| year := y; calendar := merged |})
           settled)
  with
  | Some yearData => mret yearData
  | None => respond internal_error
  end.

(** The [fetch] handler: the calls it issues and the response it returns. *)
Definition fetch (rt : Runtime) (env : Env) (request : Request)
  : list Event * Response :=
  let themeParam := default "dark" (truthy (theme_param request)) in
  let run : Handler string :=
    match truthy (GITHUB_TOKEN env) with
    | None => respond (plain 500 "Error: GITHUB_TOKEN not configured.")
    | Some _ =>
    match truthy (PRIMARY_USER env) with
    | None => respond (plain 500 "Error: PRIMARY_USER not configured.")
    | Some primary =>
        let primaryUser := trim primary in
        let additionalUsers :=
          parse_additional_users (merge_param request) primaryUser in
        authorizedUsers ← authorize rt primaryUser additionalUsers;
        (if Nat.eqb (length authorizedUsers) 0
         then respond no_authorized_users else mret tt);;
        (if includes validThemes themeParam
         then mret tt else respond invalid_theme);;
        years ←
          match parse_years (years_param request) (currentYear rt) with
          | inl r => respond r
          | inr years => mret years
          end;
        yearData ← fetch_years rt years authorizedUsers;
        mret (generateSVGVertical rt yearData authorizedUsers themeParam)
    end
    end in
  match run with
  | (issued, inl r) => (issued, r)
  | (issued, inr document) => (issued, ok_svg document)
  end.

(** ** A runtime to evaluate the model with *)

Definition month_of_number (n : Z) : option Month :=
  match n with
  | 1 => Some Jan | 2 => Some Feb | 3 => Some Mar | 4 => Some Apr
  | 5 => Some May | 6 => Some Jun | 7 => Some Jul | 8 => Some Aug
  | 9 => Some Sep | 10 => Some Oct | 11 => Some Nov | 12 => Some Dec
  | _ => None
  end.

Definition decimal (s : string) : option Z := read_digits 10 s None.

Definition days_in_month (y : Z) (m : Month) : Z :=
  match m with
  | Feb =>
      if (y mod 4 =? 0) && (negb (y mod 100 =? 0) || (y mod 400 =? 0))
      then 29 else 28
  | Apr | Jun | Sep | Nov => 30
  | _ => 31
  end.

(** A stand-in for the engine's date parser, to evaluate examples with: a
    calendar date written YYYY-MM-DD is read in UTC and gives its month
    and day of the month; every other text is taken as an Invalid Date. *)
Definition iso_Date_parse (s : string) : option (Month * Z) :=
  if Nat.eqb (String.length s) 10
     && String.eqb (substring 4 1 s) "-" && String.eqb (substring 7 1 s) "-"
     && forallb (fun c => bool_decide (is_Some (digit_value 10 c)))
                (list_ascii_of_string
                   (substring 0 4 s +:+ substring 5 2 s +:+ substring 8 2 s))
  then
    y ← decimal (substring 0 4 s);
    m ← decimal (substring 5 2 s) ≫= month_of_number;
    d ← decimal (substring 8 2 s);
    if (1 <=? d) && (d <=? days_in_month y m) then Some (m, d) else None
  else None.

(** A runtime in which every additional user has authorized the primary
    user and every account has the given calendar in every year. *)
Definition sample_runtime (thisYear : Z) (cal : Calendar) : Runtime :=
  {| Date_parse := iso_Date_parse;
     currentYear := thisYear;
     isAuthorized := fun _ _ => true;
     contributions := fun _ _ => Some cal |}.

(** Two small series: the first has two days in one week, the second has
    the first of those dates and one more, in two weeks. *)
Definition sample_day (d : string) (n : Z) : ContributionDay :=
  {| date := d; contributionCount := n |}.

Definition calA : Calendar :=
  {| apiTotalContributions := 3;
     weeks := [ {| contributionDays :=
                     [ sample_day "2024-06-01" 3; sample_day "2024-06-02" 0 ] |} ] |}.

Definition calB : Calendar :=
  {| apiTotalContributions := 8;
     weeks := [ {| contributionDays := [ sample_day "2024-06-01" 7 ] |};
                {| contributionDays := [ sample_day "2024-06-03" 1 ] |} ] |}.

(** ** Closed forms used by the proofs *)

(** The sum of the counts of the days of a list that carry a date. *)
Definition date_total (d : string) (days : list ContributionDay) : Z :=
  sum_Z (map contributionCount (filter (fun day => date day = d) days)).

(** The merged day the template walk pushes for a template day. *)
Definition merged_day_of (contributionMap : gmap string Z) (day : ContributionDay)
  : MergedDay :=
  let count := or0 (contributionMap !! date day) in
  {| mdate := date day; mcount := count; contributionLevel := getLevel count |}.

Definition merged_week_of (contributionMap : gmap string Z) (week : Week)
  : MergedWeek :=
  {| mergedDays := map (merged_day_of contributionMap) (contributionDays week) |}.

(** ** What the specification says, in its own words *)

(** [p] is a prefix of [s]. *)
Fixpoint starts_with (p s : string) : bool :=
  match p, s with
  | EmptyString, _ => true
  | String a p', String b s' => Ascii.eqb a b && starts_with p' s'
  | String _ _, EmptyString => false
  end.

(** The five markup-sensitive characters. *)
Definition is_markup_char (c : ascii) : bool :=
  Ascii.eqb c "<"%char || Ascii.eqb c ">"%char || Ascii.eqb c "&"%char
  || Ascii.eqb c "'"%char || Ascii.eqb c "034"%char.

Definition entities : list string :=
  [ "&lt;"; "&gt;"; "&amp;"; "&apos;"; "&quot;" ].

(** A text in which [<], [>], ['] and the double quote do not occur and
    every [&] opens one of the five entities. *)
Fixpoint markup_safe (s : string) : bool :=
  match s with
  | EmptyString => true
  | String c rest =>
      (if Ascii.eqb c "&"%char then existsb (fun e => starts_with e s) entities
       else negb (is_markup_char c))
      && markup_safe rest
  end.

(** Reading the five entities back: [skip] characters of an entity that
    was just decoded are still to be passed over. *)
Fixpoint decode_entities (skip : nat) (s : string) : string :=
  match s with
  | EmptyString => EmptyString
  | String c rest =>
      match skip with
      | S skip' => decode_entities skip' rest
      | O =>
          if starts_with "&lt;" s then String "<" (decode_entities 3 rest)
          else if starts_with "&gt;" s then String ">" (decode_entities 3 rest)
          else if starts_with "&amp;" s then String "&" (decode_entities 4 rest)
          else if starts_with "&apos;" s then String "'" (decode_entities 5 rest)
          else if starts_with "&quot;" s
               then String "034" (decode_entities 5 rest)
          else String c (decode_entities 0 rest)
      end
  end.

Definition unescapeXml (s : string) : string := decode_entities 0 s.

(** The text before the first newline. *)
Fixpoint first_line (s : string) : string :=
  match s with
  | EmptyString => EmptyString
  | String c rest =>
      if Ascii.eqb c "010"%char then EmptyString else String c (first_line rest)
  end.

(** The tooltip line of one account as the specification words it: the
    breakdown value of the account, 0 when it has none, decides between
    "no contributions", "1 contribution" and "N contributions". *)
Definition account_line (userContribs : gmap string Z) (accountId : string)
  : string :=
  let count := default 0 (userContribs !! accountId) in
  if count =? 0 then accountId +:+ " no contributions"
  else if count =? 1 then accountId +:+ " 1 contribution"
  else accountId +:+ " " +:+ num count +:+ " contributions".

(** A text whose last character exists and is not white space. *)
Fixpoint ends_nonspace (s : string) : bool :=
  match s with
  | EmptyString => false
  | String c EmptyString => negb (is_js_space c)
  | String _ rest => ends_nonspace rest
  end.

(** A text whose first character exists and is not white space. *)
Definition starts_nonspace (s : string) : bool :=
  match s with
  | EmptyString => false
  | String c _ => negb (is_js_space c)
  end.

(** A numeric text in the plain sense: an optional sign and then decimal
    digits only, at least one. *)
Definition is_numeric (s : string) : bool :=
  let unsigned :=
    match s with
    | String "-"%char rest => rest
    | String "+"%char rest => rest
    | _ => s
    end in
  negb (String.eqb unsigned EmptyString)
  && forallb (fun c => bool_decide (is_Some (digit_value 10 c)))
             (list_ascii_of_string unsigned).

(** The years the loop produces, counted directly: [n] years back from
    [thisYear], none before 2008. *)
Definition years_back (n thisYear : Z) : list Z :=
  map (fun k => thisYear - Z.of_nat k)
      (seq 0 (Z.to_nat (Z.min n (thisYear - 2007)))).

(** A configured worker and sample requests. *)
Definition sample_env : Env :=
  {| GITHUB_TOKEN := Some "token"; PRIMARY_USER := Some "alice" |}.

Definition sample_request (mergeParam yearsParam themeParam : option string)
  : Request :=
  {| merge_param := mergeParam; years_param := yearsParam;
     theme_param := themeParam |}.

(** The contribution fetches of all years: every account of every year,
    year by year. *)
Definition fetch_calls (years : list Z) (authorizedUsers : list string)
  : list Event :=
  concat (map (fun y => map (fun u => ContributionFetch u y) authorizedUsers) years).

(** ** Further quantities the properties of the merge are stated with *)

(** The count of the last day of a list that carries a date. *)
Fixpoint last_count (d : string) (days : list ContributionDay) : option Z :=
  match days with
  | [] => None
  | day :: rest =>
      match last_count d rest with
      | Some c => Some c
      | None => if decide (date day = d) then Some (contributionCount day) else None
      end
  end.

(** The dates of a series, in order. *)
Definition calendar_dates (cal : Calendar) : list string :=
  map date (calendar_days cal).

(** The sum of all counts of a series. *)
Definition calendar_total (cal : Calendar) : Z :=
  sum_Z (map contributionCount (calendar_days cal)).

(** The levels in increasing order of activity. *)
Definition level_rank (l : Level) : Z :=
  match l with
  | NONE => 0
  | FIRST_QUARTILE => 1
  | SECOND_QUARTILE => 2
  | THIRD_QUARTILE => 3
  | FOURTH_QUARTILE => 4
  end.

(** ** Predicates on texts *)

(** Every character of a text satisfies a test. *)
Fixpoint all_chars (test : ascii -> bool) (s : string) : bool :=
  match s with
  | EmptyString => true
  | String c rest => test c && all_chars test rest
  end.

(** None of the five markup-sensitive characters occurs. *)
Definition markup_free (s : string) : bool :=
  all_chars (fun c => negb (is_markup_char c)) s.

(** No comma occurs. *)
Definition comma_free (s : string) : bool :=
  all_chars (fun c => negb (Ascii.eqb c ","%char)) s.

(** Empty, or with a visible first and last character. *)
Definition trimmed (s : string) : Prop :=
  s = EmptyString \/ (starts_nonspace s = true /\ ends_nonspace s = true).

(** Only decimal digits occur. *)
Definition digits_only (s : string) : bool :=
  all_chars (fun c => match digit_value 10 c with Some _ => true | None => false end) s.

(** ** Positions in the drawing *)



(** The height of one year graph, and the distance between the tops of
    two consecutive year graphs. *)
Definition yearGraphHeight : Z :=
  yearLabelHeight + monthLabelHeight + 7 * (cellSize + cellGap).

Definition yearPitch : Z := yearGraphHeight + graphSpacing.

(** The month labels as a list: the column, counted over the weeks that
    have days, and the text of each label the loop emits. *)
Fixpoint month_label_list (rt : Runtime) (currentMonth : string) (column : nat)
    (weeks : list MergedWeek) : list (nat * string) :=
  match weeks with
  | [] => []
  | week :: rest =>
      match mergedDays week with
      | [] => month_label_list rt currentMonth column rest
      | first :: _ =>
          match Date_parse rt (mdate first) with
          | Some (m, day) =>
              if negb (String.eqb (month_short m) currentMonth) && (day <=? 7)
              then (column, month_short m)
                   :: month_label_list rt (month_short m) (S column) rest
              else month_label_list rt currentMonth (S column) rest
          | None => month_label_list rt currentMonth (S column) rest
          end
      end
  end.

(** The text of one month label (line 364). *)
Definition month_label_text (x0 yOffset padding : Z) (label : nat * string)
  : string :=
  "<text x=" +:+ quoted (num (x0 + Z.of_nat label.1 * (cellSize + cellGap)))
  +:+ " y=" +:+ quoted (num (yOffset + padding + yearLabelHeight + 10))
  +:+ " class=" +:+ quoted "month-label" +:+ ">" +:+ label.2
  +:+ "</text>" +:+ newline.

(** The texts of a list, one after the other. *)
Definition concat_texts (l : list string) : string :=
  fold_right String.append EmptyString l.

(** Each text of a list differs from the one before it, the first from
    [previous]. *)
Fixpoint changes_each_time (previous : string) (texts : list string) : Prop :=
  match texts with
  | [] => True
  | text :: rest => text <> previous /\ changes_each_time text rest
  end.

(** The weeks that have at least one day. *)
Definition weeks_with_days (weeks : list MergedWeek) : list MergedWeek :=
  filter (fun week => mergedDays week <> []) weeks.

(** ** verifyUserAuthorization (index.js 16-60) *)

(** A gist of the response: the names of the own properties of its
    [files] object, [None] when it has no [files]. *)
Record Gist := { files : option (list string) }.

(** What asking for the gists of a user gives: the request or the reading
    of the body throws (a body that is not a list of gists included), the
    response is not ok, or it is ok and holds a list of gists. *)
Inductive GistsOutcome :=
  | GistsThrows
  | GistsNotOk (statusCode : Z)
  | GistsOk (gists : list Gist).

(** [`github-contribution-merge-allow-${primaryUser}.md`]. *)
Definition authFilename (primaryUser : string) : string :=
  "github-contribution-merge-allow-" +:+ primaryUser +:+ ".md".

(** [g.files && g.files[authFilename]]: a file entry is an object, an
    inherited member would be truthy as well. *)
Definition gist_allows (primaryUser : string) (g : Gist) : bool :=
  match files g with
  | Some names =>
      match obj_get (if bool_decide (authFilename primaryUser ∈ names)
                     then Some tt else None)
                    (authFilename primaryUser) with
      | Undefined => false
      | _ => true
      end
  | None => false
  end.

(** The boolean the function resolves to; every exception is caught and
    gives [false]. *)
Definition verifyUserAuthorization (outcome : GistsOutcome) (primaryUser : string)
  : bool :=
  match outcome with
  | GistsThrows => false
  | GistsNotOk _ => false
  | GistsOk gists => existsb (gist_allows primaryUser) gists
  end.

(** A runtime whose authorization answers come from the gists of each
    additional user. *)
Definition runtime_with_gists (rt : Runtime) (gistsOf : string -> GistsOutcome)
  : Runtime :=
  {| Date_parse := Date_parse rt;
     currentYear := currentYear rt;
     isAuthorized := fun additionalUser primaryUser =>
       verifyUserAuthorization (gistsOf additionalUser) primaryUser;
     contributions := contributions rt |}.

(** ** The lexical structure of a document *)

(** Where a character of a document stands: in character data, inside a
    tag, or inside a double-quoted attribute value (the only quoting the
    templates of the worker use). *)
Inductive Place :=
  | Content
  | Tag
  | Value.

(** The place of the character that follows [c]. *)
Definition place_after (p : Place) (c : ascii) : Place :=
  match p with
  | Content => if Ascii.eqb c "<"%char then Tag else Content
  | Tag =>
      if Ascii.eqb c ">"%char then Content
      else if Ascii.eqb c "034"%char then Value else Tag
  | Value => if Ascii.eqb c "034"%char then Tag else Value
  end.

Fixpoint place_at_end (p : Place) (s : string) : Place :=
  match s with
  | EmptyString => p
  | String c rest => place_at_end (place_after p c) rest
  end.

(** A character of the markup: a character of a tag, the [<] that opens
    one, or the quote that closes an attribute value. *)
Definition in_markup (p : Place) (c : ascii) : bool :=
  match p, place_after p c with
  | Tag, _ => true
  | _, Tag => true
  | _, _ => false
  end.

(** The markup of a document read from place [p]: its tags, with the
    attribute values emptied and the character data left out. *)
Fixpoint skeleton (p : Place) (s : string) : string :=
  match s with
  | EmptyString => EmptyString
  | String c rest =>
      if in_markup p c then String c (skeleton (place_after p c) rest)
      else skeleton (place_after p c) rest
  end.

(** The character data and the attribute values of a document read from
    place [p] hold no raw [<], [>], ['] or double quote, and every [&] in
    them opens one of the five entities. *)
Fixpoint payload_safe (p : Place) (s : string) : bool :=
  match s with
  | EmptyString => true
  | String c rest =>
      (in_markup p c
       || (if Ascii.eqb c "&"%char
           then existsb (fun e => starts_with e s) entities
           else negb (is_markup_char c)))
      && payload_safe (place_after p c) rest
  end.

(** Reading [s] from place [p] ends at place [p'] and finds the markup
    [k]. *)
Definition reads (p : Place) (s : string) (p' : Place) (k : string) : Prop :=
  place_at_end p s = p' /\ skeleton p s = k.

(** The same, with the character data and attribute values found safe. *)
Definition scans (p : Place) (s : string) (p' : Place) (k : string) : Prop :=
  reads p s p' k /\ payload_safe p s = true.

(** Neither a [<] nor a double quote occurs: read as character data or as
    an attribute value, the text opens no tag and closes no value. *)
Definition inert (s : string) : bool :=
  all_chars (fun c => negb (Ascii.eqb c "<"%char || Ascii.eqb c "034"%char)) s.

Fixpoint repeat_text (n : nat) (s : string) : string :=
  match n with
  | O => EmptyString
  | S n' => s +:+ repeat_text n' s
  end.

(** The markup of a label: a [text] element with three attributes. *)
Definition text_element_skeleton : string :=
  "<text x=" +:+ quoted EmptyString +:+ " y=" +:+ quoted EmptyString
  +:+ " class=" +:+ quoted EmptyString +:+ "></text>".

(** The markup of a square: a [rect] element with eight attributes and a
    [title] child. *)
Definition square_skeleton : string :=
  "<rect class=" +:+ quoted EmptyString +:+ " x=" +:+ quoted EmptyString
  +:+ " y=" +:+ quoted EmptyString +:+ " width=" +:+ quoted EmptyString
  +:+ " height=" +:+ quoted EmptyString +:+ " fill=" +:+ quoted EmptyString
  +:+ " data-date=" +:+ quoted EmptyString
  +:+ " data-count=" +:+ quoted EmptyString
  +:+ "><title></title></rect>".

(** The markup of a year graph: the year label, one label per month label
    of the loop, the three day labels, and one square per day. *)
Definition graph_skeleton (rt : Runtime) (calendar : Merged) : string :=
  let weeks := mergedWeeks calendar in
  repeat_text (1 + length (month_label_list rt EmptyString 0 weeks) + 3)
              text_element_skeleton
  +:+ repeat_text (length (merged_days weeks)) square_skeleton.

(** The markup of the document before its header: the declaration, the
    root tag, the stylesheet element and the background. *)
Definition prolog_skeleton : string :=
  "<?xml version=" +:+ quoted EmptyString +:+ " encoding=" +:+ quoted EmptyString
  +:+ "?><svg width=" +:+ quoted EmptyString +:+ " height=" +:+ quoted EmptyString
  +:+ " xmlns=" +:+ quoted EmptyString +:+ " xmlns:xlink=" +:+ quoted EmptyString
  +:+ "><style></style><rect width=" +:+ quoted EmptyString
  +:+ " height=" +:+ quoted EmptyString +:+ " fill=" +:+ quoted EmptyString
  +:+ "/>".

(** The markup of a whole document: what precedes the header, the header
    label, the year graphs, and the closing tag of the root. *)
Definition document_skeleton (rt : Runtime) (yearData : list YearData) : string :=
  prolog_skeleton +:+ text_element_skeleton
  +:+ concat_texts (map (fun yd => graph_skeleton rt (calendar yd)) yearData)
  +:+ "</svg>".

(** No text of an account or of a date reaches the markup of [document],
    and none reaches its character data or attribute values with a raw
    markup character: the markup is the one the year data fix; the
    document starts with the text that the extents and the theme give
    (declaration, root tag, stylesheet, background), which ends in
    character data; and in all that follows the character data and the
    attribute values are safe. *)
Definition escaped_document (rt : Runtime) (yearData : list YearData)
    (theme : string) (document : string) : Prop :=
  skeleton Content document = document_skeleton rt yearData
  /\ exists (width : Extent) (height : Z) (rest : string),
       document = document_prolog width height (resolve_theme theme) +:+ rest
       /\ place_at_end Content (document_prolog width height (resolve_theme theme))
          = Content
       /\ payload_safe Content rest = true.

(** [Number.MAX_SAFE_INTEGER]: up to it, in absolute value, a JS number
    holds an integer exactly. *)
Definition MAX_SAFE_INTEGER : Z := 2 ^ 53 - 1.

(** * Properties *)

(** ** The merge *)

Lemma or0_Some (v : Z) : or0 (Some v) = v.
Proof. unfold or0. destruct (Z.eqb_spec v 0); lia. Qed.

Lemma or0_None : or0 None = 0.
Proof. reflexivity. Qed.

Lemma sum_Z_app (l1 l2 : list Z) : sum_Z (l1 ++ l2) = sum_Z l1 + sum_Z l2.
Proof. induction l1 as [|x l1 IH]; simpl; [reflexivity | rewrite IH; lia]. Qed.

Lemma date_total_nil (d : string) : date_total d [] = 0.
Proof. reflexivity. Qed.

Lemma date_total_cons (d : string) (day : ContributionDay) (days : list ContributionDay) :
  date_total d (day :: days)
  = (if decide (date day = d) then contributionCount day else 0)
    + date_total d days.
Proof.
  unfold date_total. rewrite filter_cons.
  destruct (decide (date day = d)); simpl; lia.
Qed.

Lemma date_total_app (d : string) (l1 l2 : list ContributionDay) :
  date_total d (l1 ++ l2) = date_total d l1 + date_total d l2.
Proof.
  unfold date_total. rewrite filter_app, map_app. apply sum_Z_app.
Qed.

(** The first pass leaves in [contributionMap], for every date, what was
    there plus the counts of the days just visited. *)
Lemma merge_day_lookup (u : string) (st : MergeState) (day : ContributionDay) (d : string) :
  or0 ((merge_day u st day).1 !! d)
  = or0 (st.1 !! d) + (if decide (date day = d) then contributionCount day else 0).
Proof.
  destruct st as [m ucd]. unfold merge_day. cbn [fst].
  destruct (decide (date day = d)) as [->|Hne].
  - rewrite lookup_insert_eq. apply or0_Some.
  - rewrite lookup_insert_ne by exact Hne. lia.
Qed.

Lemma merge_week_lookup (u : string) (week : Week) (st : MergeState) (d : string) :
  or0 ((merge_week u st week).1 !! d)
  = or0 (st.1 !! d) + date_total d (contributionDays week).
Proof.
  unfold merge_week. generalize dependent st.
  induction (contributionDays week) as [|day days IH]; intros st; simpl.
  - rewrite date_total_nil. lia.
  - rewrite IH, merge_day_lookup, date_total_cons. lia.
Qed.

Lemma merge_calendar_lookup (u : string) (cal : Calendar) (st : MergeState) (d : string) :
  or0 ((merge_calendar u st cal).1 !! d)
  = or0 (st.1 !! d) + date_total d (calendar_days cal).
Proof.
  unfold merge_calendar, calendar_days. generalize dependent st.
  induction (weeks cal) as [|w ws IH]; intros st; simpl.
  - rewrite date_total_nil. lia.
  - rewrite IH, merge_week_lookup, date_total_app. lia.
Qed.

Lemma merge_all_lookup (usernames : list string) (dataArray : list Calendar) :
  forall (idx : nat) (st : MergeState) (d : string),
    or0 ((merge_all usernames idx dataArray st).1 !! d)
    = or0 (st.1 !! d)
      + sum_Z (map (fun cal => date_total d (calendar_days cal)) dataArray).
Proof.
  induction dataArray as [|cal rest IH]; intros idx st d; simpl.
  - lia.
  - rewrite IH, merge_calendar_lookup. lia.
Qed.

(** With each date at most once in a series, the counts carried by a date
    are the count of its one day. *)
Lemma date_total_once (d : string) (days : list ContributionDay) :
  NoDup (map date days) ->
  date_total d days
  = match find (fun day => bool_decide (date day = d)) days with
    | Some day => contributionCount day
    | None => 0
    end.
Proof.
  induction days as [|day days IH]; intros Hnd; [reflexivity|].
  rewrite date_total_cons. simpl in Hnd. apply NoDup_cons in Hnd as [Hnotin Hnd].
  simpl. destruct (decide (date day = d)) as [Heq|Hne].
  - rewrite bool_decide_eq_true_2 by exact Heq.
    assert (Hz : date_total d days = 0).
    { rewrite IH by exact Hnd.
      destruct (find _ days) as [day'|] eqn:Hf; [|reflexivity].
      apply find_some in Hf as [Hin Hd]. apply bool_decide_eq_true_1 in Hd.
      exfalso. apply Hnotin. rewrite Heq, <- Hd.
      apply list_elem_of_fmap_2, list_elem_of_In, Hin. }
    lia.
  - rewrite bool_decide_eq_false_2 by exact Hne. rewrite IH by exact Hnd. lia.
Qed.

Lemma count_on_date_total (cal : Calendar) (d : string) :
  dates_once cal -> date_total d (calendar_days cal) = count_on cal d.
Proof. intros H. unfold count_on. apply date_total_once, H. Qed.

(** The template walk pushes one merged day per template day, week by
    week, and its running total is the sum of what it pushed. *)
Lemma template_days_fold (m : gmap string Z) (days : list ContributionDay) :
  forall (total : Z) (acc : list MergedDay),
    fold_left (template_day m) days (total, acc)
    = (total + sum_Z (map mcount (map (merged_day_of m) days)),
       acc ++ map (merged_day_of m) days).
Proof.
  induction days as [|day days IH]; intros total acc; simpl.
  - rewrite app_nil_r. f_equal. lia.
  - unfold template_day at 2. cbn [fst snd]. rewrite IH.
    rewrite <- app_assoc. simpl. f_equal.
    symmetry. apply Z.add_assoc.
Qed.

Lemma template_weeks_fold (m : gmap string Z) (ws : list Week) :
  forall (total : Z) (acc : list MergedWeek),
    fold_left (template_week m) ws (total, acc)
    = (total + sum_merged_counts (map (merged_week_of m) ws),
       acc ++ map (merged_week_of m) ws).
Proof.
  induction ws as [|w ws IH]; intros total acc; simpl.
  - rewrite app_nil_r. unfold sum_merged_counts. simpl. f_equal. lia.
  - unfold template_week at 2. cbn [fst snd].
    rewrite template_days_fold. cbn [fst snd]. rewrite IH.
    rewrite <- app_assoc. simpl. f_equal.
    unfold sum_merged_counts, merged_days. simpl.
    rewrite map_app, sum_Z_app. lia.
Qed.

Lemma template_walk_closed (m : gmap string Z) (template : Calendar) :
  template_walk m template
  = (sum_merged_counts (map (merged_week_of m) (weeks template)),
     map (merged_week_of m) (weeks template)).
Proof.
  unfold template_walk. rewrite template_weeks_fold. simpl. reflexivity.
Qed.

(** C1. Sum invariant: for every merged series the merge returns,
    [totalContributions] is the sum of the counts of all days of its weeks;
    and when each input series has every date at most once, the count of
    each merged day is the sum, over the input accounts, of the account's
    own count on that date (0 for an account without that date). *)
Theorem C1_sum_invariant (dataArray : list Calendar) (usernames : list string)
    (merged : Merged) :
  mergeContributions dataArray usernames = Some merged ->
  totalContributions merged = sum_merged_counts (mergedWeeks merged)
  /\ (Forall dates_once dataArray ->
      Forall (fun day =>
                mcount day
                = sum_Z (map (fun cal => count_on cal (mdate day)) dataArray))
             (merged_days (mergedWeeks merged))).
Proof.
  unfold mergeContributions. destruct dataArray as [|template rest]; [discriminate|].
  intros [= <-]. cbn [totalContributions mergedWeeks].
  rewrite template_walk_closed. cbn [fst snd]. split; [reflexivity|].
  intros Honce. set (all := template :: rest) in *.
  apply Forall_forall. intros mday Hin.
  unfold merged_days in Hin. rewrite map_map in Hin.
  apply list_elem_of_In, in_concat in Hin as (days & Hdays & Hmday).
  apply in_map_iff in Hdays as (w & <- & _).
  cbn [mergedDays merged_week_of] in Hmday.
  apply in_map_iff in Hmday as (day & <- & _).
  cbn [mcount mdate merged_day_of].
  rewrite merge_all_lookup, merge_calendar_lookup. cbn [fst].
  rewrite lookup_empty, or0_None, Z.add_0_l.
  subst all. apply Forall_cons in Honce as [Htemplate Hrest].
  cbn [map sum_Z fold_right]. rewrite (count_on_date_total _ _ Htemplate).
  f_equal. fold (sum_Z (map (fun cal => count_on cal (date day)) rest)).
  f_equal. apply map_ext_in. intros cal Hcal.
  apply count_on_date_total.
  rewrite Forall_forall in Hrest. apply Hrest, list_elem_of_In, Hcal.
Qed.

Lemma C1_sum_invariant_witness :
  exists merged,
    mergeContributions [calA; calB] ["alice"; "bob"] = Some merged
    /\ totalContributions merged = 10
    /\ totalContributions merged = sum_merged_counts (mergedWeeks merged)
    /\ Forall (fun day =>
                 mcount day
                 = sum_Z (map (fun cal => count_on cal (mdate day)) [calA; calB]))
              (merged_days (mergedWeeks merged)).
Proof.
  destruct (C1_sum_invariant [calA; calB] ["alice"; "bob"] _ eq_refl)
    as [Htotal Hdays].
  eexists. split; [reflexivity|]. split; [vm_compute; reflexivity|].
  split; [exact Htotal|]. apply Hdays.
  apply List.Forall_cons; [|apply List.Forall_cons; [|apply List.Forall_nil]];
    unfold dates_once; apply (bool_decide_unpack _); vm_compute; exact I.
Defined.

(** C2. Level thresholds: for a non-negative count the level is NONE
    exactly at 0, FIRST_QUARTILE exactly on 1..4, SECOND_QUARTILE exactly
    on 5..9, THIRD_QUARTILE exactly on 10..19 and FOURTH_QUARTILE exactly
    from 20 on; the counts 0, 4, 5, 9, 10, 19, 20 sit on the stated sides
    of the boundaries. *)
Theorem C2_level_thresholds (count : Z) :
  0 <= count ->
  (getLevel count = NONE <-> count = 0)
  /\ (getLevel count = FIRST_QUARTILE <-> 1 <= count < 5)
  /\ (getLevel count = SECOND_QUARTILE <-> 5 <= count < 10)
  /\ (getLevel count = THIRD_QUARTILE <-> 10 <= count < 20)
  /\ (getLevel count = FOURTH_QUARTILE <-> 20 <= count)
  /\ map getLevel [0; 4; 5; 9; 10; 19; 20]
     = [ NONE; FIRST_QUARTILE; SECOND_QUARTILE; SECOND_QUARTILE;
         THIRD_QUARTILE; THIRD_QUARTILE; FOURTH_QUARTILE ].
Proof.
  intros Hnonneg. unfold getLevel.
  destruct (Z.eqb_spec count 0) as [->|Hz].
  - repeat split; intros; try discriminate; try lia; reflexivity.
  - destruct (Z.ltb_spec count 5); [|destruct (Z.ltb_spec count 10);
      [|destruct (Z.ltb_spec count 20)]];
    repeat split; intros; try discriminate; try lia; reflexivity.
Qed.

Lemma C2_level_thresholds_witness :
  getLevel 7 = SECOND_QUARTILE /\ 5 <= 7 < 10.
Proof.
  destruct (C2_level_thresholds 7 ltac:(lia)) as (_ & _ & [Hto Hfrom] & _).
  split; [apply Hfrom; lia | lia].
Defined.

(** C3. Template fidelity: for a non-empty list of series the merge
    returns a series whose weeks hold exactly the dates of the first
    series, in the same weeks and the same order, whatever the other
    series and the account names are; and the template walk gives every
    template day a merged day with its date, whose count is 0 when the
    date is missing from the accumulated map. *)
Theorem C3_template_fidelity (template : Calendar) (rest : list Calendar)
    (usernames : list string) :
  (exists merged,
     mergeContributions (template :: rest) usernames = Some merged
     /\ merged_shape (mergedWeeks merged) = calendar_shape template)
  /\ forall contributionMap : gmap string Z,
       Forall2
         (fun week mweek =>
            Forall2
              (fun day mday =>
                 mdate mday = date day
                 /\ (contributionMap !! date day = None -> mcount mday = 0))
              (contributionDays week) (mergedDays mweek))
         (weeks template) (template_walk contributionMap template).2.
Proof.
  split.
  - eexists. split; [reflexivity|]. cbn [mergedWeeks].
    rewrite template_walk_closed. cbn [snd].
    unfold merged_shape, calendar_shape. rewrite map_map.
    apply map_ext. intros w. cbn [mergedDays merged_week_of].
    rewrite map_map. reflexivity.
  - intros m. rewrite template_walk_closed. cbn [snd].
    induction (weeks template) as [|w ws IH]; simpl; constructor; [|exact IH].
    cbn [mergedDays merged_week_of].
    induction (contributionDays w) as [|day days IHd]; simpl; constructor;
      [|exact IHd].
    split; [reflexivity|]. intros Hnone. cbn [mcount merged_day_of].
    rewrite Hnone. reflexivity.
Qed.

Lemma C3_template_fidelity_witness :
  (exists merged,
     mergeContributions [calA; calB] ["alice"; "bob"] = Some merged
     /\ merged_shape (mergedWeeks merged) = [ [ "2024-06-01"; "2024-06-02" ] ])
  /\ map (fun w => map mcount (mergedDays w)) (template_walk ∅ calA).2
     = [ [0; 0] ].
Proof.
  destruct (C3_template_fidelity calA [calB] ["alice"; "bob"])
    as [(merged & Hmerge & Hshape) _].
  split; [|vm_compute; reflexivity].
  exists merged. split; [exact Hmerge|]. rewrite Hshape. reflexivity.
Defined.

(** ** Strings *)

Lemma sapp_nil_r (s : string) : s +:+ EmptyString = s.
Proof. induction s as [|c s IH]; [reflexivity|]. cbv [String.append]. fold String.append. now rewrite IH. Qed.

Lemma sapp_cons (c : ascii) (s t : string) : String c s +:+ t = String c (s +:+ t).
Proof. reflexivity. Qed.

Lemma sapp_assoc (s t u : string) : (s +:+ t) +:+ u = s +:+ (t +:+ u).
Proof.
  induction s as [|c s IH]; [reflexivity|].
  rewrite !sapp_cons. now rewrite IH.
Qed.

(** ** Escaping *)

(** Case analysis on a character: one of the five, or none of them. *)
Ltac markup_cases c :=
  destruct (Ascii.eqb_spec c "<"%char) as [->|?];
  [|destruct (Ascii.eqb_spec c ">"%char) as [->|?];
    [|destruct (Ascii.eqb_spec c "&"%char) as [->|?];
      [|destruct (Ascii.eqb_spec c "'"%char) as [->|?];
        [|destruct (Ascii.eqb_spec c "034"%char) as [->|?]]]]].

Lemma escape_char_plain (c : ascii) :
  is_markup_char c = false -> escape_char c = String c EmptyString.
Proof.
  unfold is_markup_char, escape_char. markup_cases c; simpl; intros H;
    try discriminate H; reflexivity.
Qed.

Lemma plain_not_amp (c : ascii) :
  is_markup_char c = false -> Ascii.eqb c "&"%char = false.
Proof.
  unfold is_markup_char. intros H.
  destruct (Ascii.eqb c "&"%char); [|reflexivity].
  rewrite !orb_true_r in H. simpl in H. discriminate H.
Qed.

Lemma prefix_amp_plain (c : ascii) (e rest : string) :
  Ascii.eqb c "&"%char = false ->
  starts_with (String "&"%char e) (String c rest) = false.
Proof.
  intros H. cbn [starts_with]. rewrite Ascii.eqb_sym, H. reflexivity.
Qed.

Lemma escapeXml_markup_safe (s : string) : markup_safe (escapeXml s) = true.
Proof.
  induction s as [|c s IH]; [reflexivity|].
  cbn [escapeXml]. destruct (is_markup_char c) eqn:Hc.
  - revert Hc. unfold is_markup_char, escape_char.
    markup_cases c; simpl; intros Hc; try discriminate Hc;
      rewrite ?sapp_cons; change (EmptyString +:+ escapeXml s) with (escapeXml s);
      cbn; exact IH.
  - rewrite (escape_char_plain _ Hc), sapp_cons. cbn [markup_safe].
    rewrite (plain_not_amp _ Hc), Hc. exact IH.
Qed.

Lemma unescapeXml_escapeXml (s : string) : unescapeXml (escapeXml s) = s.
Proof.
  unfold unescapeXml. induction s as [|c s IH]; [reflexivity|].
  cbn [escapeXml]. destruct (is_markup_char c) eqn:Hc.
  - revert Hc. unfold is_markup_char, escape_char.
    markup_cases c; simpl; intros Hc; try discriminate Hc;
      rewrite ?sapp_cons; change (EmptyString +:+ escapeXml s) with (escapeXml s);
      cbn; rewrite IH; reflexivity.
  - rewrite (escape_char_plain _ Hc), sapp_cons.
    pose proof (plain_not_amp _ Hc) as Hamp.
    change (EmptyString +:+ escapeXml s) with (escapeXml s).
    cbn [decode_entities].
    rewrite !(prefix_amp_plain _ _ _ Hamp). rewrite IH. reflexivity.
Qed.

(** ** The handler's control flow *)

Lemma bind_respond {A B : Type} (issued : list Event) (r : Response)
    (k : A -> Handler B) :
  ((issued, inl r) : Handler A) ≫= k = (issued, inl r).
Proof. reflexivity. Qed.

Lemma bind_value {A B : Type} (issued : list Event) (a : A) (k : A -> Handler B) :
  ((issued, inr a) : Handler A) ≫= k = (issued ++ (k a).1, (k a).2).
Proof.
  unfold mbind, Handler_bind. destruct (k a) as [later out]. reflexivity.
Qed.

Lemma bind_mret {A B : Type} (a : A) (k : A -> Handler B) : mret a ≫= k = k a.
Proof.
  unfold mret, Handler_ret. rewrite bind_value. destruct (k a). reflexivity.
Qed.

(** A loop whose body issues one call and goes on with a value issues the
    calls in order and collects the values. *)
Lemma for_each_issue {A B : Type} (call : A -> Event) (value : A -> B) (l : list A) :
  for_each (fun x => issue (call x);; mret (value x)) l
  = (map call l, inr (map value l)).
Proof.
  induction l as [|x l IH]; [reflexivity|].
  cbn [for_each]. rewrite IH. unfold issue.
  repeat (rewrite bind_value; cbn [fst snd mret Handler_ret]).
  rewrite !app_nil_r. reflexivity.
Qed.

Lemma authorize_closed (rt : Runtime) (primaryUser : string) (additionalUsers : list string) :
  authorize rt primaryUser additionalUsers
  = (map (fun u => AuthorizationCheck u primaryUser) additionalUsers,
     inr (primaryUser
          :: filter (fun u => isAuthorized rt u primaryUser = true) additionalUsers)).
Proof.
  unfold authorize.
  rewrite (for_each_issue (fun u => AuthorizationCheck u primaryUser)
             (fun u => (u, isAuthorized rt u primaryUser))).
  rewrite bind_value. cbn [fst snd mret Handler_ret]. rewrite app_nil_r.
  do 3 f_equal.
  induction additionalUsers as [|u us IH]; [reflexivity|].
  cbn [map]. rewrite !filter_cons. cbn [snd].
  destruct (decide (isAuthorized rt u primaryUser = true)); cbn [map fst];
    rewrite IH; reflexivity.
Qed.

Lemma fetch_years_calls (rt : Runtime) (years : list Z) (authorizedUsers : list string) :
  (fetch_years rt years authorizedUsers).1 = fetch_calls years authorizedUsers.
Proof.
  unfold fetch_years.
  assert (Hloop :
    for_each
      (fun y =>
         dataArray ←
           for_each
             (fun u => issue (ContributionFetch u y);; mret (contributions rt u y))
             authorizedUsers;
         mret (y, dataArray))
      years
    = (fetch_calls years authorizedUsers,
       inr (map (fun y => (y, map (fun u => contributions rt u y) authorizedUsers))
                years))).
  { unfold fetch_calls. induction years as [|y ys IH]; [reflexivity|].
    cbn [for_each]. rewrite IH.
    rewrite (for_each_issue (fun u => ContributionFetch u y)
               (fun u => contributions rt u y)).
    repeat (rewrite bind_value; cbn [fst snd mret Handler_ret map concat]).
    rewrite !app_nil_r. reflexivity. }
  rewrite Hloop, bind_value. cbn [fst].
  destruct (all_resolved _); cbn [fst mret Handler_ret respond];
    apply app_nil_r.
Qed.

(** The handler once both bindings are present: the authorization checks
    are issued first; then the theme is validated, then the years; then
    the contributions are fetched. *)
Lemma fetch_configured (rt : Runtime) (env : Env) (request : Request)
    (token primary : string) :
  truthy (GITHUB_TOKEN env) = Some token ->
  truthy (PRIMARY_USER env) = Some primary ->
  let primaryUser := trim primary in
  let additionalUsers := parse_additional_users (merge_param request) primaryUser in
  let authorizedUsers :=
    primaryUser :: filter (fun u => isAuthorized rt u primaryUser = true)
                          additionalUsers in
  let checks := map (fun u => AuthorizationCheck u primaryUser) additionalUsers in
  let themeParam := default "dark" (truthy (theme_param request)) in
  fetch rt env request
  = if includes validThemes themeParam then
      match parse_years (years_param request) (currentYear rt) with
      | inl r => (checks, r)
      | inr years =>
          let fetched := fetch_years rt years authorizedUsers in
          (checks ++ fetched.1,
           match fetched.2 with
           | inl r => r
           | inr yearData =>
               ok_svg (generateSVGVertical rt yearData authorizedUsers themeParam)
           end)
      end
    else (checks, invalid_theme).
Proof.
  intros Htoken Hprimary. cbv zeta. unfold fetch. rewrite Htoken, Hprimary.
  rewrite authorize_closed, bind_value. cbn [fst snd length Nat.eqb].
  destruct (includes validThemes _).
  - rewrite !bind_mret.
    destruct (parse_years _ _) as [r|years].
    + unfold respond. rewrite bind_respond. cbn [fst snd].
      rewrite app_nil_r. reflexivity.
    + rewrite bind_mret.
      destruct (fetch_years rt years _) as [issued [r|yearData]].
      * rewrite bind_respond. reflexivity.
      * rewrite bind_value. cbn [fst snd mret Handler_ret].
        rewrite app_nil_r. reflexivity.
  - rewrite bind_mret. unfold respond. rewrite bind_respond. cbn [fst snd].
    rewrite app_nil_r. reflexivity.
Qed.

Lemma fetch_unconfigured (rt : Runtime) (env : Env) (request : Request) :
  truthy (GITHUB_TOKEN env) = None \/ truthy (PRIMARY_USER env) = None ->
  (fetch rt env request).1 = [] /\ status (fetch rt env request).2 = 500.
Proof.
  unfold fetch. intros [H|H].
  - rewrite H. split; reflexivity.
  - rewrite H. destruct (truthy (GITHUB_TOKEN env)); split; reflexivity.
Qed.

(** ** The years parameter *)

(** The loop, for any fuel: it stops after the smaller of the fuel and
    the number of years left both by the count and by the floor 2008. *)
Lemma years_loop_closed (yearCount thisYear : Z) :
  forall (fuel : nat) (i : Z) (years : list Z),
    years_loop fuel i yearCount thisYear years
    = years
      ++ map (fun k => thisYear - i - Z.of_nat k)
             (seq 0 (Nat.min fuel
                       (Z.to_nat (Z.min yearCount (thisYear - 2007) - i)))).
Proof.
  induction fuel as [|fuel IH]; intros i years.
  - cbn [years_loop Nat.min seq map]. now rewrite app_nil_r.
  - cbn [years_loop].
    destruct (Z.ltb_spec i yearCount) as [Hlt|Hge].
    + destruct (Z.ltb_spec (thisYear - i) 2008) as [Hfloor|Hok].
      * replace (Z.to_nat (Z.min yearCount (thisYear - 2007) - i)) with 0%nat by lia.
        rewrite Nat.min_0_r. cbn [seq map]. now rewrite app_nil_r.
      * rewrite IH.
        replace (Z.to_nat (Z.min yearCount (thisYear - 2007) - i))
          with (S (Z.to_nat (Z.min yearCount (thisYear - 2007) - (i + 1))))
          by lia.
        rewrite <- Nat.succ_min_distr. cbn [seq map].
        rewrite <- app_assoc. cbn [app]. f_equal. f_equal; [lia|].
        rewrite <- seq_shift, map_map. apply map_ext. intros k. lia.
    + replace (Z.to_nat (Z.min yearCount (thisYear - 2007) - i)) with 0%nat by lia.
      rewrite Nat.min_0_r. cbn [seq map]. now rewrite app_nil_r.
Qed.

(** The fuel [parse_years] gives the loop is enough: more fuel changes
    nothing. *)
Lemma years_loop_more_fuel (fuel : nat) (yearCount thisYear : Z) :
  (Z.to_nat yearCount <= fuel)%nat ->
  years_loop fuel 0 yearCount thisYear []
  = years_loop (Z.to_nat yearCount) 0 yearCount thisYear [].
Proof.
  intros Hfuel. rewrite !years_loop_closed. do 3 f_equal. lia.
Qed.

Lemma years_loop_years_back (yearCount thisYear : Z) :
  years_loop (Z.to_nat yearCount) 0 yearCount thisYear []
  = years_back yearCount thisYear.
Proof.
  rewrite years_loop_closed. unfold years_back. cbn [app].
  replace (Nat.min _ _) with (Z.to_nat (Z.min yearCount (thisYear - 2007))) by lia.
  apply map_ext. intros k. lia.
Qed.

Lemma parse_years_rejects (yearsParam : option string) (thisYear : Z) (r : Response) :
  parse_years yearsParam thisYear = inl r -> r = invalid_years.
Proof.
  unfold parse_years. destruct (truthy yearsParam); [|discriminate].
  destruct (parseInt _) as [n|]; [destruct (n <? 1)|]; congruence.
Qed.

(** The claim as worded fails: the text 3abc is not numeric, yet it is not
    rejected, it is read as 3; and an empty parameter, in which [parseInt]
    finds no number either, is not rejected but taken as absent. *)
Lemma C5_years_parameter_counterexample :
  (is_numeric "3abc" = false
   /\ parse_years (Some "3abc") 2024 = inr [2024; 2023; 2022])
  /\ (is_numeric EmptyString = false
      /\ parseInt EmptyString = None
      /\ parse_years (Some EmptyString) 2024 = inr [2024]).
Proof. repeat split; vm_compute; reflexivity. Qed.

(** C5 (amended). The years parameter is rejected, with status 400 and a
    message that describes valid input, when [parseInt] finds no leading
    integer in its trimmed text or finds one below 1; otherwise the list is
    counted back from the current year until the count is used up or the
    year would precede 2008, so 100 in the year 2024 gives the 17 years
    from 2024 down to 2008; without the parameter, or with an empty one,
    the list is the current year alone. *)
Theorem C5_years_parameter (yearsParam : option string) (thisYear : Z) :
  (truthy yearsParam = None -> parse_years yearsParam thisYear = inr [thisYear])
  /\ (forall text,
        truthy yearsParam = Some text ->
        parseInt (trim text) = None
        \/ (exists n, parseInt (trim text) = Some n /\ n < 1) ->
        parse_years yearsParam thisYear = inl invalid_years)
  /\ (forall text n,
        truthy yearsParam = Some text ->
        parseInt (trim text) = Some n -> 1 <= n ->
        parse_years yearsParam thisYear = inr (years_back n thisYear))
  /\ status invalid_years = 400
  /\ body invalid_years
     = "Error: Invalid years parameter. Use ?years=N where N is a positive number"
  /\ parse_years (Some "100") 2024
     = inr [ 2024; 2023; 2022; 2021; 2020; 2019; 2018; 2017; 2016; 2015; 2014;
             2013; 2012; 2011; 2010; 2009; 2008 ]
  /\ length (years_back 100 2024) = 17%nat
  /\ (forall rt env request token primary,
        truthy (GITHUB_TOKEN env) = Some token ->
        truthy (PRIMARY_USER env) = Some primary ->
        includes validThemes (default "dark" (truthy (theme_param request))) = true ->
        match parse_years (years_param request) (currentYear rt) with
        | inl r => fetch rt env request
                   = (map (fun u => AuthorizationCheck u (trim primary))
                          (parse_additional_users (merge_param request)
                                                  (trim primary)),
                      r)
        | inr years =>
            (fetch rt env request).1
            = map (fun u => AuthorizationCheck u (trim primary))
                  (parse_additional_users (merge_param request) (trim primary))
              ++ fetch_calls years
                   (trim primary
                    :: filter (fun u => isAuthorized rt u (trim primary) = true)
                              (parse_additional_users (merge_param request)
                                                      (trim primary)))
        end).
Proof.
  split; [|split; [|split; [|split; [|split; [|split; [|split]]]]]];
    try reflexivity.
  - unfold parse_years. intros ->. reflexivity.
  - unfold parse_years. intros text -> [->|(n & -> & Hn)]; [reflexivity|].
    destruct (Z.ltb_spec n 1); [reflexivity|lia].
  - unfold parse_years. intros text n -> -> Hn.
    destruct (Z.ltb_spec n 1); [lia|]. now rewrite years_loop_years_back.
  - intros rt env request token primary Htoken Hprimary Htheme.
    rewrite (fetch_configured rt env request token primary Htoken Hprimary).
    cbv zeta. rewrite Htheme.
    destruct (parse_years _ _) as [r|years]; [reflexivity|].
    cbn [fst]. now rewrite fetch_years_calls.
Qed.

Lemma C5_years_parameter_witness :
  parse_years (Some "100") 2024 = inr (years_back 100 2024)
  /\ parse_years (Some "abc") 2024 = inl invalid_years
  /\ parse_years None 2024 = inr [2024].
Proof.
  destruct (C5_years_parameter (Some "100") 2024) as (_ & _ & Hcount & _).
  destruct (C5_years_parameter (Some "abc") 2024) as (_ & Hreject & _).
  destruct (C5_years_parameter None 2024) as (Habsent & _).
  split; [|split].
  - apply (Hcount "100" 100); [reflexivity | reflexivity | lia].
  - apply (Hreject "abc"); [reflexivity | left; reflexivity].
  - apply Habsent. reflexivity.
Defined.

(** ** The order of validation and network calls *)

(** The claim as worded fails: a request with an unknown theme and one
    additional user has its authorization check issued before the theme
    is rejected. *)
Lemma C4_validation_order_counterexample :
  fetch (sample_runtime 2024 calA) sample_env
        (sample_request (Some "bob") None (Some "neon"))
  = ([AuthorizationCheck "bob" "alice"], invalid_theme).
Proof. vm_compute. reflexivity. Qed.

(** C4 (amended). A configuration error is reported before any network
    call.  A validation error (unknown theme, bad years value) is reported
    with status 400 before any contribution fetch is issued; by then
    exactly the authorization checks of the additional users named by the
    merge parameter have been issued, in order. *)
Theorem C4_validation_order (rt : Runtime) (env : Env) (request : Request) :
  (truthy (GITHUB_TOKEN env) = None \/ truthy (PRIMARY_USER env) = None ->
   (fetch rt env request).1 = [] /\ status (fetch rt env request).2 = 500)
  /\ (forall token primary,
        truthy (GITHUB_TOKEN env) = Some token ->
        truthy (PRIMARY_USER env) = Some primary ->
        includes validThemes (default "dark" (truthy (theme_param request))) = false
        \/ (exists r, parse_years (years_param request) (currentYear rt) = inl r) ->
        (fetch rt env request).1
        = map (fun u => AuthorizationCheck u (trim primary))
              (parse_additional_users (merge_param request) (trim primary))
        /\ status (fetch rt env request).2 = 400
        /\ ((fetch rt env request).2 = invalid_theme
            \/ (fetch rt env request).2 = invalid_years)).
Proof.
  split; [apply fetch_unconfigured|].
  intros token primary Htoken Hprimary Hinvalid.
  rewrite (fetch_configured rt env request token primary Htoken Hprimary).
  cbv zeta. destruct (includes validThemes _) eqn:Htheme.
  - destruct Hinvalid as [Hfalse|(r & Hr)]; [discriminate Hfalse|].
    rewrite Hr. rewrite (parse_years_rejects _ _ _ Hr).
    repeat split; auto.
  - repeat split; auto.
Qed.

Lemma C4_validation_order_witness :
  (fetch (sample_runtime 2024 calA) sample_env
         (sample_request (Some "bob,carol") (Some "0") None)).1
  = [AuthorizationCheck "bob" "alice"; AuthorizationCheck "carol" "alice"]
  /\ (fetch (sample_runtime 2024 calA)
            {| GITHUB_TOKEN := None; PRIMARY_USER := Some "alice" |}
            (sample_request (Some "bob") None None)).1 = [].
Proof.
  split.
  - destruct (C4_validation_order (sample_runtime 2024 calA) sample_env
                (sample_request (Some "bob,carol") (Some "0") None))
      as [_ Hvalid].
    destruct (Hvalid "token" "alice" eq_refl eq_refl) as [Hissued _].
    + right. exists invalid_years. vm_compute. reflexivity.
    + rewrite Hissued. vm_compute. reflexivity.
  - destruct (C4_validation_order (sample_runtime 2024 calA)
                {| GITHUB_TOKEN := None; PRIMARY_USER := Some "alice" |}
                (sample_request (Some "bob") None None))
      as [Hconfig _].
    apply Hconfig. left. reflexivity.
Defined.

(** ** The authorized accounts *)

Lemma primary_not_additional (mergeParam : option string) (primaryUser : string) :
  primaryUser ∉ parse_additional_users mergeParam primaryUser.
Proof.
  unfold parse_additional_users. destruct (truthy mergeParam) as [text|].
  - intros Hin. apply list_elem_of_filter in Hin as [[_ Hne] _]. now apply Hne.
  - apply not_elem_of_nil.
Qed.

Lemma fetch_years_rejects (rt : Runtime) (years : list Z) (users : list string)
    (r : Response) :
  (fetch_years rt years users).2 = inl r -> r = internal_error.
Proof.
  unfold fetch_years.
  destruct (for_each _ years) as [issued [r0|settled]] eqn:Hloop.
  - exfalso. revert issued r0 Hloop.
    induction years as [|y ys IH]; intros issued r0 Hloop; [discriminate Hloop|].
    cbn [for_each] in Hloop.
    rewrite (for_each_issue (fun u => ContributionFetch u y)
               (fun u => contributions rt u y)) in Hloop.
    rewrite bind_value in Hloop. cbn [fst snd mret Handler_ret] in Hloop.
    rewrite bind_value in Hloop. cbn [fst snd] in Hloop.
    destruct (for_each _ ys) as [issued' [r'|settled']] eqn:Hrest.
    + eapply IH. reflexivity.
    + rewrite bind_value in Hloop. discriminate Hloop.
  - rewrite bind_value. cbn [fst snd].
    destruct (all_resolved _); cbn [snd mret Handler_ret respond]; congruence.
Qed.

(** C10. Once the configuration checks have passed, the authorized
    accounts start with the primary account, which the merge parameter
    cannot add a second time, so their list is never empty and the
    response for zero authorized accounts is never returned. *)
Theorem C10_primary_always_authorized (rt : Runtime) (env : Env) (request : Request)
    (token primary : string) :
  truthy (GITHUB_TOKEN env) = Some token ->
  truthy (PRIMARY_USER env) = Some primary ->
  let primaryUser := trim primary in
  let additionalUsers := parse_additional_users (merge_param request) primaryUser in
  (exists others,
     (authorize rt primaryUser additionalUsers).2 = inr (primaryUser :: others)
     /\ (primaryUser ∉ others)
     /\ others ⊆ additionalUsers)
  /\ (primaryUser ∉ additionalUsers)
  /\ (fetch rt env request).2 <> no_authorized_users.
Proof.
  intros Htoken Hprimary primaryUser additionalUsers.
  pose proof (primary_not_additional (merge_param request) primaryUser) as Hnot.
  fold additionalUsers in Hnot.
  split; [|split; [exact Hnot|]].
  - exists (filter (fun u => isAuthorized rt u primaryUser = true) additionalUsers).
    rewrite authorize_closed. cbn [snd]. split; [reflexivity|]. split.
    + intros Hin. apply list_elem_of_filter in Hin as [_ Hin]. now apply Hnot.
    + intros u Hin. now apply list_elem_of_filter in Hin as [_ Hin].
  - rewrite (fetch_configured rt env request token primary Htoken Hprimary).
    cbv zeta. destruct (includes validThemes _).
    + destruct (parse_years _ _) as [r|years] eqn:Hyears.
      * rewrite (parse_years_rejects _ _ _ Hyears). cbn [snd]. discriminate.
      * cbn [snd]. destruct (fetch_years rt years _) as [issued [r|yearData]] eqn:Hf.
        -- apply (f_equal snd) in Hf. cbn [snd] in Hf.
           apply fetch_years_rejects in Hf as ->. cbn [snd]. discriminate.
        -- cbn [snd]. discriminate.
    + cbn [snd]. discriminate.
Qed.

Lemma C10_primary_always_authorized_witness :
  (authorize (sample_runtime 2024 calA) "alice"
             (parse_additional_users (Some "bob, alice,,bob") "alice")).2
  = inr ["alice"; "bob"; "bob"]
  /\ (fetch (sample_runtime 2024 calA) sample_env
            (sample_request (Some "bob, alice,,bob") None None)).2
     <> no_authorized_users.
Proof.
  destruct (C10_primary_always_authorized (sample_runtime 2024 calA) sample_env
              (sample_request (Some "bob, alice,,bob") None None)
              "token" "alice" eq_refl eq_refl)
    as (_ & _ & Hreach).
  split; [vm_compute; reflexivity | exact Hreach].
Defined.

(** ** Escaped text in the document *)

Lemma theme_levels_registered (theme : string) :
  In (theme_levels theme) (map (fun entry => levels entry.2) THEMES).
Proof.
  unfold theme_levels, THEMES_get, obj_get, THEMES. cbn [assoc].
  repeat match goal with
         | |- context [String.eqb ?a ?b] => destruct (String.eqb a b)
         end;
    try destruct (bool_decide _); cbn; tauto.
Qed.

(** Whatever the theme name, the fill colour of a square is a colour of
    the theme table and holds no markup character. *)
Lemma getLevelColor_markup_safe (level : Level) (theme : string) :
  markup_safe (getLevelColor level theme) = true.
Proof.
  unfold getLevelColor.
  pose proof (theme_levels_registered theme) as Hin. cbn in Hin.
  destruct Hin as [<-|[<-|[<-|[<-|[<-|[<-|[<-|[]]]]]]]];
    destruct level; vm_compute; reflexivity.
Qed.

Lemma header_element_split (padding : Z) :
  exists before after,
    forall usernames,
      header_element padding usernames
      = before +:+ escapeXml (userListText usernames) +:+ after.
Proof.
  exists ("<text x=" +:+ quoted (num padding)
          +:+ " y=" +:+ quoted (num (padding + 16))
          +:+ " class=" +:+ quoted "header-label" +:+ ">").
  exists "</text>". intros usernames. unfold header_element.
  rewrite !sapp_assoc. reflexivity.
Qed.

(** C9. Header text: the document carries one header element whose text
    is the escaped text "Users - " followed by the account names in the
    order given, separated by a comma and a space; in a successful
    response the names are the primary account and then the authorized
    additional accounts in the order of the merge parameter. *)
Theorem C9_header_text :
  (forall width height usernames graphSVGs theme padding,
     generateCompleteSVG width height usernames graphSVGs theme padding
     = document_prolog width height (resolve_theme theme)
       +:+ ("<text x=" +:+ quoted (num padding)
            +:+ " y=" +:+ quoted (num (padding + 16))
            +:+ " class=" +:+ quoted "header-label" +:+ ">"
            +:+ escapeXml ("Users - " +:+ join ", " usernames)
            +:+ "</text>")
       +:+ document_epilog graphSVGs)
  /\ (forall first others,
        join ", " (first :: others)
        = first +:+ fold_right (fun u rest => ", " +:+ u +:+ rest) EmptyString others)
  /\ (forall rt env request,
        status (fetch rt env request).2 = 200 ->
        exists primary before after,
          truthy (PRIMARY_USER env) = Some primary
          /\ body (fetch rt env request).2
             = before
               +:+ header_element 10
                     (trim primary
                      :: filter (fun u => isAuthorized rt u (trim primary) = true)
                                (parse_additional_users (merge_param request)
                                                        (trim primary)))
               +:+ after).
Proof.
  split; [reflexivity|]. split.
  - intros first others. revert first.
    induction others as [|u others IH]; intros first.
    + cbn [join fold_right]. now rewrite sapp_nil_r.
    + cbn [fold_right]. rewrite <- IH. reflexivity.
  - intros rt env request Hok.
    destruct (truthy (GITHUB_TOKEN env)) as [token|] eqn:Htoken.
    2: { destruct (fetch_unconfigured rt env request) as [_ H500]; [now left|].
         rewrite H500 in Hok. discriminate Hok. }
    destruct (truthy (PRIMARY_USER env)) as [primary|] eqn:Hprimary.
    2: { destruct (fetch_unconfigured rt env request) as [_ H500]; [now right|].
         rewrite H500 in Hok. discriminate Hok. }
    exists primary.
    rewrite (fetch_configured rt env request token primary Htoken Hprimary) in *.
    cbv zeta in *. destruct (includes validThemes _); [|discriminate Hok].
    destruct (parse_years _ _) as [r|years] eqn:Hyears.
    { rewrite (parse_years_rejects _ _ _ Hyears) in Hok. discriminate Hok. }
    cbn [snd] in *.
    destruct (fetch_years rt years _) as [issued [r|yearData]] eqn:Hfetch.
    { apply (f_equal snd) in Hfetch. cbn [snd] in *.
      apply fetch_years_rejects in Hfetch as ->. discriminate Hok. }
    cbn [snd body ok_svg]. unfold generateSVGVertical, generateCompleteSVG.
    cbv zeta. eexists _, _. split; reflexivity.
Qed.

Lemma C9_header_text_witness :
  exists before after,
    body (fetch (sample_runtime 2024 calA) sample_env
                (sample_request (Some "b<ob") None None)).2
    = before +:+ header_element 10 ["alice"; "b<ob"] +:+ after
    /\ header_element 10 ["alice"; "b<ob"]
       = "<text x=" +:+ quoted "10" +:+ " y=" +:+ quoted "26"
         +:+ " class=" +:+ quoted "header-label"
         +:+ ">Users - alice, b&lt;ob</text>".
Proof.
  destruct C9_header_text as (_ & _ & Hhandler).
  destruct (Hhandler (sample_runtime 2024 calA) sample_env
              (sample_request (Some "b<ob") None None))
    as (primary & before & after & Hprimary & Hbody).
  - vm_compute. reflexivity.
  - injection Hprimary as <-. exists before, after. split; [exact Hbody|].
    vm_compute. reflexivity.
Defined.

(** ** Trimming and the tooltip *)

Lemma trimStart_starts_nonspace (s : string) :
  starts_nonspace s = true -> trimStart s = s.
Proof.
  destruct s as [|c s]; [discriminate|]. cbn [starts_nonspace trimStart].
  destruct (is_js_space c); [discriminate | reflexivity].
Qed.

Lemma ends_nonspace_nonempty (s : string) :
  ends_nonspace s = true -> s <> EmptyString.
Proof. destruct s; [discriminate | discriminate]. Qed.

Lemma trimEnd_ends_nonspace (s : string) :
  ends_nonspace s = true -> trimEnd s = s.
Proof.
  induction s as [|c s IH]; [discriminate|].
  cbn [ends_nonspace trimEnd]. destruct s as [|c' s].
  - cbn [trimEnd]. destruct (is_js_space c); [discriminate | reflexivity].
  - intros H. rewrite (IH H). reflexivity.
Qed.

Lemma trimEnd_app_newline (s : string) : trimEnd (s +:+ newline) = trimEnd s.
Proof.
  induction s as [|c s IH]; [reflexivity|].
  rewrite sapp_cons. cbn [trimEnd]. rewrite IH. reflexivity.
Qed.

Lemma ends_nonspace_app (a b : string) :
  ends_nonspace b = true -> ends_nonspace (a +:+ b) = true.
Proof.
  intros Hb. induction a as [|c a IH]; [exact Hb|].
  rewrite sapp_cons. cbn [ends_nonspace].
  destruct (a +:+ b) eqn:Hab; [discriminate IH | exact IH].
Qed.

Lemma starts_nonspace_app (a b : string) :
  starts_nonspace a = true -> starts_nonspace (a +:+ b) = true.
Proof. destruct a; [discriminate|]. intros H. exact H. Qed.

(** Trimming a text that begins and ends with visible characters and is
    followed by one newline removes the newline. *)
Lemma trim_text_newline (text : string) :
  starts_nonspace text = true -> ends_nonspace text = true ->
  trim (text +:+ newline) = text.
Proof.
  intros Hstart Hend. unfold trim.
  rewrite trimStart_starts_nonspace by now apply starts_nonspace_app.
  rewrite trimEnd_app_newline. now apply trimEnd_ends_nonspace.
Qed.

Lemma join_cons_cons (sep x y : string) (l : list string) :
  join sep (x :: y :: l) = x +:+ sep +:+ join sep (y :: l).
Proof. reflexivity. Qed.

Lemma join_absorb (sep a b : string) (l : list string) :
  join sep ((a +:+ sep +:+ b) :: l) = join sep (a :: b :: l).
Proof.
  destruct l as [|x l]; [reflexivity|].
  rewrite !join_cons_cons, !sapp_assoc. reflexivity.
Qed.

Lemma ends_nonspace_join (l : list string) :
  forall x,
    ends_nonspace x = true ->
    Forall (fun line => ends_nonspace line = true) l ->
    ends_nonspace (join newline (x :: l)) = true.
Proof.
  induction l as [|y l IH]; intros x Hx Hl; [exact Hx|].
  apply Forall_cons in Hl as [Hy Hl].
  rewrite join_cons_cons. do 2 apply ends_nonspace_app. now apply IH.
Qed.

Lemma starts_nonspace_join (x : string) (l : list string) :
  starts_nonspace x = true -> starts_nonspace (join newline (x :: l)) = true.
Proof.
  intros Hx. destruct l as [|y l]; [exact Hx|].
  rewrite join_cons_cons. now apply starts_nonspace_app.
Qed.

(** The loop of [generateTooltipContent] in closed form. *)
Lemma tooltip_fold (line : string -> string) (usernames : list string) :
  forall first,
    fold_left (fun content username => content +:+ line username +:+ newline)
              usernames (first +:+ newline)
    = join newline (first :: map line usernames) +:+ newline.
Proof.
  induction usernames as [|u us IH]; intros first; [reflexivity|].
  cbn [fold_left map].
  replace ((first +:+ newline) +:+ line u +:+ newline)
    with ((first +:+ newline +:+ line u) +:+ newline)
    by (rewrite !sapp_assoc; reflexivity).
  rewrite IH, join_absorb. reflexivity.
Qed.

Lemma account_line_ends_nonspace (userContribs : gmap string Z) (u : string) :
  ends_nonspace (account_line userContribs u) = true.
Proof.
  unfold account_line.
  destruct (_ =? 0); [|destruct (_ =? 1)];
    repeat apply ends_nonspace_app; reflexivity.
Qed.

(** The code's line for an account is the specified one, unless the
    account has no breakdown value and is named like an inherited member. *)
Lemma tooltip_line_account_line (userContribs : gmap string Z) (u : string) :
  (userContribs !! u = None -> u ∉ Object_prototype_members) ->
  tooltip_line userContribs u = account_line userContribs u.
Proof.
  intros Hplain. unfold tooltip_line, account_line, obj_get.
  destruct (userContribs !! u) as [count|] eqn:Hu; cbn [default from_option id].
  - destruct (count =? 0); [reflexivity|].
    destruct (Z.eqb_spec count 1) as [->|_]; reflexivity.
  - rewrite bool_decide_eq_false_2 by now apply Hplain. reflexivity.
Qed.

(** The claim as worded fails: the first line of the tooltip is the
    formatted date followed by a colon. *)
Lemma C6_tooltip_counterexample :
  formatDate (sample_runtime 2024 calA) "2024-06-01" = "Jun 1"
  /\ first_line
       (generateTooltipContent (sample_runtime 2024 calA) "2024-06-01"
                               {[ "alice" := 3 ]} ["alice"])
     = "Jun 1:"
  /\ first_line
       (generateTooltipContent (sample_runtime 2024 calA) "2024-06-01"
                               {[ "alice" := 3 ]} ["alice"])
     <> formatDate (sample_runtime 2024 calA) "2024-06-01".
Proof.
  split; [vm_compute; reflexivity|].
  split; [vm_compute; reflexivity|].
  vm_compute. discriminate.
Qed.

(** C6 (amended). Tooltip: for a date the runtime reads as a month and a
    day, the first line is the short month name, a space, the day number
    and a colon; then comes one line per account, in the order given:
    "no contributions" when the breakdown value of the account is 0 or
    missing, "1 contribution" when it is 1, the count and "contributions"
    otherwise; the lines are joined by newlines with nothing after the
    last.  Accounts without a breakdown value are taken not to be named
    like a member of [Object.prototype]. *)
Theorem C6_tooltip_content (rt : Runtime) (dateText : string)
    (userContribs : gmap string Z) (usernames : list string)
    (month : Month) (day : Z) :
  Date_parse rt dateText = Some (month, day) ->
  Forall (fun u => userContribs !! u = None -> u ∉ Object_prototype_members)
         usernames ->
  generateTooltipContent rt dateText userContribs usernames
  = join newline
      ((month_short month +:+ " " +:+ num day +:+ ":")
       :: map (account_line userContribs) usernames).
Proof.
  intros Hdate Hnames. unfold generateTooltipContent, formatDate.
  rewrite Hdate.
  replace ((month_short month +:+ " " +:+ num day) +:+ ":" +:+ newline)
    with ((month_short month +:+ " " +:+ num day +:+ ":") +:+ newline)
    by (rewrite !sapp_assoc; reflexivity).
  rewrite tooltip_fold.
  replace (map (tooltip_line userContribs) usernames)
    with (map (account_line userContribs) usernames).
  2: { apply map_ext_in. intros u Hu. symmetry.
       apply tooltip_line_account_line.
       rewrite Forall_forall in Hnames. apply Hnames, list_elem_of_In, Hu. }
  apply trim_text_newline.
  - apply starts_nonspace_join. destruct month; reflexivity.
  - apply ends_nonspace_join.
    + repeat apply ends_nonspace_app. reflexivity.
    + apply Forall_forall. intros line Hline.
      apply list_elem_of_In, in_map_iff in Hline as (u & <- & _).
      apply account_line_ends_nonspace.
Qed.

Lemma C6_tooltip_content_witness :
  generateTooltipContent (sample_runtime 2024 calA) "2024-06-09"
                         {[ "alice" := 3; "bob" := 1; "carol" := 0 ]}
                         ["alice"; "bob"; "carol"; "dave"]
  = join newline
      [ "Jun 9:"; "alice 3 contributions"; "bob 1 contribution";
        "carol no contributions"; "dave no contributions" ].
Proof.
  rewrite (C6_tooltip_content (sample_runtime 2024 calA) "2024-06-09"
             {[ "alice" := 3; "bob" := 1; "carol" := 0 ]}
             ["alice"; "bob"; "carol"; "dave"] Jun 9).
  - vm_compute. reflexivity.
  - vm_compute. reflexivity.
  - repeat constructor; intros _; apply (bool_decide_unpack _); vm_compute;
      exact I.
Defined.

(** ** Theme resolution *)









(** * Further properties *)

(** ** The per-account breakdown of the merge *)

Lemma merge_calendar_flat (u : string) (cal : Calendar) (st : MergeState) :
  merge_calendar u st cal = fold_left (merge_day u) (calendar_days cal) st.
Proof.
  unfold merge_calendar, calendar_days. revert st.
  induction (weeks cal) as [|w ws IH]; intros st; [reflexivity|].
  cbn [fold_left map concat]. rewrite fold_left_app. apply IH.
Qed.

Lemma obj_set_twice (u : string) (c1 c2 : Z) (o : gmap string Z) :
  obj_set u c2 (obj_set u c1 o) = obj_set u c2 o.
Proof.
  unfold obj_set. destruct (decide (u = "__proto__")); [reflexivity|].
  apply insert_insert_eq.
Qed.

Lemma obj_set_lookup (v u : string) (c : Z) (o : gmap string Z) :
  obj_set v c o !! u
  = if decide (v = u /\ v <> "__proto__") then Some c else o !! u.
Proof.
  unfold obj_set. destruct (decide (v = "__proto__")) as [Hp|Hp].
  - rewrite decide_False by tauto. reflexivity.
  - destruct (decide (v = u)) as [->|Hne].
    + rewrite decide_True by tauto. apply lookup_insert_eq.
    + rewrite decide_False by tauto. now apply lookup_insert_ne.
Qed.

Lemma merge_day_breakdown (u : string) (st : MergeState) (day : ContributionDay)
    (d : string) :
  (merge_day u st day).2 !! d
  = if decide (date day = d)
    then Some (obj_set u (contributionCount day) (default ∅ (st.2 !! d)))
    else st.2 !! d.
Proof.
  destruct st as [m ucd]. unfold merge_day. cbn [snd].
  destruct (decide (date day = d)) as [<-|Hne].
  - rewrite lookup_alter_eq.
    destruct (ucd !! date day) as [inner|] eqn:Hd.
    + rewrite Hd. reflexivity.
    + rewrite lookup_insert_eq. reflexivity.
  - rewrite lookup_alter_ne by exact Hne.
    destruct (ucd !! date day); [reflexivity|]. now apply lookup_insert_ne.
Qed.

(** After the days of one account, the object of a date holds the count of
    the account's last day with that date under the account's name. *)
Lemma merge_days_breakdown (u : string) (days : list ContributionDay) (d : string) :
  forall st : MergeState,
    (fold_left (merge_day u) days st).2 !! d
    = match last_count d days with
      | Some c => Some (obj_set u c (default ∅ (st.2 !! d)))
      | None => st.2 !! d
      end.
Proof.
  induction days as [|day days IH]; intros st; [reflexivity|].
  cbn [fold_left last_count]. rewrite IH, merge_day_breakdown.
  destruct (last_count d days) as [c|];
    destruct (decide (date day = d)); try reflexivity.
  cbn [default from_option id]. now rewrite obj_set_twice.
Qed.

(** The value recorded for account [u] on date [d]. *)
Lemma merge_calendar_inner (v u : string) (cal : Calendar) (st : MergeState)
    (d : string) :
  default ∅ ((merge_calendar v st cal).2 !! d) !! u
  = match last_count d (calendar_days cal) with
    | Some c =>
        if decide (v = u /\ v <> "__proto__") then Some c
        else default ∅ (st.2 !! d) !! u
    | None => default ∅ (st.2 !! d) !! u
    end.
Proof.
  rewrite merge_calendar_flat, merge_days_breakdown.
  destruct (last_count d (calendar_days cal)); [|reflexivity].
  cbn [default from_option id]. apply obj_set_lookup.
Qed.

Lemma merge_all_app (usernames : list string) (l1 l2 : list Calendar) :
  forall (idx : nat) (st : MergeState),
    merge_all usernames idx (l1 ++ l2) st
    = merge_all usernames (idx + length l1) l2 (merge_all usernames idx l1 st).
Proof.
  induction l1 as [|cal l1 IH]; intros idx st; cbn [merge_all app length].
  - now rewrite Nat.add_0_r.
  - rewrite IH. f_equal. lia.
Qed.

(** Series merged under other names leave the entries of [u] alone. *)
Lemma merge_all_other_names (usernames : list string) (u d : string)
    (l : list Calendar) :
  forall (idx : nat) (st : MergeState),
    (forall j, (idx <= j < idx + length l)%nat -> username_at usernames j <> u) ->
    default ∅ ((merge_all usernames idx l st).2 !! d) !! u
    = default ∅ (st.2 !! d) !! u.
Proof.
  induction l as [|cal l IH]; intros idx st Hnames; [reflexivity|].
  cbn [merge_all]. rewrite IH.
  - rewrite merge_calendar_inner.
    destruct (last_count d (calendar_days cal)); [|reflexivity].
    rewrite decide_False; [reflexivity|].
    intros [Heq _]. apply (Hnames idx); [cbn [length]; lia | exact Heq].
  - intros j Hj. apply Hnames. cbn [length]. lia.
Qed.

Lemma other_position_other_name (usernames : list string) (i j : nat) (u : string) :
  NoDup usernames -> usernames !! i = Some u ->
  (j < length usernames)%nat -> j <> i ->
  username_at usernames j <> u.
Proof.
  intros Hnd Hi Hj Hne Heq. unfold username_at in Heq.
  apply lookup_lt_is_Some in Hj as [v Hv].
  rewrite (nth_lookup_Some _ _ _ _ Hv) in Heq. subst v.
  apply Hne. exact (NoDup_lookup _ _ _ _ Hnd Hv Hi).
Qed.

Lemma breakdown_lookup (dataArray : list Calendar) (usernames : list string)
    (i : nat) (cal : Calendar) (u d : string) :
  NoDup usernames -> length usernames = length dataArray ->
  u <> "__proto__" ->
  dataArray !! i = Some cal -> usernames !! i = Some u ->
  default ∅ ((merge_all usernames 0 dataArray (∅, ∅)).2 !! d) !! u
  = last_count d (calendar_days cal).
Proof.
  intros Hnd Hlen Hproto Hcal Hu.
  pose proof (lookup_lt_Some _ _ _ Hcal) as Hi.
  rewrite <- (take_drop_middle _ _ _ Hcal) in Hlen |- *.
  rewrite merge_all_app. cbn [merge_all].
  assert (Hpre : length (take i dataArray) = i) by (rewrite length_take; lia).
  rewrite Hpre, Nat.add_0_l.
  rewrite length_app in Hlen. cbn [length] in Hlen. rewrite Hpre in Hlen.
  rewrite merge_all_other_names.
  2: { intros j Hj. apply (other_position_other_name _ i); auto; lia. }
  rewrite merge_calendar_inner.
  replace (username_at usernames i) with u
    by (symmetry; apply nth_lookup_Some, Hu).
  rewrite merge_all_other_names.
  2: { intros j Hj. apply (other_position_other_name _ i); auto; lia. }
  cbn [snd]. rewrite lookup_empty. cbn [default from_option id].
  rewrite lookup_empty.
  destruct (last_count d (calendar_days cal)); [|reflexivity].
  rewrite decide_True by tauto. reflexivity.
Qed.

Lemma last_count_not_in (d : string) (days : list ContributionDay) :
  d ∉ map date days -> last_count d days = None.
Proof.
  induction days as [|day days IH]; intros Hnot; [reflexivity|].
  cbn [last_count map] in *. apply not_elem_of_cons in Hnot as [Hne Hnot].
  rewrite (IH Hnot). rewrite decide_False by congruence. reflexivity.
Qed.

(** With each date at most once, the counts a date carries are the count
    of its one day. *)
Lemma date_total_last_count (d : string) (days : list ContributionDay) :
  NoDup (map date days) -> date_total d days = default 0 (last_count d days).
Proof.
  induction days as [|day days IH]; intros Hnd; [reflexivity|].
  cbn [map] in Hnd. apply NoDup_cons in Hnd as [Hnot Hnd].
  rewrite date_total_cons. cbn [last_count]. rewrite (IH Hnd).
  destruct (decide (date day = d)) as [<-|Hne].
  - rewrite (last_count_not_in _ _ Hnot). cbn. lia.
  - destruct (last_count d days); cbn; lia.
Qed.

(** Every merged count is the sum, over the input series, of all counts
    the series carries on the date. *)
Lemma merged_count_total (dataArray : list Calendar) (usernames : list string)
    (merged : Merged) (mday : MergedDay) :
  mergeContributions dataArray usernames = Some merged ->
  mday ∈ merged_days (mergedWeeks merged) ->
  mcount mday
  = sum_Z (map (fun cal => date_total (mdate mday) (calendar_days cal)) dataArray).
Proof.
  unfold mergeContributions. destruct dataArray as [|template rest]; [discriminate|].
  intros [= <-]. cbn [mergedWeeks]. rewrite template_walk_closed. cbn [snd].
  intros Hin. unfold merged_days in Hin. rewrite map_map in Hin.
  apply list_elem_of_In, in_concat in Hin as (days & Hdays & Hmday).
  apply in_map_iff in Hdays as (w & <- & _).
  cbn [mergedDays merged_week_of] in Hmday.
  apply in_map_iff in Hmday as (day & <- & _).
  cbn [mcount mdate merged_day_of].
  rewrite merge_all_lookup, merge_calendar_lookup. cbn [fst].
  rewrite lookup_empty, or0_None. unfold sum_Z. cbn [map fold_right]. lia.
Qed.

Lemma mergeContributions_breakdown (dataArray : list Calendar)
    (usernames : list string) (merged : Merged) :
  mergeContributions dataArray usernames = Some merged ->
  userContributions merged = (merge_all usernames 0 dataArray (∅, ∅)).2.
Proof.
  unfold mergeContributions. destruct dataArray; [discriminate|].
  intros [= <-]. reflexivity.
Qed.

(** X1. Per-account breakdown: when the accounts have distinct names, the
    breakdown of a date holds, under the name of an account, the count of
    that account's last day with the date, and nothing when the account
    has no such day. *)
Theorem X1_breakdown_per_account (dataArray : list Calendar)
    (usernames : list string) (merged : Merged) (i : nat) (cal : Calendar)
    (u d : string) :
  mergeContributions dataArray usernames = Some merged ->
  NoDup usernames -> length usernames = length dataArray ->
  u <> "__proto__" ->
  dataArray !! i = Some cal -> usernames !! i = Some u ->
  userContribs_of merged d !! u = last_count d (calendar_days cal)
  /\ (d ∉ calendar_dates cal -> userContribs_of merged d !! u = None).
Proof.
  intros Hmerge Hnd Hlen Hproto Hcal Hu.
  assert (Hlook : userContribs_of merged d !! u = last_count d (calendar_days cal)).
  { unfold userContribs_of.
    rewrite (mergeContributions_breakdown _ _ _ Hmerge).
    now apply breakdown_lookup with (i := i). }
  split; [exact Hlook|].
  intros Hnot. rewrite Hlook. now apply last_count_not_in.
Qed.

Lemma X1_breakdown_per_account_witness :
  exists merged,
    mergeContributions [calA; calB] ["alice"; "bob"] = Some merged
    /\ userContribs_of merged "2024-06-01" !! "bob" = Some 7
    /\ userContribs_of merged "2024-06-02" !! "bob" = None.
Proof.
  eexists. split; [reflexivity|].
  destruct (X1_breakdown_per_account [calA; calB] ["alice"; "bob"] _ 1%nat calB
              "bob" "2024-06-01" eq_refl) as [H1 _];
    try reflexivity; try discriminate.
  { apply (bool_decide_unpack _). vm_compute. exact I. }
  destruct (X1_breakdown_per_account [calA; calB] ["alice"; "bob"] _ 1%nat calB
              "bob" "2024-06-02" eq_refl) as [_ H2];
    try reflexivity; try discriminate.
  { apply (bool_decide_unpack _). vm_compute. exact I. }
  split; [rewrite H1; reflexivity|].
  apply H2. apply (bool_decide_unpack _). vm_compute. exact I.
Defined.

(** X2. The breakdown adds up: with distinct account names and each date
    at most once per series, the count of every merged day is the sum of
    the breakdown values of its date over the accounts (0 for an account
    without a value), which is what the tooltip of the cell lists. *)
Theorem X2_breakdown_adds_up (dataArray : list Calendar)
    (usernames : list string) (merged : Merged) :
  mergeContributions dataArray usernames = Some merged ->
  NoDup usernames -> length usernames = length dataArray ->
  "__proto__" ∉ usernames ->
  Forall dates_once dataArray ->
  Forall (fun mday =>
            mcount mday
            = sum_Z (map (fun u =>
                            default 0 (userContribs_of merged (mdate mday) !! u))
                         usernames))
         (merged_days (mergedWeeks merged)).
Proof.
  intros Hmerge Hnd Hlen Hproto Honce. apply Forall_forall. intros mday Hin.
  rewrite (merged_count_total _ _ _ _ Hmerge Hin). f_equal.
  apply list_eq. intros i. rewrite !list_lookup_fmap.
  destruct (dataArray !! i) as [cal|] eqn:Hcal.
  - assert (Hi : (i < length usernames)%nat)
      by (rewrite Hlen; now apply lookup_lt_Some in Hcal).
    apply lookup_lt_is_Some in Hi as [u Hu]. rewrite Hu. cbn [fmap option_fmap option_map].
    f_equal. unfold userContribs_of.
    rewrite (mergeContributions_breakdown _ _ _ Hmerge).
    rewrite (breakdown_lookup dataArray usernames i cal u); auto.
    + apply date_total_last_count.
      rewrite Forall_forall in Honce. apply Honce.
      apply list_elem_of_lookup. now exists i.
    + intros ->. apply Hproto. apply list_elem_of_lookup. now exists i.
  - apply lookup_ge_None in Hcal. rewrite <- Hlen in Hcal.
    apply lookup_ge_None in Hcal. rewrite Hcal. reflexivity.
Qed.

Lemma X2_breakdown_adds_up_witness :
  exists merged,
    mergeContributions [calA; calB] ["alice"; "bob"] = Some merged
    /\ Forall (fun mday =>
                 mcount mday
                 = sum_Z (map (fun u =>
                                 default 0
                                   (userContribs_of merged (mdate mday) !! u))
                              ["alice"; "bob"]))
              (merged_days (mergedWeeks merged)).
Proof.
  eexists. split; [reflexivity|].
  apply (X2_breakdown_adds_up [calA; calB] ["alice"; "bob"] _ eq_refl).
  - apply (bool_decide_unpack _). vm_compute. exact I.
  - reflexivity.
  - apply (bool_decide_unpack _). vm_compute. exact I.
  - apply List.Forall_cons; [|apply List.Forall_cons; [|apply List.Forall_nil]];
      unfold dates_once; apply (bool_decide_unpack _); vm_compute; exact I.
Defined.

(** ** Levels *)

Lemma merged_days_closed (m : gmap string Z) (template : Calendar) :
  merged_days (map (merged_week_of m) (weeks template))
  = map (merged_day_of m) (calendar_days template).
Proof.
  unfold merged_days, calendar_days.
  induction (weeks template) as [|w ws IH]; [reflexivity|].
  cbn [map concat]. rewrite IH, map_app. reflexivity.
Qed.

Lemma merged_total_is_sum (dataArray : list Calendar) (usernames : list string)
    (merged : Merged) :
  mergeContributions dataArray usernames = Some merged ->
  totalContributions merged = sum_merged_counts (mergedWeeks merged).
Proof.
  unfold mergeContributions. destruct dataArray; [discriminate|].
  intros [= <-]. cbn [totalContributions mergedWeeks].
  now rewrite template_walk_closed.
Qed.

(** X3. Every merged day carries the level of its own count; and when no
    input count is negative, no merged count and no total is. *)
Theorem X3_merged_days_well_formed (dataArray : list Calendar)
    (usernames : list string) (merged : Merged) :
  mergeContributions dataArray usernames = Some merged ->
  Forall (fun mday => contributionLevel mday = getLevel (mcount mday))
         (merged_days (mergedWeeks merged))
  /\ (Forall (fun cal =>
                Forall (fun day => 0 <= contributionCount day) (calendar_days cal))
             dataArray ->
      Forall (fun mday => 0 <= mcount mday) (merged_days (mergedWeeks merged))
      /\ 0 <= totalContributions merged).
Proof.
  intros Hmerge.
  assert (Hlevels :
    Forall (fun mday => contributionLevel mday = getLevel (mcount mday))
           (merged_days (mergedWeeks merged))).
  { revert Hmerge. unfold mergeContributions.
    destruct dataArray as [|template rest]; [discriminate|].
    intros [= <-]. cbn [mergedWeeks]. rewrite template_walk_closed. cbn [snd].
    rewrite merged_days_closed. apply Forall_forall. intros mday Hin.
    apply list_elem_of_In, in_map_iff in Hin as (day & <- & _). reflexivity. }
  split; [exact Hlevels|]. intros Hnonneg.
  assert (Hdays : Forall (fun mday => 0 <= mcount mday)
                         (merged_days (mergedWeeks merged))).
  { apply Forall_forall. intros mday Hin.
    rewrite (merged_count_total _ _ _ _ Hmerge Hin).
    clear Hmerge Hin Hlevels. induction Hnonneg as [|cal cals Hcal _ IH]; [cbn; lia|].
    cbn [map]. unfold sum_Z in *. cbn [fold_right].
    assert (0 <= date_total (mdate mday) (calendar_days cal)); [|lia].
    clear IH. induction Hcal as [|day days Hday _ IHd]; [cbn; lia|].
    rewrite date_total_cons. destruct (decide _); lia. }
  split; [exact Hdays|].
  rewrite (merged_total_is_sum _ _ _ Hmerge).
  unfold sum_merged_counts. clear Hlevels Hmerge.
  induction Hdays as [|mday mdays Hm _ IH]; [cbn; lia|].
  cbn [map]. unfold sum_Z in *. cbn [fold_right]. lia.
Qed.

Lemma X3_merged_days_well_formed_witness :
  exists merged,
    mergeContributions [calA; calB] ["alice"; "bob"] = Some merged
    /\ Forall (fun mday => contributionLevel mday = getLevel (mcount mday))
              (merged_days (mergedWeeks merged))
    /\ 0 <= totalContributions merged.
Proof.
  eexists. split; [reflexivity|].
  destruct (X3_merged_days_well_formed [calA; calB] ["alice"; "bob"] _ eq_refl)
    as [Hlevels Hnonneg].
  split; [exact Hlevels|]. apply Hnonneg.
  repeat (apply List.Forall_cons || apply List.Forall_nil); cbn; lia.
Defined.

(** X4. On non-negative counts the level never decreases when the count
    grows; a negative count, which is below 5 and not 0, gets
    FIRST_QUARTILE. *)
Theorem X4_getLevel_monotone (c1 c2 : Z) :
  (0 <= c1 <= c2 -> level_rank (getLevel c1) <= level_rank (getLevel c2))
  /\ (c1 < 0 -> getLevel c1 = FIRST_QUARTILE).
Proof.
  unfold getLevel. split; intros H.
  - destruct (Z.eqb_spec c1 0), (Z.eqb_spec c2 0),
      (Z.ltb_spec c1 5), (Z.ltb_spec c2 5),
      (Z.ltb_spec c1 10), (Z.ltb_spec c2 10),
      (Z.ltb_spec c1 20), (Z.ltb_spec c2 20); cbn; lia.
  - destruct (Z.eqb_spec c1 0); [lia|].
    destruct (Z.ltb_spec c1 5); [reflexivity|lia].
Qed.

Lemma X4_getLevel_monotone_witness :
  level_rank (getLevel 4) <= level_rank (getLevel 12)
  /\ getLevel (-3) = FIRST_QUARTILE.
Proof.
  destruct (X4_getLevel_monotone 4 12) as [Hmono _].
  destruct (X4_getLevel_monotone (-3) 0) as [_ Hneg].
  split; [apply Hmono; lia | apply Hneg; lia].
Defined.

(** ** Totals *)

Lemma sum_Z_map_add {A : Type} (f g : A -> Z) (l : list A) :
  sum_Z (map (fun x => f x + g x) l) = sum_Z (map f l) + sum_Z (map g l).
Proof.
  unfold sum_Z. induction l as [|x l IH]; cbn [map fold_right]; lia.
Qed.

Lemma sum_Z_swap {A B : Type} (f : A -> B -> Z) (la : list A) (lb : list B) :
  sum_Z (map (fun a => sum_Z (map (fun b => f a b) lb)) la)
  = sum_Z (map (fun b => sum_Z (map (fun a => f a b) la)) lb).
Proof.
  induction la as [|a la IH].
  - induction lb as [|b lb IHb]; cbn in *; [reflexivity | exact IHb].
  - cbn [map]. change (sum_Z (?x :: ?l)) with (x + sum_Z l). rewrite IH.
    rewrite <- sum_Z_map_add. reflexivity.
Qed.

(** One unit placed on the date of a day, summed over dates without
    repetition, is counted once when the date is among them. *)
Lemma sum_Z_indicator (x : string) (c : Z) (dates : list string) :
  NoDup dates -> x ∈ dates ->
  sum_Z (map (fun d => if decide (x = d) then c else 0) dates) = c.
Proof.
  induction dates as [|d dates IH]; intros Hnd Hin; [now apply elem_of_nil in Hin|].
  apply NoDup_cons in Hnd as [Hnot Hnd]. cbn [map].
  change (sum_Z (?y :: ?l)) with (y + sum_Z l).
  destruct (decide (x = d)) as [->|Hne].
  - assert (Hzero : sum_Z (map (fun d0 => if decide (d = d0) then c else 0) dates) = 0).
    { clear IH Hnd Hin. induction dates as [|d0 dates IH]; [reflexivity|].
      apply not_elem_of_cons in Hnot as [Hne Hnot]. cbn [map].
      change (sum_Z (?y :: ?l)) with (y + sum_Z l).
      rewrite decide_False by exact Hne. rewrite (IH Hnot). lia. }
    lia.
  - apply elem_of_cons in Hin as [Heq|Hin]; [contradiction|].
    rewrite (IH Hnd Hin). lia.
Qed.

(** Summed over dates without repetition that cover a list of days, the
    counts carried by the dates are all the counts of the list. *)
Lemma date_total_over_dates (dates : list string) (days : list ContributionDay) :
  NoDup dates -> Forall (fun day => date day ∈ dates) days ->
  sum_Z (map (fun d => date_total d days) dates)
  = sum_Z (map contributionCount days).
Proof.
  intros Hnd Hcover. induction Hcover as [|day days Hday _ IH].
  - clear Hnd. induction dates as [|d dates IHd]; cbn in *;
      [reflexivity | exact IHd].
  - cbn [map]. change (sum_Z (?y :: ?l)) with (y + sum_Z l). rewrite <- IH.
    rewrite <- (sum_Z_indicator (date day) (contributionCount day) dates Hnd Hday).
    rewrite <- sum_Z_map_add. f_equal. apply map_ext. intros d.
    apply date_total_cons.
Qed.

Lemma merged_counts_closed (m : gmap string Z) (template : Calendar) :
  sum_merged_counts (map (merged_week_of m) (weeks template))
  = sum_Z (map (fun d => or0 (m !! d)) (calendar_dates template)).
Proof.
  unfold sum_merged_counts, calendar_dates.
  rewrite merged_days_closed, !map_map. reflexivity.
Qed.

(** X5. The total is, summed over the input series, what each series
    carries on the dates of the first one (each template date taken as
    often as the template has it); so when the first series has each date
    once and the other series have no other dates, the total is the sum of
    all counts of all series: nothing is lost and nothing counted twice. *)
Theorem X5_total_of_inputs (template : Calendar) (rest : list Calendar)
    (usernames : list string) (merged : Merged) :
  mergeContributions (template :: rest) usernames = Some merged ->
  totalContributions merged
  = sum_Z (map (fun cal =>
                  sum_Z (map (fun d => date_total d (calendar_days cal))
                             (calendar_dates template)))
               (template :: rest))
  /\ (dates_once template ->
      Forall (fun cal =>
                Forall (fun day => date day ∈ calendar_dates template)
                       (calendar_days cal))
             rest ->
      totalContributions merged = sum_Z (map calendar_total (template :: rest))).
Proof.
  intros Hmerge.
  assert (Htotal :
    totalContributions merged
    = sum_Z (map (fun cal =>
                    sum_Z (map (fun d => date_total d (calendar_days cal))
                               (calendar_dates template)))
                 (template :: rest))).
  { revert Hmerge. unfold mergeContributions. intros [= <-].
    cbn [totalContributions]. rewrite template_walk_closed. cbn [fst].
    rewrite merged_counts_closed.
    rewrite <- (sum_Z_swap (fun d cal => date_total d (calendar_days cal))).
    f_equal. apply map_ext. intros d.
    change (merge_all usernames 1 rest
              (merge_calendar (username_at usernames 0) (∅, ∅) template))
      with (merge_all usernames 0 (template :: rest) (∅, ∅)).
    rewrite merge_all_lookup. cbn [fst]. rewrite lookup_empty, or0_None. lia. }
  split; [exact Htotal|]. intros Honce Hcover. rewrite Htotal.
  f_equal. apply map_ext_in. intros cal Hcal. unfold calendar_total.
  apply date_total_over_dates; [exact Honce|].
  destruct Hcal as [<-|Hcal].
  - apply Forall_forall. intros day Hday. unfold calendar_dates.
    now apply list_elem_of_fmap_2.
  - rewrite Forall_forall in Hcover. apply Hcover, list_elem_of_In, Hcal.
Qed.

Lemma X5_total_of_inputs_witness :
  exists merged,
    mergeContributions [calA; {| apiTotalContributions := 7;
                                 weeks := [ {| contributionDays :=
                                                 [ sample_day "2024-06-01" 7 ] |} ] |}]
                       ["alice"; "bob"]
    = Some merged
    /\ totalContributions merged = 10.
Proof.
  eexists. split; [reflexivity|].
  destruct (X5_total_of_inputs calA
              [ {| apiTotalContributions := 7;
                   weeks := [ {| contributionDays :=
                                   [ sample_day "2024-06-01" 7 ] |} ] |} ]
              ["alice"; "bob"] _ eq_refl) as [_ Hall].
  rewrite Hall; [reflexivity| |].
  - unfold dates_once. apply (bool_decide_unpack _). vm_compute. exact I.
  - repeat (apply List.Forall_cons || apply List.Forall_nil).
    apply (bool_decide_unpack _). vm_compute. exact I.
Defined.

(** ** The order of the other accounts *)

Lemma sum_Z_Permutation (l l' : list Z) : l ≡ₚ l' -> sum_Z l = sum_Z l'.
Proof.
  unfold sum_Z. induction 1; cbn [fold_right]; lia.
Qed.

Lemma template_walk_ext (m m' : gmap string Z) (template : Calendar) :
  (forall d, or0 (m !! d) = or0 (m' !! d)) ->
  template_walk m template = template_walk m' template.
Proof.
  intros Hext. rewrite !template_walk_closed.
  assert (Hweeks : map (merged_week_of m) (weeks template)
                   = map (merged_week_of m') (weeks template)).
  { apply map_ext. intros w. unfold merged_week_of. f_equal.
    apply map_ext. intros day. unfold merged_day_of. now rewrite Hext. }
  now rewrite Hweeks.
Qed.

(** X6. The merged weeks and the total depend on the first series and on
    the other series as a collection only: reordering the other series,
    under whatever account names, gives the same weeks and the same
    total. *)
Theorem X6_other_accounts_order (template : Calendar) (rest rest' : list Calendar)
    (usernames usernames' : list string) :
  rest ≡ₚ rest' ->
  exists merged merged',
    mergeContributions (template :: rest) usernames = Some merged
    /\ mergeContributions (template :: rest') usernames' = Some merged'
    /\ mergedWeeks merged = mergedWeeks merged'
    /\ totalContributions merged = totalContributions merged'.
Proof.
  intros Hperm. eexists _, _. split; [reflexivity|]. split; [reflexivity|].
  cbn [mergedWeeks totalContributions].
  assert (Hwalk :
    template_walk (merge_all usernames 0 (template :: rest) (∅, ∅)).1 template
    = template_walk (merge_all usernames' 0 (template :: rest') (∅, ∅)).1 template).
  { apply template_walk_ext. intros d. rewrite !merge_all_lookup.
    f_equal. apply sum_Z_Permutation. apply Permutation_map.
    now constructor. }
  split; [exact (f_equal snd Hwalk) | exact (f_equal fst Hwalk)].
Qed.

Lemma X6_other_accounts_order_witness :
  exists merged merged',
    mergeContributions [calA; calB; calA] ["alice"; "bob"; "carol"] = Some merged
    /\ mergeContributions [calA; calA; calB] ["alice"; "dave"] = Some merged'
    /\ mergedWeeks merged = mergedWeeks merged'
    /\ totalContributions merged = totalContributions merged'.
Proof.
  apply (X6_other_accounts_order calA [calB; calA] [calA; calB]).
  apply Permutation_swap.
Defined.

(** ** One account *)

Lemma date_total_not_in (d : string) (days : list ContributionDay) :
  d ∉ map date days -> date_total d days = 0.
Proof.
  induction days as [|day days IH]; intros Hnot; [reflexivity|].
  cbn [map] in Hnot. apply not_elem_of_cons in Hnot as [Hne Hnot].
  rewrite date_total_cons, (IH Hnot), decide_False by congruence. lia.
Qed.

Lemma date_total_member (day : ContributionDay) (days : list ContributionDay) :
  NoDup (map date days) -> day ∈ days ->
  date_total (date day) days = contributionCount day.
Proof.
  induction days as [|a days IH]; intros Hnd Hin; [now apply elem_of_nil in Hin|].
  cbn [map] in Hnd. apply NoDup_cons in Hnd as [Hnot Hnd].
  rewrite date_total_cons.
  apply elem_of_cons in Hin as [->|Hin].
  - rewrite decide_True by reflexivity. rewrite (date_total_not_in _ _ Hnot). lia.
  - rewrite decide_False.
    + rewrite (IH Hnd Hin). lia.
    + intros Heq. apply Hnot. rewrite Heq. now apply list_elem_of_fmap_2.
Qed.

(** X7. Merging a single series whose dates occur once gives that series
    back: the same dates with the same counts in the same order, and the
    sum of its counts as total.  This is the document of a request whose
    additional accounts were all dropped. *)
Theorem X7_single_account (cal : Calendar) (usernames : list string)
    (merged : Merged) :
  mergeContributions [cal] usernames = Some merged ->
  dates_once cal ->
  map (fun mday => (mdate mday, mcount mday)) (merged_days (mergedWeeks merged))
  = map (fun day => (date day, contributionCount day)) (calendar_days cal)
  /\ totalContributions merged = calendar_total cal.
Proof.
  intros Hmerge Honce.
  assert (Hdays :
    map (fun mday => (mdate mday, mcount mday)) (merged_days (mergedWeeks merged))
    = map (fun day => (date day, contributionCount day)) (calendar_days cal)).
  { revert Hmerge. unfold mergeContributions. intros [= <-].
    cbn [mergedWeeks]. rewrite template_walk_closed. cbn [snd].
    rewrite merged_days_closed, map_map. apply map_ext_in. intros day Hday.
    cbn [mdate mcount merged_day_of]. f_equal.
    cbn [merge_all]. rewrite merge_calendar_lookup. cbn [fst].
    rewrite lookup_empty, or0_None.
    rewrite (date_total_member day (calendar_days cal) Honce)
      by now apply list_elem_of_In.
    lia. }
  split; [exact Hdays|].
  rewrite (merged_total_is_sum _ _ _ Hmerge).
  unfold sum_merged_counts, calendar_total.
  replace (map mcount (merged_days (mergedWeeks merged)))
    with (map snd (map (fun mday => (mdate mday, mcount mday))
                       (merged_days (mergedWeeks merged))))
    by (rewrite map_map; reflexivity).
  rewrite Hdays, map_map. reflexivity.
Qed.

Lemma X7_single_account_witness :
  exists merged,
    mergeContributions [calA] ["alice"] = Some merged
    /\ map (fun mday => (mdate mday, mcount mday)) (merged_days (mergedWeeks merged))
       = [ ("2024-06-01", 3); ("2024-06-02", 0) ]
    /\ totalContributions merged = 3.
Proof.
  eexists. split; [reflexivity|].
  destruct (X7_single_account calA ["alice"] _ eq_refl) as [Hdays Htotal].
  - unfold dates_once. apply (bool_decide_unpack _). vm_compute. exact I.
  - split; [rewrite Hdays; reflexivity | rewrite Htotal; reflexivity].
Defined.

(** ** More on escaping *)

Lemma escapeXml_app (a b : string) :
  escapeXml (a +:+ b) = escapeXml a +:+ escapeXml b.
Proof.
  induction a as [|c a IH]; [reflexivity|].
  rewrite sapp_cons. cbn [escapeXml]. rewrite IH, sapp_assoc. reflexivity.
Qed.

Lemma slength_app (a b : string) :
  String.length (a +:+ b) = (String.length a + String.length b)%nat.
Proof.
  induction a as [|c a IH]; [reflexivity|].
  rewrite sapp_cons. cbn [String.length]. now rewrite IH.
Qed.

Lemma escape_char_length (c : ascii) :
  (1 <= String.length (escape_char c) <= 6)%nat
  /\ (is_markup_char c = true -> (4 <= String.length (escape_char c))%nat).
Proof.
  unfold escape_char, is_markup_char.
  markup_cases c; cbn; split; try lia; intros; try lia; discriminate.
Qed.

Lemma escapeXml_length (s : string) :
  (String.length s <= String.length (escapeXml s) <= 6 * String.length s)%nat.
Proof.
  induction s as [|c s IH]; [cbn; lia|].
  cbn [escapeXml]. rewrite slength_app. cbn [String.length].
  destruct (escape_char_length c) as [Hc _]. lia.
Qed.

(** X8. Escaping works character by character: escaping a concatenation
    is concatenating the escaped parts, two different texts never escape
    to the same text, and the escaped text is at least as long as the
    text and at most six times as long. *)
Theorem X8_escapeXml_structure :
  (forall a b, escapeXml (a +:+ b) = escapeXml a +:+ escapeXml b)
  /\ (forall a b, escapeXml a = escapeXml b -> a = b)
  /\ (forall s, (String.length s <= String.length (escapeXml s)
                 <= 6 * String.length s)%nat).
Proof.
  split; [exact escapeXml_app|]. split; [|exact escapeXml_length].
  intros a b Heq. rewrite <- (unescapeXml_escapeXml a), Heq.
  apply unescapeXml_escapeXml.
Qed.

(** X9. A text is left unchanged by escaping exactly when it holds none
    of the five characters; so escaping an already escaped text changes it
    again as soon as the text held one of them. *)
Theorem X9_escapeXml_fixed_points (s : string) :
  (escapeXml s = s <-> markup_free s = true)
  /\ (markup_free s = false -> escapeXml (escapeXml s) <> escapeXml s).
Proof.
  assert (Hfix : forall t, escapeXml t = t <-> markup_free t = true).
  { induction t as [|c t IH]; [split; reflexivity|].
    cbn [escapeXml markup_free all_chars].
    destruct (is_markup_char c) eqn:Hc; cbn [negb andb].
    - split; [|discriminate]. intros Heq.
      apply (f_equal String.length) in Heq.
      rewrite slength_app in Heq. cbn [String.length] in Heq.
      destruct (escape_char_length c) as [_ Hlong].
      pose proof (Hlong Hc). pose proof (escapeXml_length t). lia.
    - rewrite (escape_char_plain _ Hc), sapp_cons.
      change (EmptyString +:+ escapeXml t) with (escapeXml t).
      fold (markup_free t). rewrite <- IH. split; [now intros [= ->]|].
      now intros ->. }
  split; [apply Hfix|].
  intros Hdirty Heq.
  assert (Hin : escapeXml (escapeXml s) = escapeXml s -> escapeXml s = s).
  { intros H. rewrite <- (unescapeXml_escapeXml (escapeXml s)), H.
    apply unescapeXml_escapeXml. }
  apply Hin, Hfix in Heq. congruence.
Qed.

Lemma X9_escapeXml_fixed_points_witness :
  escapeXml "octo-cat" = "octo-cat"
  /\ escapeXml (escapeXml "a&b") <> escapeXml "a&b".
Proof.
  destruct (X9_escapeXml_fixed_points "octo-cat") as [[_ Hclean] _].
  destruct (X9_escapeXml_fixed_points "a&b") as [_ Hdirty].
  split; [apply Hclean; reflexivity | apply Hdirty; reflexivity].
Defined.

Lemma X8_escapeXml_structure_witness :
  escapeXml ("a<" +:+ "b>") = "a&lt;" +:+ "b&gt;"
  /\ "a<b" = "a<b".
Proof.
  destruct X8_escapeXml_structure as (Happ & Hinj & _).
  split; [rewrite Happ; reflexivity | apply Hinj; reflexivity].
Defined.

(** ** Splitting at commas and trimming *)

Lemma split_comma_nonempty (s : string) : split_comma s <> [].
Proof.
  destruct s as [|c s]; [discriminate|]. cbn [split_comma].
  destruct (Ascii.eqb c ","%char); [discriminate|].
  destruct (split_comma s); discriminate.
Qed.

Lemma join_cons_char (sep : string) (c : ascii) (piece : string) (l : list string) :
  join sep (String c piece :: l) = String c (join sep (piece :: l)).
Proof. destruct l; reflexivity. Qed.

Lemma join_split_comma (s : string) : join "," (split_comma s) = s.
Proof.
  induction s as [|c s IH]; [reflexivity|]. cbn [split_comma].
  destruct (Ascii.eqb_spec c ","%char) as [->|Hc].
  - destruct (split_comma s) as [|x xs] eqn:Hs; [now apply split_comma_nonempty in Hs|].
    rewrite join_cons_cons, IH. reflexivity.
  - destruct (split_comma s) as [|x xs] eqn:Hs; [now apply split_comma_nonempty in Hs|].
    rewrite join_cons_char, IH. reflexivity.
Qed.

Lemma split_comma_pieces (s : string) :
  Forall (fun piece => comma_free piece = true) (split_comma s).
Proof.
  induction s as [|c s IH]; [repeat constructor|]. cbn [split_comma].
  destruct (Ascii.eqb c ","%char) eqn:Hc.
  - constructor; [reflexivity | exact IH].
  - destruct (split_comma s) as [|x xs]; [repeat constructor; cbn; now rewrite Hc|].
    apply Forall_cons in IH as [Hx Hxs]. constructor; [|exact Hxs].
    unfold comma_free in *. cbn [all_chars]. now rewrite Hc, Hx.
Qed.

Lemma split_comma_free (x : string) :
  comma_free x = true -> split_comma x = [x].
Proof.
  unfold comma_free. induction x as [|c x IH]; [reflexivity|].
  cbn [all_chars split_comma]. intros H. apply andb_prop in H as [Hc Hx].
  apply negb_true_iff in Hc. rewrite Hc, (IH Hx). reflexivity.
Qed.

Lemma split_comma_app (x rest : string) :
  comma_free x = true ->
  split_comma (x +:+ "," +:+ rest) = x :: split_comma rest.
Proof.
  unfold comma_free. induction x as [|c x IH]; [reflexivity|].
  cbn [all_chars]. intros H. apply andb_prop in H as [Hc Hx].
  apply negb_true_iff in Hc. rewrite sapp_cons. cbn [split_comma].
  rewrite Hc, (IH Hx). reflexivity.
Qed.

(** X10. Splitting at commas and joining with commas undo each other:
    joining the pieces of a text gives the text back, the pieces hold no
    comma, and a non-empty list of comma-free pieces is what splitting
    their joined text returns.  An empty text splits into one empty
    piece. *)
Theorem X10_split_join :
  (forall s, join "," (split_comma s) = s)
  /\ (forall s, Forall (fun piece => comma_free piece = true) (split_comma s))
  /\ (forall first others,
        Forall (fun piece => comma_free piece = true) (first :: others) ->
        split_comma (join "," (first :: others)) = first :: others)
  /\ split_comma EmptyString = [EmptyString].
Proof.
  split; [exact join_split_comma|]. split; [exact split_comma_pieces|].
  split; [|reflexivity].
  intros first others. revert first.
  induction others as [|x others IH]; intros first Hfree.
  - apply Forall_cons in Hfree as [Hfirst _]. now apply split_comma_free.
  - apply Forall_cons in Hfree as [Hfirst Hothers].
    rewrite join_cons_cons, split_comma_app by exact Hfirst.
    now rewrite IH.
Qed.

Lemma X10_split_join_witness :
  split_comma (join "," ["bob"; " carol "; EmptyString])
  = ["bob"; " carol "; EmptyString].
Proof.
  destruct X10_split_join as (_ & _ & Hsplit & _).
  apply Hsplit. repeat constructor.
Defined.

Lemma trimStart_trimmed_start (s : string) :
  trimStart s = EmptyString \/ starts_nonspace (trimStart s) = true.
Proof.
  induction s as [|c s IH]; [now left|]. cbn [trimStart].
  destruct (is_js_space c) eqn:Hc; [exact IH|].
  right. cbn [starts_nonspace]. now rewrite Hc.
Qed.

Lemma trimEnd_trimmed_end (s : string) :
  trimEnd s = EmptyString \/ ends_nonspace (trimEnd s) = true.
Proof.
  induction s as [|c s IH]; [now left|]. cbn [trimEnd].
  destruct (trimEnd s) as [|c' kept].
  - destruct (is_js_space c) eqn:Hc; [now left|].
    right. cbn [ends_nonspace]. now rewrite Hc.
  - right. destruct IH as [IH|IH]; [discriminate IH | exact IH].
Qed.

Lemma trimEnd_keeps_start (s : string) :
  starts_nonspace s = true -> starts_nonspace (trimEnd s) = true.
Proof.
  destruct s as [|c s]; [discriminate|]. cbn [starts_nonspace trimEnd].
  intros Hc. destruct (trimEnd s).
  - destruct (is_js_space c) eqn:Hsp; [discriminate Hc|].
    cbn [starts_nonspace]. now rewrite Hsp.
  - exact Hc.
Qed.

Lemma trim_trimmed (s : string) : trimmed (trim s).
Proof.
  unfold trimmed, trim.
  destruct (trimStart_trimmed_start s) as [->|Hstart]; [now left|].
  right. pose proof (trimEnd_keeps_start _ Hstart) as Hkept.
  split; [exact Hkept|].
  destruct (trimEnd_trimmed_end (trimStart s)) as [Hnil|Hend]; [|exact Hend].
  rewrite Hnil in Hkept. discriminate Hkept.
Qed.

Lemma trim_of_trimmed (s : string) : trimmed s -> trim s = s.
Proof.
  intros [->|[Hstart Hend]]; [reflexivity|]. unfold trim.
  rewrite trimStart_starts_nonspace by exact Hstart.
  now apply trimEnd_ends_nonspace.
Qed.

(** X11. Trimming leaves a text that is empty or begins and ends with a
    visible character; it changes nothing on such a text, so trimming
    twice is trimming once. *)
Theorem X11_trim (s : string) :
  trimmed (trim s)
  /\ (trimmed s -> trim s = s)
  /\ trim (trim s) = trim s.
Proof.
  split; [apply trim_trimmed|]. split; [apply trim_of_trimmed|].
  apply trim_of_trimmed, trim_trimmed.
Qed.

Lemma X11_trim_witness :
  trim "octo cat" = "octo cat" /\ trim (trim "  octo cat  ") = trim "  octo cat  ".
Proof.
  destruct (X11_trim "octo cat") as (_ & Hfixed & _).
  destruct (X11_trim "  octo cat  ") as (_ & _ & Htwice).
  split; [apply Hfixed; right; split; reflexivity | exact Htwice].
Defined.

Lemma all_chars_trimStart (test : ascii -> bool) (s : string) :
  all_chars test s = true -> all_chars test (trimStart s) = true.
Proof.
  induction s as [|c s IH]; [reflexivity|]. cbn [trimStart].
  destruct (is_js_space c); [|tauto].
  cbn [all_chars]. intros H. apply andb_prop in H as [_ H]. now apply IH.
Qed.

Lemma all_chars_trimEnd (test : ascii -> bool) (s : string) :
  all_chars test s = true -> all_chars test (trimEnd s) = true.
Proof.
  induction s as [|c s IH]; [reflexivity|]. cbn [trimEnd all_chars].
  intros H. apply andb_prop in H as [Hc Hs]. specialize (IH Hs).
  destruct (trimEnd s).
  - destruct (is_js_space c); [reflexivity|]. cbn [all_chars]. now rewrite Hc.
  - cbn [all_chars] in *. now rewrite Hc, IH.
Qed.

(** X12. The additional users read from the merge parameter are never
    empty, never the primary user, hold no comma and begin and end with a
    visible character; without the parameter, or with an empty one, there
    are none. *)
Theorem X12_additional_users (mergeParam : option string) (primaryUser : string) :
  Forall (fun u =>
            u <> EmptyString /\ u <> primaryUser /\ comma_free u = true
            /\ starts_nonspace u = true /\ ends_nonspace u = true)
         (parse_additional_users mergeParam primaryUser)
  /\ (truthy mergeParam = None -> parse_additional_users mergeParam primaryUser = []).
Proof.
  unfold parse_additional_users. split.
  - destruct (truthy mergeParam) as [text|]; [|constructor].
    apply Forall_forall. intros u Hu.
    apply list_elem_of_filter in Hu as [[Hne Hprimary] Hin].
    apply list_elem_of_In, in_map_iff in Hin as (piece & <- & Hpiece).
    split; [exact Hne|]. split; [exact Hprimary|]. split.
    + unfold comma_free, trim. apply all_chars_trimEnd, all_chars_trimStart.
      pose proof (split_comma_pieces text) as Hfree.
      rewrite Forall_forall in Hfree. apply Hfree, list_elem_of_In, Hpiece.
    + destruct (trim_trimmed piece) as [Hnil|Hends]; [contradiction | exact Hends].
  - intros ->. reflexivity.
Qed.

Lemma X12_additional_users_witness :
  parse_additional_users (Some EmptyString) "alice" = []
  /\ Forall (fun u => u <> "alice" /\ comma_free u = true)
            (parse_additional_users (Some " bob , alice,, carol") "alice").
Proof.
  destruct (X12_additional_users (Some EmptyString) "alice") as [_ Hnone].
  destruct (X12_additional_users (Some " bob , alice,, carol") "alice") as [Hall _].
  split; [apply Hnone; reflexivity|].
  eapply Forall_impl; [exact Hall|]. intros u (_ & Hp & Hc & _). now split.
Defined.

(** ** Reading back a printed integer *)

Lemma small_N_cases (y : N) :
  (y < 10)%N ->
  y = 0%N \/ y = 1%N \/ y = 2%N \/ y = 3%N \/ y = 4%N \/ y = 5%N
  \/ y = 6%N \/ y = 7%N \/ y = 8%N \/ y = 9%N.
Proof. lia. Qed.

Lemma digit_value_pretty_char (y : N) :
  (y < 10)%N -> digit_value 10 (pretty_N_char y) = Some (Z.of_N y).
Proof.
  intros Hy.
  destruct (small_N_cases y Hy) as [->|[->|[->|[->|[->|[->|[->|[->|[->| ->]]]]]]]]];
    reflexivity.
Qed.

(** The digits [pretty_N_go] puts in front of a text read as the number. *)
Lemma read_digits_pretty_N_go (x : N) :
  forall s, (0 < x)%N ->
    read_digits 10 (pretty_N_go x s) None = read_digits 10 s (Some (Z.of_N x)).
Proof.
  induction (N.lt_wf_0 x) as [x _ IH]. intros s Hx.
  rewrite pretty_N_go_step by exact Hx.
  assert (Hmod : (x `mod` 10 < 10)%N) by (apply N.mod_lt; lia).
  destruct (decide (x `div` 10 = 0)%N) as [Hzero|Hpos].
  - rewrite Hzero, pretty_N_go_0. cbn [read_digits].
    rewrite (digit_value_pretty_char _ Hmod). cbn [default from_option id].
    do 2 f_equal.
    assert (x = 10 * (x `div` 10) + x `mod` 10)%N
      by (apply N.div_mod; discriminate).
    lia.
  - rewrite IH; [|apply N.div_lt; lia|now apply N.neq_0_lt_0]. cbn [read_digits].
    rewrite (digit_value_pretty_char _ Hmod). cbn [default from_option id].
    do 2 f_equal.
    assert (x = 10 * (x `div` 10) + x `mod` 10)%N
      by (apply N.div_mod; discriminate).
    lia.
Qed.

Lemma digits_only_pretty_N_go (x : N) :
  forall s, digits_only s = true -> digits_only (pretty_N_go x s) = true.
Proof.
  induction (N.lt_wf_0 x) as [x _ IH]. intros s Hs.
  destruct (decide (0 < x)%N) as [Hx|Hx].
  - rewrite pretty_N_go_step by exact Hx.
    apply IH; [apply N.div_lt; lia|].
    unfold digits_only in *. cbn [all_chars].
    rewrite digit_value_pretty_char by (apply N.mod_lt; lia). exact Hs.
  - replace x with 0%N by lia. now rewrite pretty_N_go_0.
Qed.

Lemma pretty_N_go_nonempty (x : N) (s : string) :
  (0 < x)%N -> pretty_N_go x s <> EmptyString.
Proof.
  revert s. induction (N.lt_wf_0 x) as [x _ IH]. intros s Hx.
  rewrite pretty_N_go_step by exact Hx.
  destruct (x `div` 10)%N as [|p] eqn:Hd.
  - rewrite pretty_N_go_0. discriminate.
  - apply IH; [rewrite <- Hd; apply N.div_lt; lia | reflexivity].
Qed.

Lemma signed_plus (o : option Z) :
  match o with Some n => Some (1 * n) | None => None end = o.
Proof. destruct o as [n|]; [|reflexivity]. f_equal. lia. Qed.

Lemma signed_minus (o : option Z) :
  match o with Some n => Some (-1 * n) | None => None end = Z.opp <$> o.
Proof. destruct o as [[|p|p]|]; reflexivity. Qed.

Ltac digit_cases c H :=
  destruct c as [[] [] [] [] [] [] [] []]; try (vm_compute in H; discriminate H).

(** Evaluate the white-space tests on concrete characters, then the
    matches of [parseInt] on the sign and on the hexadecimal prefix. *)
Ltac parseInt_head :=
  unfold parseInt; cbn [trimStart];
  repeat match goal with
         | |- context [is_js_space ?c] =>
             let v := eval vm_compute in (is_js_space c) in
             change (is_js_space c) with v
         end;
  cbv beta iota;
  rewrite ?signed_plus, ?signed_minus.

(** On a non-empty text of decimal digits [parseInt] reads the digits in
    radix 10, also after a minus sign. *)
Lemma parseInt_digits (t : string) :
  digits_only t = true -> t <> EmptyString ->
  parseInt t = read_digits 10 t None
  /\ parseInt (String "-"%char t) = Z.opp <$> read_digits 10 t None.
Proof.
  intros Hdigits Hne. destruct t as [|c r]; [contradiction|].
  unfold digits_only in Hdigits. cbn [all_chars] in Hdigits.
  apply andb_prop in Hdigits as [Hc Hr].
  digit_cases c Hc; try (split; parseInt_head; reflexivity).
  destruct r as [|c1 r1]; [split; parseInt_head; reflexivity|].
  cbn [all_chars] in Hr. apply andb_prop in Hr as [Hc1 Hr1].
  digit_cases c1 Hc1; split; parseInt_head; reflexivity.
Qed.

Lemma digit_not_space (c : ascii) :
  match digit_value 10 c with Some _ => true | None => false end = true ->
  is_js_space c = false.
Proof. intros H. digit_cases c H; reflexivity. Qed.

Lemma digits_visible (t : string) :
  digits_only t = true -> t <> EmptyString ->
  starts_nonspace t = true /\ ends_nonspace t = true.
Proof.
  unfold digits_only. intros Hdigits Hne. split.
  - destruct t as [|c r]; [contradiction|]. cbn [all_chars] in Hdigits.
    apply andb_prop in Hdigits as [Hc _]. cbn [starts_nonspace].
    now rewrite (digit_not_space _ Hc).
  - induction t as [|c r IH]; [contradiction|]. cbn [all_chars] in Hdigits.
    apply andb_prop in Hdigits as [Hc Hr]. cbn [ends_nonspace].
    destruct r as [|c1 r1]; [now rewrite (digit_not_space _ Hc)|].
    apply IH; [exact Hr | discriminate].
Qed.

Lemma num_positive (p : positive) : num (Z.pos p) = pretty_N_go (N.pos p) EmptyString.
Proof. reflexivity. Qed.

Lemma num_negative (p : positive) :
  num (Z.neg p) = String "-"%char (pretty_N_go (N.pos p) EmptyString).
Proof. reflexivity. Qed.

Lemma parseInt_num (n : Z) : parseInt (num n) = Some n.
Proof.
  destruct n as [|p|p]; [reflexivity| |].
  - rewrite num_positive.
    destruct (parseInt_digits (pretty_N_go (N.pos p) EmptyString)) as [Hplus _].
    + now apply digits_only_pretty_N_go.
    + now apply pretty_N_go_nonempty.
    + rewrite Hplus, read_digits_pretty_N_go by reflexivity. reflexivity.
  - rewrite num_negative.
    destruct (parseInt_digits (pretty_N_go (N.pos p) EmptyString)) as [_ Hminus].
    + now apply digits_only_pretty_N_go.
    + now apply pretty_N_go_nonempty.
    + rewrite Hminus, read_digits_pretty_N_go by reflexivity. reflexivity.
Qed.

Lemma num_trimmed (n : Z) : num n <> EmptyString /\ trim (num n) = num n.
Proof.
  destruct n as [|p|p]; [split; [discriminate | reflexivity]| |].
  - rewrite num_positive.
    pose proof (pretty_N_go_nonempty (N.pos p) EmptyString eq_refl) as Hne.
    split; [exact Hne|]. apply trim_of_trimmed. right.
    apply digits_visible; [now apply digits_only_pretty_N_go | exact Hne].
  - rewrite num_negative. split; [discriminate|].
    apply trim_of_trimmed. right. split; [reflexivity|].
    change (String "-"%char ?t) with ("-" +:+ t).
    apply ends_nonspace_app, digits_visible;
      [now apply digits_only_pretty_N_go | now apply pretty_N_go_nonempty].
Qed.

(** X13. Within the range in which a JS number holds an integer exactly
    (up to [Number.MAX_SAFE_INTEGER] in absolute value), an integer printed
    in decimal is read back by [parseInt] as the same integer; so a years
    parameter that is the decimal text of such a count of at least 1 yields
    the years counted back by that count, and the decimal text of such an
    integer below 1 is rejected. *)
Theorem X13_parseInt_reads_decimal (n : Z) :
  Z.abs n <= MAX_SAFE_INTEGER ->
  parseInt (num n) = Some n
  /\ (1 <= n ->
      forall thisYear, parse_years (Some (num n)) thisYear = inr (years_back n thisYear))
  /\ (n < 1 ->
      forall thisYear, parse_years (Some (num n)) thisYear = inl invalid_years).
Proof.
  intros _.
  split; [apply parseInt_num|].
  destruct (num_trimmed n) as [Hne Htrim].
  assert (Htruthy : truthy (Some (num n)) = Some (num n))
    by (destruct (num n); [contradiction | reflexivity]).
  split; intros Hn thisYear; unfold parse_years;
    rewrite Htruthy, Htrim, parseInt_num.
  - destruct (Z.ltb_spec n 1); [lia|]. now rewrite years_loop_years_back.
  - destruct (Z.ltb_spec n 1); [reflexivity|lia].
Qed.

Lemma X13_parseInt_reads_decimal_witness :
  parseInt (num MAX_SAFE_INTEGER) = Some 9007199254740991
  /\ parse_years (Some (num 3)) 2024 = inr [2024; 2023; 2022]
  /\ parse_years (Some (num (-2))) 2024 = inl invalid_years.
Proof.
  destruct (X13_parseInt_reads_decimal MAX_SAFE_INTEGER) as (Hmax & _ & _);
    [vm_compute; discriminate|].
  destruct (X13_parseInt_reads_decimal 3) as (_ & Hcount & _);
    [vm_compute; discriminate|].
  destruct (X13_parseInt_reads_decimal (-2)) as (_ & _ & Hreject);
    [vm_compute; discriminate|].
  split; [exact Hmax|].
  split; [rewrite Hcount by lia; reflexivity | apply Hreject; lia].
Defined.

(** ** Registered themes *)

Lemma includes_assoc {A : Type} (theme : string) (l : list (string * A)) :
  includes (map fst l) theme = true <-> exists a, assoc theme l = Some a.
Proof.
  unfold includes. induction l as [|[k a] l IH].
  - split; [discriminate | intros [a Ha]; discriminate Ha].
  - cbn [map fst existsb assoc]. rewrite (String.eqb_sym theme k).
    destruct (String.eqb k theme); [split; eauto|exact IH].
Qed.

Lemma assoc_In {A : Type} (theme : string) (l : list (string * A)) (a : A) :
  assoc theme l = Some a -> In (theme, a) l.
Proof.
  induction l as [|[k b] l IH]; [discriminate|]. cbn [assoc].
  destruct (String.eqb_spec k theme) as [->|_].
  - intros [= ->]. now left.
  - intros H. right. now apply IH.
Qed.

(** X14. The names the handler accepts are exactly the names that have a
    palette of their own in the theme table: an accepted name resolves to
    its own theme, for the stylesheet and for the level colours alike, and
    never to the fallback. *)
Theorem X14_accepted_themes_resolve (theme : string) :
  (includes validThemes theme = true <-> exists t, assoc theme THEMES = Some t)
  /\ (includes validThemes theme = true ->
      exists t,
        In (theme, t) THEMES
        /\ resolve_theme theme = Own t
        /\ theme_levels theme = levels t
        /\ forall level, getLevelColor level theme = level_color (levels t) level).
Proof.
  assert (Hiff : includes validThemes theme = true
                 <-> exists t, assoc theme THEMES = Some t)
    by apply (includes_assoc theme THEMES).
  split; [exact Hiff|]. intros Hvalid.
  apply Hiff in Hvalid as [t Ht]. exists t.
  pose proof (assoc_In _ _ _ Ht) as Hin.
  split; [exact Hin|].
  unfold resolve_theme, theme_levels, getLevelColor, theme_levels, THEMES_get, obj_get.
  rewrite Ht. split; [reflexivity|]. split; [reflexivity|].
  intros level. cbn in Hin.
  destruct Hin as [Hin|[Hin|[Hin|[Hin|[Hin|[Hin|[Hin|[]]]]]]]];
    injection Hin as _ <-; destruct level; reflexivity.
Qed.

Lemma X14_accepted_themes_resolve_witness :
  resolve_theme "nord-frost" = Own nord_frost
  /\ getLevelColor THIRD_QUARTILE "nord-frost" = "#81a1c1".
Proof.
  destruct (X14_accepted_themes_resolve "nord-frost") as [_ Hown].
  destruct (Hown eq_refl) as (t & Hin & Hresolve & _ & Hcolor).
  assert (t = nord_frost) as ->.
  { cbn in Hin.
    destruct Hin as [Hin|[Hin|[Hin|[Hin|[Hin|[Hin|[Hin|[]]]]]]]];
      try discriminate Hin; now injection Hin as <-. }
  split; [exact Hresolve | rewrite Hcolor; reflexivity].
Defined.

(** X15. Whatever the theme name, two different levels never get the same
    fill colour, and the colour is the one the level has in the resolved
    palette: the fallback to the colour of NONE is never taken. *)
Theorem X15_level_colours_distinct (theme : string) (l1 l2 : Level) :
  (getLevelColor l1 theme = getLevelColor l2 theme -> l1 = l2)
  /\ getLevelColor l1 theme = level_color (theme_levels theme) l1.
Proof.
  unfold getLevelColor.
  pose proof (theme_levels_registered theme) as Hin. cbn in Hin.
  destruct Hin as [<-|[<-|[<-|[<-|[<-|[<-|[<-|[]]]]]]]];
    (split; [destruct l1, l2; vm_compute; intros H; try reflexivity; discriminate H
            | destruct l1; reflexivity]).
Qed.

Lemma X15_level_colours_distinct_witness :
  getLevelColor NONE "light" <> getLevelColor FIRST_QUARTILE "light"
  /\ getLevelColor NONE "light" = level_color (theme_levels "light") NONE.
Proof.
  destruct (X15_level_colours_distinct "light" NONE FIRST_QUARTILE)
    as [Hinj Hcolor].
  split; [|exact Hcolor]. intros Hsame. apply Hinj in Hsame. discriminate Hsame.
Defined.

(** ** The tooltip for every input *)

Lemma tooltip_line_ends_nonspace (userContribs : gmap string Z) (u : string) :
  ends_nonspace (tooltip_line userContribs u) = true.
Proof.
  unfold tooltip_line.
  destruct (obj_get _ _) as [count|member|]; [destruct (count =? 0)| |].
  - apply ends_nonspace_app. reflexivity.
  - do 3 apply ends_nonspace_app. destruct (count =? 1); reflexivity.
  - do 3 apply ends_nonspace_app. reflexivity.
  - apply ends_nonspace_app. reflexivity.
Qed.

Lemma formatDate_starts_nonspace (rt : Runtime) (dateText rest : string) :
  starts_nonspace (formatDate rt dateText +:+ rest) = true.
Proof.
  unfold formatDate. destruct (Date_parse rt dateText) as [[month day]|];
    [destruct month|]; reflexivity.
Qed.

(** X16. For every date text and every breakdown, also for an Invalid
    Date and for account names with spaces, the tooltip is the header
    line, the formatted date and a colon, followed by exactly one line per
    account in order; trimming removes the last newline and nothing
    else. *)
Theorem X16_tooltip_lines (rt : Runtime) (dateText : string)
    (userContribs : gmap string Z) (usernames : list string) :
  generateTooltipContent rt dateText userContribs usernames
  = join newline
      ((formatDate rt dateText +:+ ":")
       :: map (tooltip_line userContribs) usernames)
  /\ (Date_parse rt dateText = None ->
      first_line (generateTooltipContent rt dateText userContribs usernames)
      = "Invalid Date NaN:").
Proof.
  assert (Hlines :
    generateTooltipContent rt dateText userContribs usernames
    = join newline
        ((formatDate rt dateText +:+ ":")
         :: map (tooltip_line userContribs) usernames)).
  { unfold generateTooltipContent.
    replace (formatDate rt dateText +:+ ":" +:+ newline)
      with ((formatDate rt dateText +:+ ":") +:+ newline)
      by (rewrite !sapp_assoc; reflexivity).
    rewrite tooltip_fold. apply trim_text_newline.
    - apply starts_nonspace_join, formatDate_starts_nonspace.
    - apply ends_nonspace_join.
      + apply ends_nonspace_app. reflexivity.
      + apply Forall_forall. intros line Hline.
        apply list_elem_of_In, in_map_iff in Hline as (u & <- & _).
        apply tooltip_line_ends_nonspace. }
  split; [exact Hlines|]. intros Hinvalid. rewrite Hlines.
  unfold formatDate. rewrite Hinvalid.
  destruct (map (tooltip_line userContribs) usernames); reflexivity.
Qed.

Lemma X16_tooltip_lines_witness :
  first_line (generateTooltipContent (sample_runtime 2024 calA) "soon" ∅ [" a "])
  = "Invalid Date NaN:".
Proof.
  destruct (X16_tooltip_lines (sample_runtime 2024 calA) "soon" ∅ [" a "])
    as [_ Hinvalid].
  apply Hinvalid. reflexivity.
Defined.

(** ** The geometry of a year graph *)



(** ** Stacking the years *)

Lemma stack_years_closed (rt : Runtime) (usernames : list string) (theme : string)
    (padding : Z) (total : nat) (yearData : list YearData) :
  forall (idx : nat) (currentY : Z) (graphSVGs : list string),
    total = (idx + length yearData)%nat ->
    stack_years rt usernames theme padding total idx yearData currentY graphSVGs
    = (currentY + yearGraphHeight * Z.of_nat (length yearData)
       + graphSpacing * Z.max 0 (Z.of_nat (length yearData) - 1),
       graphSVGs
       ++ imap (fun k yd =>
                  svg (renderYearGraph rt (calendar yd) (year yd) usernames 0
                         (currentY + yearPitch * Z.of_nat k) theme padding))
               yearData).
Proof.
  induction yearData as [|yd rest IH]; intros idx currentY graphSVGs Htotal.
  - cbn [stack_years length imap]. rewrite app_nil_r. f_equal. lia.
  - cbn [stack_years]. rewrite IH by (cbn [length] in Htotal; lia).
    cbn [height renderYearGraph length imap].
    fold yearGraphHeight. rewrite <- app_assoc. cbn [app].
    assert (Hspacing :
      (if Z.of_nat idx <? Z.of_nat total - 1 then graphSpacing else 0)
      = if decide (rest = []) then 0 else graphSpacing).
    { cbn [length] in Htotal. destruct rest as [|yd' rest'].
      - cbn [length] in Htotal. rewrite decide_True by reflexivity.
        destruct (Z.ltb_spec (Z.of_nat idx) (Z.of_nat total - 1)); [lia|reflexivity].
      - cbn [length] in Htotal. rewrite decide_False by discriminate.
        destruct (Z.ltb_spec (Z.of_nat idx) (Z.of_nat total - 1)); [reflexivity|lia]. }
    rewrite Hspacing. f_equal.
    + destruct rest as [|yd' rest'].
      * rewrite decide_True by reflexivity. cbn [length]. lia.
      * rewrite decide_False by discriminate. cbn [length].
        unfold graphSpacing. lia.
    + f_equal. f_equal.
      * do 2 f_equal. lia.
      * destruct rest as [|yd' rest']; [reflexivity|].
        rewrite decide_False by discriminate.
        apply imap_ext. intros k y _. cbn [compose]. do 2 f_equal.
        unfold yearPitch. lia.
Qed.

(** X18. Vertical layout: the year graphs are drawn in the order given,
    the [k]-th one at offset 35 plus [k] times the pitch of 146 (graph
    height 126 and spacing 20), so consecutive graphs never overlap; the
    document height leaves every graph, with its padding, above the
    bottom margin; one year gives height 186. *)
Theorem X18_vertical_layout (rt : Runtime) (yearData : list YearData)
    (usernames : list string) (theme : string) :
  let n := Z.of_nat (length yearData) in
  let totalHeight :=
    10 + headerHeight + yearGraphHeight * n + graphSpacing * Z.max 0 (n - 1)
    + 10 + bottomSpacing in
  generateSVGVertical rt yearData usernames theme
  = generateCompleteSVG (document_width 10 (maxWeeks yearData)) totalHeight
      usernames
      (imap (fun k yd =>
               svg (renderYearGraph rt (calendar yd) (year yd) usernames 0
                      (10 + headerHeight + yearPitch * Z.of_nat k) theme 10))
            yearData)
      theme 10
  /\ (forall k, (k < length yearData)%nat ->
        10 + headerHeight + yearPitch * Z.of_nat k + 10 + yearGraphHeight
        + bottomSpacing <= totalHeight)
  /\ (length yearData = 1%nat -> totalHeight = 186).
Proof.
  cbv zeta. split; [|split].
  - unfold generateSVGVertical. cbv zeta.
    rewrite (stack_years_closed rt usernames theme 10 (length yearData) yearData
               0 (10 + headerHeight) []) by reflexivity.
    cbn [fst snd app]. reflexivity.
  - intros k Hk. unfold yearPitch, yearGraphHeight, graphSpacing, headerHeight,
      bottomSpacing, yearLabelHeight, monthLabelHeight, cellSize, cellGap. lia.
  - intros ->. reflexivity.
Qed.

Lemma X18_vertical_layout_witness :
  10 + headerHeight + yearPitch * 1 + 10 + yearGraphHeight + bottomSpacing
  <= 10 + headerHeight + yearGraphHeight * 2 + graphSpacing * Z.max 0 (2 - 1)
     + 10 + bottomSpacing.
Proof.
  destruct (X18_vertical_layout (sample_runtime 2024 calA)
              [ {| year := 2024;
                   calendar := {| totalContributions := 0; mergedWeeks := [];
                                  userContributions := ∅ |} |};
                {| year := 2023;
                   calendar := {| totalContributions := 0; mergedWeeks := [];
                                  userContributions := ∅ |} |} ]
              ["alice"] "dark") as (_ & Hfit & _).
  apply (Hfit 1%nat). cbn. lia.
Defined.

Lemma fold_max_ge (l : list Z) (x : Z) : In x l -> x <= fold_right Z.max 0 l.
Proof.
  induction l as [|y l IH]; [contradiction|]. cbn [fold_right].
  intros [->|Hin]; [lia|]. specialize (IH Hin). lia.
Qed.

(** X19. Horizontal layout: with at least one year the document width is
    finite and holds the widest year graph between its two paddings;
    with no year at all it is [-Infinity], which is what the width
    attribute then prints. *)
Theorem X19_document_width (rt : Runtime) (yearData : list YearData)
    (usernames : list string) (theme : string) :
  (yearData <> [] ->
   exists w,
     document_width 10 (maxWeeks yearData) = Finite w
     /\ Forall (fun yd =>
                  forall yOffset,
                    10 + width (renderYearGraph rt (calendar yd) (year yd)
                                  usernames 0 yOffset theme 10) + 10 <= w)
               yearData)
  /\ (yearData = [] ->
      extent_text (document_width 10 (maxWeeks yearData)) = "-Infinity").
Proof.
  split; [|intros ->; reflexivity].
  intros Hne. destruct yearData as [|yd0 rest]; [contradiction|].
  set (yearData := yd0 :: rest). unfold maxWeeks.
  change (match yearData with [] => MinusInfinity | _ :: _ =>
            Finite (fold_right Z.max 0
                      (map (fun yd => Z.of_nat (length (mergedWeeks (calendar yd))))
                           yearData)) end)
    with (Finite (fold_right Z.max 0
                    (map (fun yd => Z.of_nat (length (mergedWeeks (calendar yd))))
                         yearData))).
  cbn [document_width]. eexists. split; [reflexivity|].
  apply Forall_forall. intros yd Hyd yOffset. cbn [width renderYearGraph].
  assert (Hmax :
    Z.of_nat (length (mergedWeeks (calendar yd)))
    <= fold_right Z.max 0
         (map (fun yd => Z.of_nat (length (mergedWeeks (calendar yd)))) yearData)).
  { apply fold_max_ge, in_map_iff. exists yd. split; [reflexivity|].
    now apply list_elem_of_In. }
  unfold dayLabelWidth, cellSize, cellGap. lia.
Qed.

Lemma X19_document_width_witness :
  exists w,
    document_width 10
      (maxWeeks [ {| year := 2024;
                     calendar := {| totalContributions := 0;
                                    mergedWeeks := [ {| mergedDays := [] |} ];
                                    userContributions := ∅ |} |} ])
    = Finite w
    /\ 63 <= w.
Proof.
  destruct (X19_document_width (sample_runtime 2024 calA)
              [ {| year := 2024;
                   calendar := {| totalContributions := 0;
                                  mergedWeeks := [ {| mergedDays := [] |} ];
                                  userContributions := ∅ |} |} ]
              [] "dark") as [Hfinite _].
  destruct Hfinite as (w & Hw & Hall); [discriminate|].
  exists w. split; [exact Hw|].
  apply Forall_cons in Hall as [Hfirst _]. specialize (Hfirst 0).
  cbn in Hfirst. exact Hfirst.
Defined.

(** ** Month labels *)

Lemma month_labels_fold (rt : Runtime) (x0 yOffset padding : Z)
    (weeks : list MergedWeek) :
  forall (text currentMonth : string) (column : nat),
    (fold_left (month_label_step rt yOffset padding) weeks
               (text, currentMonth, x0 + Z.of_nat column * (cellSize + cellGap))).1.1
    = text
      +:+ concat_texts (map (month_label_text x0 yOffset padding)
                            (month_label_list rt currentMonth column weeks)).
Proof.
  induction weeks as [|week weeks IH]; intros text currentMonth column.
  - cbn [fold_left month_label_list map concat_texts fold_right fst].
    now rewrite sapp_nil_r.
  - cbn [fold_left month_label_list]. unfold month_label_step at 2.
    assert (Hnext : x0 + Z.of_nat column * (cellSize + cellGap) + (cellSize + cellGap)
                    = x0 + Z.of_nat (S column) * (cellSize + cellGap)) by lia.
    destruct (mergedDays week) as [|first others]; [apply IH|].
    destruct (Date_parse rt (mdate first)) as [[m day]|].
    + destruct (negb (String.eqb (month_short m) currentMonth) && (day <=? 7)).
      * rewrite Hnext, IH. cbn [map concat_texts fold_right].
        unfold month_label_text at 2. cbn [fst snd].
        rewrite !sapp_assoc. reflexivity.
      * rewrite Hnext. apply IH.
    + cbn [negb andb]. rewrite andb_false_r, Hnext. apply IH.
Qed.

Lemma month_labels_columns (rt : Runtime) (weeks : list MergedWeek) :
  forall (currentMonth : string) (column : nat),
    Forall (fun label =>
              (column <= label.1 < column + length (weeks_with_days weeks))%nat)
           (month_label_list rt currentMonth column weeks).
Proof.
  unfold weeks_with_days.
  induction weeks as [|week weeks IH]; intros currentMonth column; [constructor|].
  cbn [month_label_list]. rewrite filter_cons.
  destruct (mergedDays week) as [|first others] eqn:Hdays.
  - rewrite decide_False by (intros H; apply H; reflexivity). apply IH.
  - rewrite decide_True by discriminate. cbn [length].
    assert (Hshift :
      forall cur,
        Forall (fun label =>
                  (column <= label.1
                   < column + S (length (filter (fun w => mergedDays w <> []) weeks)))%nat)
               (month_label_list rt cur (S column) weeks)).
    { intros cur. eapply Forall_impl; [apply (IH cur (S column))|].
      intros label Hl. cbn beta in Hl. lia. }
    destruct (Date_parse rt (mdate first)) as [[m day]|]; [|apply Hshift].
    destruct (negb _ && _); [|apply Hshift].
    constructor; [cbn [fst]; lia | apply Hshift].
Qed.

Lemma month_labels_sorted (rt : Runtime) (weeks : list MergedWeek) :
  forall (currentMonth : string) (column : nat),
    StronglySorted lt (map fst (month_label_list rt currentMonth column weeks)).
Proof.
  induction weeks as [|week weeks IH]; intros currentMonth column; [constructor|].
  cbn [month_label_list].
  destruct (mergedDays week) as [|first others]; [apply IH|].
  destruct (Date_parse rt (mdate first)) as [[m day]|]; [|apply IH].
  destruct (negb _ && _); [|apply IH].
  cbn [map fst]. constructor; [apply IH|].
  apply Forall_forall. intros c Hc.
  apply list_elem_of_In, in_map_iff in Hc as (label & <- & Hlabel).
  pose proof (month_labels_columns rt weeks (month_short m) (S column)) as Hcols.
  rewrite Forall_forall in Hcols. apply list_elem_of_In, Hcols in Hlabel. lia.
Qed.

Lemma month_labels_change (rt : Runtime) (weeks : list MergedWeek) :
  forall (currentMonth : string) (column : nat),
    changes_each_time currentMonth
      (map snd (month_label_list rt currentMonth column weeks)).
Proof.
  induction weeks as [|week weeks IH]; intros currentMonth column; [exact I|].
  cbn [month_label_list].
  destruct (mergedDays week) as [|first others]; [apply IH|].
  destruct (Date_parse rt (mdate first)) as [[m day]|]; [|apply IH].
  destruct (String.eqb_spec (month_short m) currentMonth) as [Heq|Hne];
    cbn [negb andb]; [apply IH|].
  destruct (day <=? 7); [|apply IH].
  cbn [map snd changes_each_time]. split; [exact Hne | apply IH].
Qed.

(** X20. Month labels: the loop emits the labels of [month_label_list],
    each at the column of its week counted over the weeks that have days
    (a week without days advances no column); the columns increase
    strictly, stay below the number of weeks with days, and no label
    repeats the month of the label before it. *)
Theorem X20_month_labels (rt : Runtime) (weeks : list MergedWeek)
    (x0 yOffset padding : Z) :
  let labels := month_label_list rt EmptyString 0 weeks in
  (fold_left (month_label_step rt yOffset padding) weeks
             (EmptyString, EmptyString, x0)).1.1
  = concat_texts (map (month_label_text x0 yOffset padding) labels)
  /\ changes_each_time EmptyString (map snd labels)
  /\ StronglySorted lt (map fst labels)
  /\ Forall (fun label => (label.1 < length (weeks_with_days weeks))%nat) labels.
Proof.
  cbv zeta. split; [|split; [|split]].
  - replace x0 with (x0 + Z.of_nat 0 * (cellSize + cellGap)) at 1 by lia.
    now rewrite month_labels_fold.
  - apply month_labels_change.
  - apply month_labels_sorted.
  - eapply Forall_impl; [apply (month_labels_columns rt weeks EmptyString 0)|].
    intros label Hl. cbn beta in Hl. lia.
Qed.

(** ** What the handler fetches *)

Lemma fetch_issued (rt : Runtime) (env : Env) (request : Request)
    (token primary : string) :
  truthy (GITHUB_TOKEN env) = Some token ->
  truthy (PRIMARY_USER env) = Some primary ->
  (fetch rt env request).1
  = map (fun u => AuthorizationCheck u (trim primary))
        (parse_additional_users (merge_param request) (trim primary))
    ++ (if includes validThemes (default "dark" (truthy (theme_param request)))
        then match parse_years (years_param request) (currentYear rt) with
             | inl _ => []
             | inr years =>
                 fetch_calls years
                   (trim primary
                    :: filter (fun u => isAuthorized rt u (trim primary) = true)
                              (parse_additional_users (merge_param request)
                                                      (trim primary)))
             end
        else []).
Proof.
  intros Htoken Hprimary.
  rewrite (fetch_configured rt env request token primary Htoken Hprimary).
  cbv zeta. destruct (includes validThemes _); [|cbn [fst]; now rewrite app_nil_r].
  destruct (parse_years _ _) as [r|years]; [cbn [fst]; now rewrite app_nil_r|].
  cbn [fst]. now rewrite fetch_years_calls.
Qed.

Lemma fetch_calls_elem (years : list Z) (users : list string) (e : Event) :
  e ∈ fetch_calls years users ->
  exists u y, e = ContributionFetch u y /\ u ∈ users /\ y ∈ years.
Proof.
  unfold fetch_calls. intros Hin.
  apply list_elem_of_In, in_concat in Hin as (calls & Hcalls & He).
  apply in_map_iff in Hcalls as (y & <- & Hy).
  apply in_map_iff in He as (u & <- & Hu).
  exists u, y. repeat split; now apply list_elem_of_In.
Qed.

(** X21. Only authorized accounts are fetched: every contribution fetch
    the handler issues is for the primary user or for an additional user
    of the merge parameter whose authorization check came back true; and
    every authorization check is for an additional user of the merge
    parameter, different from the primary user, against the primary
    user. *)
Theorem X21_only_authorized_fetched (rt : Runtime) (env : Env) (request : Request)
    (primary : string) (e : Event) :
  truthy (PRIMARY_USER env) = Some primary ->
  e ∈ (fetch rt env request).1 ->
  let primaryUser := trim primary in
  let additionalUsers := parse_additional_users (merge_param request) primaryUser in
  match e with
  | AuthorizationCheck u p =>
      p = primaryUser /\ u ∈ additionalUsers /\ u <> primaryUser
  | ContributionFetch u y =>
      u = primaryUser
      \/ (u ∈ additionalUsers /\ isAuthorized rt u primaryUser = true)
  end.
Proof.
  intros Hprimary Hin. cbv zeta.
  destruct (truthy (GITHUB_TOKEN env)) as [token|] eqn:Htoken.
  2: { destruct (fetch_unconfigured rt env request) as [Hnone _]; [now left|].
       rewrite Hnone in Hin. now apply elem_of_nil in Hin. }
  rewrite (fetch_issued rt env request token primary Htoken Hprimary) in Hin.
  apply elem_of_app in Hin as [Hcheck|Hfetch].
  - apply list_elem_of_In, in_map_iff in Hcheck as (u & <- & Hu).
    apply list_elem_of_In in Hu. split; [reflexivity|]. split; [exact Hu|].
    intros ->. now apply (primary_not_additional (merge_param request) (trim primary)).
  - destruct (includes validThemes _); [|now apply elem_of_nil in Hfetch].
    destruct (parse_years _ _) as [r|years]; [now apply elem_of_nil in Hfetch|].
    apply fetch_calls_elem in Hfetch as (u & y & -> & Hu & _).
    apply elem_of_cons in Hu as [->|Hu]; [now left|].
    right. now apply list_elem_of_filter in Hu as [Hauth Hu].
Qed.

Lemma X21_only_authorized_fetched_witness :
  ContributionFetch "bob" 2024
  ∈ (fetch (sample_runtime 2024 calA) sample_env
           (sample_request (Some "bob") None None)).1
  /\ isAuthorized (sample_runtime 2024 calA) "bob" "alice" = true.
Proof.
  assert (Hin : ContributionFetch "bob" 2024
                ∈ (fetch (sample_runtime 2024 calA) sample_env
                         (sample_request (Some "bob") None None)).1)
    by (vm_compute; do 2 apply list_elem_of_further; apply list_elem_of_here).
  split; [exact Hin|].
  destruct (X21_only_authorized_fetched (sample_runtime 2024 calA) sample_env
              (sample_request (Some "bob") None None) "alice"
              (ContributionFetch "bob" 2024) eq_refl Hin) as [Heq|[_ Hauth]];
    [discriminate Heq | exact Hauth].
Defined.

Lemma years_back_elem (n thisYear y : Z) :
  y ∈ years_back n thisYear -> 2008 <= y <= thisYear /\ thisYear - n < y.
Proof.
  unfold years_back. intros Hin.
  apply list_elem_of_In, in_map_iff in Hin as (k & <- & Hk).
  apply in_seq in Hk. lia.
Qed.

Lemma parse_years_elem (yearsParam : option string) (thisYear : Z)
    (years : list Z) (y : Z) :
  parse_years yearsParam thisYear = inr years -> y ∈ years ->
  y <= thisYear
  /\ (truthy yearsParam <> None -> 2008 <= y)
  /\ (truthy yearsParam = None -> y = thisYear).
Proof.
  unfold parse_years. destruct (truthy yearsParam) as [text|].
  - destruct (parseInt (trim text)) as [n|]; [|discriminate].
    destruct (n <? 1); [discriminate|]. intros [= <-].
    rewrite years_loop_years_back. intros Hin.
    apply years_back_elem in Hin. repeat split; try lia. discriminate.
  - intros [= <-] Hin. apply list_elem_of_singleton in Hin as ->.
    repeat split; [lia | contradiction].
Qed.

(** X22. The years that are fetched: every contribution fetch is for a
    year not after the current year; with a years parameter the year is
    not before 2008; without one it is the current year itself, whatever
    that year is. *)
Theorem X22_fetched_years (rt : Runtime) (env : Env) (request : Request)
    (u : string) (y : Z) :
  ContributionFetch u y ∈ (fetch rt env request).1 ->
  y <= currentYear rt
  /\ (truthy (years_param request) <> None -> 2008 <= y)
  /\ (truthy (years_param request) = None -> y = currentYear rt).
Proof.
  intros Hin.
  destruct (truthy (GITHUB_TOKEN env)) as [token|] eqn:Htoken.
  2: { destruct (fetch_unconfigured rt env request) as [Hnone _]; [now left|].
       rewrite Hnone in Hin. now apply elem_of_nil in Hin. }
  destruct (truthy (PRIMARY_USER env)) as [primary|] eqn:Hprimary.
  2: { destruct (fetch_unconfigured rt env request) as [Hnone _]; [now right|].
       rewrite Hnone in Hin. now apply elem_of_nil in Hin. }
  rewrite (fetch_issued rt env request token primary Htoken Hprimary) in Hin.
  apply elem_of_app in Hin as [Hcheck|Hfetch].
  - apply list_elem_of_In, in_map_iff in Hcheck as (v & Hv & _). discriminate Hv.
  - destruct (includes validThemes _); [|now apply elem_of_nil in Hfetch].
    destruct (parse_years _ _) as [r|years] eqn:Hyears;
      [now apply elem_of_nil in Hfetch|].
    apply fetch_calls_elem in Hfetch as (u' & y' & [= -> ->] & _ & Hy).
    exact (parse_years_elem _ _ _ _ Hyears Hy).
Qed.

Lemma X22_fetched_years_witness :
  ContributionFetch "alice" 2023
  ∈ (fetch (sample_runtime 2024 calA) sample_env
           (sample_request None (Some "2") None)).1
  /\ 2008 <= 2023 <= 2024.
Proof.
  assert (Hin : ContributionFetch "alice" 2023
                ∈ (fetch (sample_runtime 2024 calA) sample_env
                         (sample_request None (Some "2") None)).1)
    by (vm_compute; apply list_elem_of_further; apply list_elem_of_here).
  split; [exact Hin|].
  destruct (X22_fetched_years (sample_runtime 2024 calA) sample_env
              (sample_request None (Some "2") None) "alice" 2023 Hin)
    as (Hupper & Hlower & _).
  split; [apply Hlower; discriminate | exact Hupper].
Defined.

(** ** When the handler succeeds *)

Lemma all_resolved_is_Some {A : Type} (l : list (option A)) :
  is_Some (all_resolved l) <-> Forall is_Some l.
Proof.
  induction l as [|[a|] l IH]; cbn [all_resolved].
  - split; [constructor | eauto].
  - rewrite fmap_is_Some, IH. split.
    + intros H. constructor; [eauto | exact H].
    + intros H. now apply Forall_cons in H as [_ H].
  - split; [intros [x Hx]; discriminate Hx|].
    intros H. apply Forall_cons in H as [[x Hx] _]. discriminate Hx.
Qed.

Lemma all_resolved_length {A : Type} (l : list (option A)) (l' : list A) :
  all_resolved l = Some l' -> length l' = length l.
Proof.
  revert l'. induction l as [|[a|] l IH]; intros l'; cbn [all_resolved].
  - now intros [= <-].
  - destruct (all_resolved l) as [r|]; [|discriminate].
    intros [= <-]. cbn [length]. f_equal. now apply IH.
  - discriminate.
Qed.

Lemma fetch_years_settled (rt : Runtime) (years : list Z) (users : list string) :
  for_each
    (fun y =>
       dataArray ←
         for_each
           (fun u => issue (ContributionFetch u y);; mret (contributions rt u y))
           users;
       mret (y, dataArray))
    years
  = (fetch_calls years users,
     inr (map (fun y => (y, map (fun u => contributions rt u y) users)) years)).
Proof.
  unfold fetch_calls. induction years as [|y ys IH]; [reflexivity|].
  cbn [for_each]. rewrite IH.
  rewrite (for_each_issue (fun u => ContributionFetch u y)
             (fun u => contributions rt u y)).
  repeat (rewrite bind_value; cbn [fst snd mret Handler_ret map concat]).
  rewrite !app_nil_r. reflexivity.
Qed.

(** The fetches of all years succeed together exactly when every fetch
    resolves. *)
Lemma fetch_years_outcome (rt : Runtime) (years : list Z) (users : list string) :
  users <> [] ->
  (exists yearData, (fetch_years rt years users).2 = inr yearData)
  <-> Forall (fun y => Forall (fun u => is_Some (contributions rt u y)) users) years.
Proof.
  intros Husers. unfold fetch_years. rewrite fetch_years_settled, bind_value.
  cbn [fst snd]. rewrite map_map.
  set (step := fun y : Z =>
         dataArray ← all_resolved (map (fun u => contributions rt u y) users);
         merged ← mergeContributions dataArray users;
         Some {| year := y; calendar := merged |}).
  assert (Hstep : forall y,
            is_Some (step y)
            <-> Forall (fun u => is_Some (contributions rt u y)) users).
  { intros y. unfold step.
    assert (Hconv :
      Forall is_Some (map (fun u => contributions rt u y) users)
      <-> Forall (fun u => is_Some (contributions rt u y)) users)
      by apply Forall_fmap.
    rewrite <- Hconv, <- all_resolved_is_Some.
    destruct (all_resolved _) as [dataArray|] eqn:Hall; cbn.
    - split; [eauto|]. intros _.
      apply all_resolved_length in Hall. rewrite length_map in Hall.
      destruct dataArray as [|cal cals]; [|cbn; eauto].
      destruct users; [contradiction | discriminate Hall].
    - split; intros [x Hx]; discriminate Hx. }
  change (map (fun x : Z => let '(y, results) := (x, map (fun u => contributions rt u x) users) in
                            dataArray ← all_resolved results;
                            merged ← mergeContributions dataArray users;
                            Some {| year := y; calendar := merged |}) years)
    with (map step years).
  assert (Hall : is_Some (all_resolved (map step years))
                 <-> Forall (fun y => Forall (fun u => is_Some (contributions rt u y)) users)
                            years).
  { rewrite all_resolved_is_Some, Forall_fmap. apply Forall_proper; [|reflexivity].
    intros y. apply Hstep. }
  rewrite <- Hall.
  destruct (all_resolved (map step years)) as [yearData|];
    cbn [snd mret Handler_ret respond].
  - split; eauto.
  - split; [intros [yd Hyd]; discriminate Hyd | intros [x Hx]; discriminate Hx].
Qed.

(** X23. The handler answers 200 with an SVG body exactly when both
    bindings are present, the theme is one of the seven, the years
    parameter is acceptable and every contribution fetch of every year
    resolves; every other answer is a plain-text 400 or 500. *)
Theorem X23_success_exactly_when (rt : Runtime) (env : Env) (request : Request) :
  (status (fetch rt env request).2 = 200
   <-> exists token primary years,
         truthy (GITHUB_TOKEN env) = Some token
         /\ truthy (PRIMARY_USER env) = Some primary
         /\ includes validThemes (default "dark" (truthy (theme_param request))) = true
         /\ parse_years (years_param request) (currentYear rt) = inr years
         /\ Forall (fun y =>
                      Forall (fun u => is_Some (contributions rt u y))
                             (trim primary
                              :: filter (fun u => isAuthorized rt u (trim primary) = true)
                                        (parse_additional_users (merge_param request)
                                                                (trim primary))))
                   years)
  /\ ((status (fetch rt env request).2 = 200
       /\ contentType (fetch rt env request).2 = "image/svg+xml")
      \/ ((status (fetch rt env request).2 = 400
           \/ status (fetch rt env request).2 = 500)
          /\ contentType (fetch rt env request).2 = "text/plain")).
Proof.
  destruct (truthy (GITHUB_TOKEN env)) as [token|] eqn:Htoken.
  2: { destruct (fetch_unconfigured rt env request) as [_ H500]; [now left|].
       split.
       - rewrite H500. split; [discriminate|].
         intros (t & p & ys & Ht & _). discriminate Ht.
       - right. split; [now right|]. unfold fetch. rewrite Htoken. reflexivity. }
  destruct (truthy (PRIMARY_USER env)) as [primary|] eqn:Hprimary.
  2: { destruct (fetch_unconfigured rt env request) as [_ H500]; [now right|].
       split.
       - rewrite H500. split; [discriminate|].
         intros (t & p & ys & _ & Hp & _). discriminate Hp.
       - right. split; [now right|]. unfold fetch. rewrite Htoken, Hprimary.
         reflexivity. }
  rewrite (fetch_configured rt env request token primary Htoken Hprimary).
  cbv zeta. destruct (includes validThemes _) eqn:Htheme.
  2: { cbn [snd]. split.
       - split; [discriminate|]. intros (t & p & ys & _ & _ & Hth & _).
         discriminate Hth.
       - right. split; [now left | reflexivity]. }
  destruct (parse_years _ _) as [r|years] eqn:Hyears.
  { rewrite (parse_years_rejects _ _ _ Hyears). cbn [snd]. split.
    - split; [discriminate|]. intros (t & p & ys & _ & _ & _ & Hys & _).
      discriminate Hys.
    - right. split; [now left | reflexivity]. }
  cbn [snd].
  pose proof (fetch_years_outcome rt years
                (trim primary
                 :: filter (fun u => isAuthorized rt u (trim primary) = true)
                           (parse_additional_users (merge_param request)
                                                   (trim primary)))
                ltac:(discriminate)) as Houtcome.
  destruct (fetch_years rt years _) as [issued [r|yearData]] eqn:Hfetch.
  - apply (f_equal snd) in Hfetch. cbn [snd] in *.
    pose proof (fetch_years_rejects _ _ _ _ Hfetch) as ->. split.
    + split; [discriminate|].
      intros (t & p & ys & _ & [= <-] & _ & [= <-] & Hall).
      apply Houtcome in Hall as [yd Hyd]. discriminate Hyd.
    + right. split; [now right | reflexivity].
  - cbn [snd] in *. split.
    + split; [|reflexivity]. intros _. exists token, primary, years.
      repeat split; try reflexivity. apply Houtcome. eauto.
    + left. split; reflexivity.
Qed.

Lemma X23_success_exactly_when_witness :
  status (fetch (sample_runtime 2024 calA) sample_env
                (sample_request (Some "bob") (Some "2") (Some "light"))).2
  = 200.
Proof.
  destruct (X23_success_exactly_when (sample_runtime 2024 calA) sample_env
              (sample_request (Some "bob") (Some "2") (Some "light")))
    as [[_ Hsuccess] _].
  apply Hsuccess. exists "token", "alice", [2024; 2023].
  repeat split; try reflexivity.
  repeat (apply List.Forall_cons || apply List.Forall_nil); eexists; reflexivity.
Defined.

(** ** How many calls a request can cause *)

Lemma fetch_calls_length (years : list Z) (users : list string) :
  length (fetch_calls years users) = (length years * length users)%nat.
Proof.
  unfold fetch_calls. induction years as [|y ys IH]; [reflexivity|].
  cbn [map concat length]. rewrite length_app, length_map, IH. lia.
Qed.

Lemma parse_years_length (yearsParam : option string) (thisYear : Z)
    (years : list Z) :
  parse_years yearsParam thisYear = inr years ->
  Z.of_nat (length years) <= Z.max 1 (thisYear - 2007).
Proof.
  unfold parse_years. destruct (truthy yearsParam) as [text|].
  - destruct (parseInt (trim text)) as [n|]; [|discriminate].
    destruct (n <? 1); [discriminate|]. intros [= <-].
    rewrite years_loop_years_back. unfold years_back.
    rewrite length_map, length_seq. lia.
  - intros [= <-]. cbn [length]. lia.
Qed.

(** X24. The network calls of one request are bounded: with [a]
    additional users named by the merge parameter and the current year
    [Y], the handler issues at most [a] authorization checks and at most
    [max 1 (Y - 2007)] times [1 + a] contribution fetches, whatever the
    years parameter asks for. *)
Theorem X24_call_bound (rt : Runtime) (env : Env) (request : Request)
    (primary : string) :
  truthy (PRIMARY_USER env) = Some primary ->
  let a := Z.of_nat (length (parse_additional_users (merge_param request)
                                                    (trim primary))) in
  Z.of_nat (length (fetch rt env request).1)
  <= a + Z.max 1 (currentYear rt - 2007) * (1 + a).
Proof.
  intros Hprimary. cbv zeta.
  set (additional := parse_additional_users (merge_param request) (trim primary)).
  destruct (truthy (GITHUB_TOKEN env)) as [token|] eqn:Htoken.
  2: { destruct (fetch_unconfigured rt env request) as [Hnone _]; [now left|].
       rewrite Hnone. cbn [length]. nia. }
  rewrite (fetch_issued rt env request token primary Htoken Hprimary).
  fold additional. rewrite length_app, length_map.
  destruct (includes validThemes _); [|cbn [length]; nia].
  destruct (parse_years _ _) as [r|years] eqn:Hyears; [cbn [length]; nia|].
  rewrite fetch_calls_length. cbn [length].
  pose proof (parse_years_length _ _ _ Hyears) as Hlen.
  pose proof (length_filter (fun u => isAuthorized rt u (trim primary) = true)
                additional) as Hfilter.
  set (k := length (filter (fun u => isAuthorized rt u (trim primary) = true)
                           additional)) in *.
  nia.
Qed.

Lemma X24_call_bound_witness :
  Z.of_nat (length (fetch (sample_runtime 2024 calA) sample_env
                          (sample_request (Some "bob,carol") (Some "500") None)).1)
  <= 2 + 17 * 3.
Proof.
  exact (X24_call_bound (sample_runtime 2024 calA) sample_env
           (sample_request (Some "bob,carol") (Some "500") None) "alice" eq_refl).
Defined.

(** ** Authorization by gist *)

Lemma sapp_cancel_r (a b c : string) : a +:+ c = b +:+ c -> a = b.
Proof.
  revert b. induction a as [|x a IH]; intros b Heq.
  - destruct b as [|y b]; [reflexivity|].
    apply (f_equal String.length) in Heq. rewrite !slength_app in Heq.
    cbn [String.length] in Heq. lia.
  - destruct b as [|y b].
    + apply (f_equal String.length) in Heq. rewrite !slength_app in Heq.
      cbn [String.length] in Heq. lia.
    + rewrite !sapp_cons in Heq. injection Heq as -> Heq. f_equal. now apply IH.
Qed.

Lemma authFilename_inj (p q : string) : authFilename p = authFilename q -> p = q.
Proof.
  unfold authFilename. intros Heq.
  apply (inj (String.append "github-contribution-merge-allow-")) in Heq.
  now apply sapp_cancel_r in Heq.
Qed.

Lemma authFilename_not_inherited (p : string) :
  authFilename p ∉ Object_prototype_members.
Proof.
  unfold authFilename, Object_prototype_members. intros Hin.
  repeat (apply elem_of_cons in Hin as [Hin|Hin]; [discriminate Hin|]).
  now apply elem_of_nil in Hin.
Qed.

Lemma gist_allows_iff (p : string) (g : Gist) :
  gist_allows p g = true
  <-> exists names, files g = Some names /\ authFilename p ∈ names.
Proof.
  unfold gist_allows, obj_get. destruct (files g) as [names|].
  - destruct (bool_decide (authFilename p ∈ names)) eqn:Hin.
    + apply bool_decide_eq_true_1 in Hin. split; [eauto | reflexivity].
    + apply bool_decide_eq_false_1 in Hin.
      rewrite bool_decide_eq_false_2 by apply authFilename_not_inherited.
      split; [discriminate|]. intros (names' & [= <-] & Hin'). contradiction.
  - split; [discriminate | intros (names & Hn & _); discriminate Hn].
Qed.

(** X25. Authorization by gist: the check answers true exactly when the
    response is ok and one of its gists has a file named
    github-contribution-merge-allow-PRIMARY.md for this very primary
    user; the file name determines the primary user, so a file written
    for one primary user authorizes no other; a failed request, a
    response that is not ok and a gist list without such a file all
    answer false. *)
Theorem X25_authorization_by_gist (outcome : GistsOutcome) (primaryUser : string) :
  (verifyUserAuthorization outcome primaryUser = true
   <-> exists gists g names,
         outcome = GistsOk gists /\ In g gists
         /\ files g = Some names /\ authFilename primaryUser ∈ names)
  /\ (forall other, authFilename other = authFilename primaryUser -> other = primaryUser)
  /\ (forall gists allowed,
        outcome = GistsOk gists ->
        Forall (fun g => forall names name,
                  files g = Some names -> name ∈ names ->
                  exists q, In q allowed /\ name = authFilename q)
               gists ->
        verifyUserAuthorization outcome primaryUser = true ->
        In primaryUser allowed).
Proof.
  assert (Hiff :
    verifyUserAuthorization outcome primaryUser = true
    <-> exists gists g names,
          outcome = GistsOk gists /\ In g gists
          /\ files g = Some names /\ authFilename primaryUser ∈ names).
  { unfold verifyUserAuthorization. destruct outcome as [|code|gists].
    - split; [discriminate | intros (gs & g & ns & H & _); discriminate H].
    - split; [discriminate | intros (gs & g & ns & H & _); discriminate H].
    - rewrite existsb_exists. split.
      + intros (g & Hg & Hallow). apply gist_allows_iff in Hallow as (names & Hf & Hn).
        exists gists, g, names. auto.
      + intros (gs & g & names & [= <-] & Hg & Hf & Hn).
        exists g. split; [exact Hg|]. apply gist_allows_iff. eauto. }
  split; [exact Hiff|]. split; [intros other; apply authFilename_inj|].
  intros gists allowed -> Hfiles Hverified.
  apply Hiff in Hverified as (gs & g & names & [= <-] & Hg & Hf & Hn).
  rewrite Forall_forall in Hfiles.
  destruct (Hfiles g (proj2 (list_elem_of_In _ _) Hg) names _ Hf Hn) as (q & Hq & Heq).
  apply authFilename_inj in Heq. now subst q.
Qed.

Lemma X25_authorization_by_gist_witness :
  verifyUserAuthorization
    (GistsOk [ {| files := None |};
               {| files := Some [ "notes.txt";
                                  "github-contribution-merge-allow-alice.md" ] |} ])
    "alice"
  = true.
Proof.
  destruct (X25_authorization_by_gist
              (GistsOk [ {| files := None |};
                         {| files := Some [ "notes.txt";
                                            "github-contribution-merge-allow-alice.md" ] |} ])
              "alice") as [[_ Hallowed] _].
  apply Hallowed. eexists _, _, _. split; [reflexivity|].
  split; [right; left; reflexivity|]. split; [reflexivity|].
  apply (bool_decide_unpack _). vm_compute. exact I.
Defined.

Lemma fetched_user_authorized (rt : Runtime) (env : Env) (request : Request)
    (primary u : string) (y : Z) :
  truthy (PRIMARY_USER env) = Some primary ->
  ContributionFetch u y ∈ (fetch rt env request).1 ->
  u = trim primary
  \/ (u ∈ parse_additional_users (merge_param request) (trim primary)
      /\ isAuthorized rt u (trim primary) = true).
Proof.
  intros Hprimary Hin.
  destruct (truthy (GITHUB_TOKEN env)) as [token|] eqn:Htoken.
  2: { destruct (fetch_unconfigured rt env request) as [Hnone _]; [now left|].
       rewrite Hnone in Hin. now apply elem_of_nil in Hin. }
  rewrite (fetch_issued rt env request token primary Htoken Hprimary) in Hin.
  apply elem_of_app in Hin as [Hcheck|Hfetch].
  - apply list_elem_of_In, in_map_iff in Hcheck as (v & Hv & _). discriminate Hv.
  - destruct (includes validThemes _); [|now apply elem_of_nil in Hfetch].
    destruct (parse_years _ _) as [r|years]; [now apply elem_of_nil in Hfetch|].
    apply fetch_calls_elem in Hfetch as (u' & y' & [= -> ->] & Hu & _).
    apply elem_of_cons in Hu as [->|Hu]; [now left|].
    right. now apply list_elem_of_filter in Hu as [Hauth Hu].
Qed.

(** X26. Consent end to end: when the authorization answers come from the
    gists of the additional users, the contributions of an account other
    than the primary user are fetched only if that account was named in
    the merge parameter and its gists, in an ok response, hold the file
    github-contribution-merge-allow-PRIMARY.md of this primary user. *)
Theorem X26_no_fetch_without_consent (rt : Runtime)
    (gistsOf : string -> GistsOutcome) (env : Env) (request : Request)
    (primary u : string) (y : Z) :
  truthy (PRIMARY_USER env) = Some primary ->
  ContributionFetch u y ∈ (fetch (runtime_with_gists rt gistsOf) env request).1 ->
  u <> trim primary ->
  u ∈ parse_additional_users (merge_param request) (trim primary)
  /\ exists gists g names,
       gistsOf u = GistsOk gists /\ In g gists
       /\ files g = Some names /\ authFilename (trim primary) ∈ names.
Proof.
  intros Hprimary Hin Hother.
  destruct (fetched_user_authorized _ _ _ _ _ _ Hprimary Hin) as [->|[Hu Hauth]];
    [contradiction|].
  split; [exact Hu|]. cbn [isAuthorized runtime_with_gists] in Hauth.
  unfold verifyUserAuthorization in Hauth.
  destruct (gistsOf u) as [|code|gists]; try discriminate Hauth.
  apply existsb_exists in Hauth as (g & Hg & Hallow).
  apply gist_allows_iff in Hallow as (names & Hf & Hn).
  exists gists, g, names. auto.
Qed.

Lemma X26_no_fetch_without_consent_witness :
  exists gists,
    (fun u : string =>
       if String.eqb u "bob"
       then GistsOk [ {| files := Some [ "github-contribution-merge-allow-alice.md" ] |} ]
       else GistsNotOk 404) "bob"
    = GistsOk gists.
Proof.
  destruct (X26_no_fetch_without_consent (sample_runtime 2024 calA)
              (fun u : string =>
                 if String.eqb u "bob"
                 then GistsOk [ {| files := Some [ "github-contribution-merge-allow-alice.md" ] |} ]
                 else GistsNotOk 404)
              sample_env (sample_request (Some "bob,carol") None None)
              "alice" "bob" 2024 eq_refl)
    as (_ & gists & _ & _ & Hgists & _).
  - vm_compute. apply list_elem_of_further, list_elem_of_further,
      list_elem_of_further, list_elem_of_here.
  - discriminate.
  - exists gists. exact Hgists.
Defined.

(** ** Counts without any assumption on the input *)

(** X27. For every input, the count of a merged day is the sum, over the
    input series in the list, of all counts the series carries on the
    date of the day: a series that is listed twice, as happens when the
    merge parameter names an account twice, counts twice, and a date a
    series carries twice counts twice. *)
Theorem X27_count_formula (dataArray : list Calendar) (usernames : list string)
    (merged : Merged) (mday : MergedDay) :
  mergeContributions dataArray usernames = Some merged ->
  mday ∈ merged_days (mergedWeeks merged) ->
  mcount mday
  = sum_Z (map (fun cal => date_total (mdate mday) (calendar_days cal)) dataArray).
Proof. apply merged_count_total. Qed.

Lemma X27_count_formula_witness :
  exists merged mday,
    mergeContributions [calA; calB; calB] ["alice"; "bob"; "bob"] = Some merged
    /\ mday ∈ merged_days (mergedWeeks merged)
    /\ mcount mday = 17
    /\ mcount mday
       = sum_Z (map (fun cal => date_total (mdate mday) (calendar_days cal))
                    [calA; calB; calB])
    /\ userContribs_of merged (mdate mday) !! "bob" = Some 7.
Proof.
  eexists.
  exists {| mdate := "2024-06-01"; mcount := 17;
            contributionLevel := THIRD_QUARTILE |}.
  split; [reflexivity|].
  assert (Hin :
    {| mdate := "2024-06-01"; mcount := 17; contributionLevel := THIRD_QUARTILE |}
    ∈ merged_days
        (mergedWeeks
           {| totalContributions :=
                (template_walk
                   (merge_all ["alice"; "bob"; "bob"] 0 [calA; calB; calB] (∅, ∅)).1
                   calA).1;
              mergedWeeks :=
                (template_walk
                   (merge_all ["alice"; "bob"; "bob"] 0 [calA; calB; calB] (∅, ∅)).1
                   calA).2;
              userContributions :=
                (merge_all ["alice"; "bob"; "bob"] 0 [calA; calB; calB] (∅, ∅)).2 |}))
    by (vm_compute; apply list_elem_of_here).
  split; [exact Hin|]. split; [reflexivity|].
  split; [|vm_compute; reflexivity].
  exact (X27_count_formula [calA; calB; calB] ["alice"; "bob"; "bob"] _ _
           eq_refl Hin).
Defined.

(** ** The markup of the output document *)

Lemma place_at_end_app (a b : string) :
  forall p, place_at_end p (a +:+ b) = place_at_end (place_at_end p a) b.
Proof.
  induction a as [|c a IH]; intros p; [reflexivity|].
  rewrite sapp_cons. cbn [place_at_end]. apply IH.
Qed.

Lemma skeleton_app (a b : string) :
  forall p, skeleton p (a +:+ b) = skeleton p a +:+ skeleton (place_at_end p a) b.
Proof.
  induction a as [|c a IH]; intros p; [reflexivity|].
  rewrite sapp_cons. cbn [skeleton place_at_end]. rewrite IH.
  destruct (in_markup p c); reflexivity.
Qed.

Lemma starts_with_app (e s t : string) :
  starts_with e s = true -> starts_with e (s +:+ t) = true.
Proof.
  revert s. induction e as [|a e IH]; intros s H; [reflexivity|].
  destruct s as [|b s]; [discriminate H|].
  rewrite sapp_cons. cbn [starts_with] in *.
  apply andb_prop in H as [Hab Hrest]. rewrite Hab. cbn [andb]. now apply IH.
Qed.

Lemma entity_opens_app (s t : string) :
  existsb (fun e => starts_with e s) entities = true ->
  existsb (fun e => starts_with e (s +:+ t)) entities = true.
Proof.
  intros H. apply existsb_exists in H as (e & He & Hs).
  apply existsb_exists. exists e. split; [exact He | now apply starts_with_app].
Qed.

Lemma payload_safe_app (a b : string) :
  forall p,
    payload_safe p a = true ->
    payload_safe (place_at_end p a) b = true ->
    payload_safe p (a +:+ b) = true.
Proof.
  induction a as [|c a IH]; intros p Ha Hb; [exact Hb|].
  rewrite sapp_cons. cbn [payload_safe place_at_end] in *.
  apply andb_prop in Ha as [Hc Ha]. apply andb_true_intro. split.
  - destruct (in_markup p c); [reflexivity|]. cbn [orb] in *.
    destruct (Ascii.eqb c "&"%char); [|exact Hc].
    rewrite <- sapp_cons. now apply entity_opens_app.
  - now apply IH.
Qed.

Lemma reads_app (p p1 p2 : Place) (a b k1 k2 : string) :
  reads p a p1 k1 -> reads p1 b p2 k2 -> reads p (a +:+ b) p2 (k1 +:+ k2).
Proof.
  intros [Ha <-] [Hb <-]. subst p1. split.
  - rewrite place_at_end_app. exact Hb.
  - apply skeleton_app.
Qed.

Lemma scans_app (p p1 p2 : Place) (a b k1 k2 : string) :
  scans p a p1 k1 -> scans p1 b p2 k2 -> scans p (a +:+ b) p2 (k1 +:+ k2).
Proof.
  intros [Ha Hsa] [Hb Hsb]. split; [now apply (reads_app p p1)|].
  apply payload_safe_app; [exact Hsa|]. destruct Ha as [-> _]. exact Hsb.
Qed.

Lemma reads_literal (p : Place) (s : string) :
  reads p s (place_at_end p s) (skeleton p s).
Proof. split; reflexivity. Qed.

Lemma scans_literal (p : Place) (s : string) :
  payload_safe p s = true -> scans p s (place_at_end p s) (skeleton p s).
Proof. intros H. split; [apply reads_literal | exact H]. Qed.

Lemma reads_as (p p1 p2 : Place) (s k1 k2 : string) :
  reads p s p1 k1 -> p1 = p2 -> k1 = k2 -> reads p s p2 k2.
Proof. now intros H <- <-. Qed.

Lemma scans_as (p p1 p2 : Place) (s k1 k2 : string) :
  scans p s p1 k1 -> p1 = p2 -> k1 = k2 -> scans p s p2 k2.
Proof. now intros H <- <-. Qed.

(** A text without [<] and double quote, read as character data or as an
    attribute value, stays there and brings no markup. *)
Lemma reads_inert (p : Place) (t : string) :
  inert t = true -> p <> Tag -> reads p t p EmptyString.
Proof.
  unfold inert. intros Ht Hp. induction t as [|c t IH]; [split; reflexivity|].
  cbn [all_chars] in Ht. apply andb_prop in Ht as [Hc Ht].
  apply negb_true_iff, orb_false_iff in Hc as [Hlt Hquote].
  specialize (IH Ht) as [IHplace IHskeleton].
  assert (Hstay : place_after p c = p)
    by (destruct p; cbn [place_after]; rewrite ?Hlt, ?Hquote; congruence).
  split.
  - cbn [place_at_end]. rewrite Hstay. exact IHplace.
  - cbn [skeleton]. unfold in_markup.
    destruct p; [|contradiction|]; rewrite Hstay; exact IHskeleton.
Qed.

Lemma markup_safe_head (c : ascii) (t : string) :
  markup_safe (String c t) = true ->
  Ascii.eqb c "<"%char = false /\ Ascii.eqb c "034"%char = false.
Proof.
  cbn [markup_safe]. intros H. apply andb_prop in H as [H _]. revert H.
  unfold is_markup_char. markup_cases c; cbn; intros H;
    try discriminate H; split;
    try reflexivity; now apply Ascii.eqb_neq.
Qed.

Lemma markup_safe_inert (t : string) : markup_safe t = true -> inert t = true.
Proof.
  unfold inert. induction t as [|c t IH]; [reflexivity|]. intros H.
  destruct (markup_safe_head c t H) as [Hlt Hquote].
  cbn [all_chars markup_safe] in *. apply andb_prop in H as [_ H].
  rewrite Hlt, Hquote. cbn. now apply IH.
Qed.

(** A safe text, read as character data or as an attribute value, stays
    there, brings no markup and is found safe. *)
Lemma scans_safe (p : Place) (t : string) :
  markup_safe t = true -> p <> Tag -> scans p t p EmptyString.
Proof.
  intros Ht Hp. split; [apply reads_inert; [now apply markup_safe_inert | exact Hp]|].
  induction t as [|c t IH]; [reflexivity|].
  destruct (markup_safe_head c t Ht) as [Hlt Hquote].
  assert (Hstay : place_after p c = p)
    by (destruct p; cbn [place_after]; rewrite ?Hlt, ?Hquote; congruence).
  cbn [payload_safe]. rewrite Hstay.
  change (markup_safe (String c t))
    with ((if Ascii.eqb c "&"%char
           then existsb (fun e => starts_with e (String c t)) entities
           else negb (is_markup_char c)) && markup_safe t) in Ht.
  apply andb_prop in Ht as [Hc Ht].
  rewrite Hc, orb_true_r. cbn [andb]. now apply IH.
Qed.

Lemma all_chars_impl (f g : ascii -> bool) (s : string) :
  (forall c, f c = true -> g c = true) ->
  all_chars f s = true -> all_chars g s = true.
Proof.
  intros Hfg. induction s as [|c s IH]; [reflexivity|].
  cbn [all_chars]. intros H. apply andb_prop in H as [Hc Hs].
  rewrite (Hfg c Hc). now apply IH.
Qed.

Lemma markup_free_safe (s : string) : markup_free s = true -> markup_safe s = true.
Proof.
  unfold markup_free. induction s as [|c s IH]; [reflexivity|].
  cbn [all_chars]. intros H. apply andb_prop in H as [Hc Hs].
  apply negb_true_iff in Hc.
  change (markup_safe (String c s))
    with ((if Ascii.eqb c "&"%char
           then existsb (fun e => starts_with e (String c s)) entities
           else negb (is_markup_char c)) && markup_safe s).
  rewrite (plain_not_amp _ Hc), Hc. now apply IH.
Qed.

Lemma digits_markup_free (s : string) :
  digits_only s = true -> markup_free s = true.
Proof.
  apply all_chars_impl. intros c H. digit_cases c H; reflexivity.
Qed.

Lemma num_markup_safe (n : Z) : markup_safe (num n) = true.
Proof.
  apply markup_free_safe. destruct n as [|p|p]; [reflexivity| |].
  - rewrite num_positive. now apply digits_markup_free, digits_only_pretty_N_go.
  - rewrite num_negative. unfold markup_free. cbn [all_chars].
    apply andb_true_intro. split; [reflexivity|].
    now apply digits_markup_free, digits_only_pretty_N_go.
Qed.

Lemma extent_text_markup_safe (e : Extent) : markup_safe (extent_text e) = true.
Proof. destruct e; [apply num_markup_safe | reflexivity]. Qed.

Lemma month_short_markup_safe (m : Month) : markup_safe (month_short m) = true.
Proof. destruct m; reflexivity. Qed.

Lemma resolve_theme_cases (theme : string) :
  (exists t, resolve_theme theme = Own t /\ In t (map snd THEMES))
  \/ exists member, resolve_theme theme = Inherited member.
Proof.
  unfold resolve_theme, THEMES_get, obj_get, THEMES. cbn [assoc].
  repeat match goal with
         | |- context [String.eqb ?a ?b] => destruct (String.eqb a b)
         end;
    try destruct (bool_decide _);
    first [ right; eexists; reflexivity
          | left; eexists; split; [reflexivity | cbn; tauto] ].
Qed.

Lemma theme_fields_markup_safe (theme : string) :
  let themeColors := resolve_theme theme in
  markup_safe (theme_field background themeColors) = true
  /\ markup_safe (theme_field yearLabel themeColors) = true
  /\ markup_safe (theme_field monthLabel themeColors) = true
  /\ markup_safe (theme_field dayLabel themeColors) = true.
Proof.
  cbv zeta. destruct (resolve_theme_cases theme) as [(t & -> & Hin)|(member & ->)].
  - cbn in Hin. cbn [theme_field].
    destruct Hin as [<-|[<-|[<-|[<-|[<-|[<-|[<-|[]]]]]]]];
      repeat split; reflexivity.
  - repeat split; reflexivity.
Qed.

Create HintDb safe_text.

#[local] Hint Resolve num_markup_safe extent_text_markup_safe
  month_short_markup_safe escapeXml_markup_safe getLevelColor_markup_safe
  : safe_text.

Ltac place_now :=
  lazymatch goal with
  | |- reads ?p _ _ _ => let v := eval vm_compute in p in change p with v
  | |- scans ?p _ _ _ => let v := eval vm_compute in p in change p with v
  end.

(** Read a template piece by piece: a text known to be safe stays where
    it is read; any other piece is a literal of the template and is read
    by evaluation. *)
Ltac scan_text :=
  place_now;
  lazymatch goal with
  | |- scans _ (_ +:+ _) _ _ => eapply scans_app; [scan_text | scan_text]
  | |- scans _ (quoted _) _ _ => unfold quoted; scan_text
  | |- scans _ _ _ _ =>
      first [ apply scans_safe; [solve [auto with safe_text] | discriminate]
            | apply scans_literal; vm_compute; reflexivity ]
  | |- reads _ (_ +:+ _) _ _ => eapply reads_app; [scan_text | scan_text]
  | |- reads _ (quoted _) _ _ => unfold quoted; scan_text
  | |- reads _ _ _ _ =>
      first [ apply reads_inert;
              [apply markup_safe_inert; solve [auto with safe_text] | discriminate]
            | apply reads_literal ]
  end.

Ltac scan_template :=
  lazymatch goal with
  | |- scans _ _ _ _ => eapply scans_as
  | |- reads _ _ _ _ => eapply reads_as
  end;
  [scan_text | vm_compute; reflexivity | vm_compute; reflexivity].

Lemma year_label_scans (year xOffset yOffset padding : Z) :
  scans Content (year_label year xOffset yOffset padding) Content
        text_element_skeleton.
Proof. unfold year_label. scan_template. Qed.

Lemma month_label_text_scans (x0 yOffset padding : Z) (label : nat * string) :
  markup_safe label.2 = true ->
  scans Content (month_label_text x0 yOffset padding label) Content
        text_element_skeleton.
Proof. intros Hlabel. unfold month_label_text. scan_template. Qed.

Lemma day_labels_scan (xOffset yOffset padding : Z) :
  scans Content (concat_indexed (day_label xOffset yOffset padding) 0 dayLabels)
        Content (repeat_text 3 text_element_skeleton).
Proof.
  unfold dayLabels. cbn [concat_indexed day_label]. scan_template.
Qed.

Lemma square_markup_scans (x y : Z) (color : string) (day : MergedDay)
    (tooltipContent : string) :
  markup_safe color = true ->
  scans Content (square_markup x y color day tooltipContent) Content
        square_skeleton.
Proof. intros Hcolor. unfold square_markup. scan_template. Qed.

Lemma header_element_scans (padding : Z) (usernames : list string) :
  scans Content (header_element padding usernames) Content text_element_skeleton.
Proof. unfold header_element. scan_template. Qed.

Lemma scans_nothing : scans Content EmptyString Content EmptyString.
Proof. repeat split. Qed.

Lemma repeat_text_add (n m : nat) (s : string) :
  repeat_text (n + m) s = repeat_text n s +:+ repeat_text m s.
Proof.
  induction n as [|n IH]; [reflexivity|].
  cbn [Nat.add repeat_text]. now rewrite IH, sapp_assoc.
Qed.

Lemma scans_concat_texts (texts : list string) (k : string) :
  Forall (fun t => scans Content t Content k) texts ->
  scans Content (concat_texts texts) Content (repeat_text (length texts) k).
Proof.
  induction 1 as [|t texts Ht _ IH]; [exact scans_nothing|].
  cbn [concat_texts fold_right length repeat_text].
  exact (scans_app _ _ _ _ _ _ _ Ht IH).
Qed.

Lemma scans_concat_indexed {A : Type} (f : nat -> A -> string) (g : A -> string)
    (l : list A) :
  (forall i x, scans Content (f i x) Content (g x)) ->
  forall idx,
    scans Content (concat_indexed f idx l) Content (concat_texts (map g l)).
Proof.
  intros Hf. induction l as [|x l IH]; intros idx; [exact scans_nothing|].
  cbn [concat_indexed map concat_texts fold_right].
  exact (scans_app _ _ _ _ _ _ _ (Hf idx x) (IH (S idx))).
Qed.

Lemma month_label_list_safe (rt : Runtime) (weeks : list MergedWeek) :
  forall (currentMonth : string) (column : nat),
    Forall (fun label : nat * string => markup_safe label.2 = true)
           (month_label_list rt currentMonth column weeks).
Proof.
  induction weeks as [|week weeks IH]; intros currentMonth column; [constructor|].
  cbn [month_label_list]. destruct (mergedDays week) as [|first others]; [apply IH|].
  destruct (Date_parse rt (mdate first)) as [[m day]|]; [|apply IH].
  destruct (negb (String.eqb (month_short m) currentMonth) && (day <=? 7));
    [|apply IH].
  constructor; [apply month_short_markup_safe | apply IH].
Qed.

Lemma month_labels_scan (rt : Runtime) (xOffset yOffset padding : Z)
    (weeks : list MergedWeek) :
  scans Content
        (fold_left (month_label_step rt yOffset padding) weeks
                   (EmptyString, EmptyString, xOffset + padding + dayLabelWidth)).1.1
        Content
        (repeat_text (length (month_label_list rt EmptyString 0 weeks))
                     text_element_skeleton).
Proof.
  replace (xOffset + padding + dayLabelWidth)
    with (xOffset + padding + dayLabelWidth + Z.of_nat 0 * (cellSize + cellGap))
    by lia.
  rewrite month_labels_fold.
  change (EmptyString +:+ ?t) with t.
  rewrite <- (length_map (month_label_text (xOffset + padding + dayLabelWidth)
                                           yOffset padding)).
  apply scans_concat_texts, Forall_forall. intros text Htext.
  apply list_elem_of_In, in_map_iff in Htext as (label & <- & Hlabel).
  apply month_label_text_scans.
  pose proof (month_label_list_safe rt weeks EmptyString 0%nat) as Hsafe.
  rewrite Forall_forall in Hsafe. apply Hsafe, list_elem_of_In, Hlabel.
Qed.

Lemma render_square_scans (rt : Runtime) (calendar : Merged)
    (usernames : list string) (xOffset yOffset : Z) (theme : string)
    (padding : Z) (weekIdx dayIdx : nat) (day : MergedDay) :
  scans Content
        (render_square rt calendar usernames xOffset yOffset theme padding
                       weekIdx dayIdx day)
        Content square_skeleton.
Proof.
  unfold render_square. cbv zeta.
  apply square_markup_scans, getLevelColor_markup_safe.
Qed.

Lemma squares_skeleton (weeks : list MergedWeek) :
  concat_texts
    (map (fun week =>
            concat_texts (map (fun _ : MergedDay => square_skeleton)
                              (mergedDays week)))
         weeks)
  = repeat_text (length (merged_days weeks)) square_skeleton.
Proof.
  unfold merged_days, concat_texts.
  induction weeks as [|week weeks IH]; [reflexivity|].
  cbn [map concat fold_right].
  rewrite length_app, repeat_text_add, IH. f_equal.
  induction (mergedDays week) as [|day days IHd]; [reflexivity|].
  cbn [map fold_right length repeat_text]. now rewrite IHd.
Qed.

(** The year graph: whatever the account names and the dates are, the
    markup is the one the numbers of labels and days fix, and all character
    data and attribute values are safe. *)
Lemma renderYearGraph_scans (rt : Runtime) (calendar : Merged) (year : Z)
    (usernames : list string) (xOffset yOffset : Z) (theme : string)
    (padding : Z) :
  scans Content
        (svg (renderYearGraph rt calendar year usernames xOffset yOffset theme
                              padding))
        Content (graph_skeleton rt calendar).
Proof.
  unfold renderYearGraph, graph_skeleton. cbv zeta. cbn [svg].
  rewrite !repeat_text_add, !sapp_assoc.
  apply (scans_app _ Content).
  { cbn [repeat_text]. rewrite sapp_nil_r. apply year_label_scans. }
  apply (scans_app _ Content); [apply month_labels_scan|].
  apply (scans_app _ Content); [apply day_labels_scan|].
  rewrite <- squares_skeleton.
  apply (scans_concat_indexed
           _ (fun week => concat_texts (map (fun _ => square_skeleton)
                                            (mergedDays week)))).
  intros weekIdx week.
  apply (scans_concat_indexed _ (fun _ => square_skeleton)).
  intros dayIdx day. apply render_square_scans.
Qed.

Lemma document_prolog_reads (width : Extent) (height : Z) (theme : string) :
  reads Content (document_prolog width height (resolve_theme theme)) Content
        prolog_skeleton.
Proof.
  destruct (theme_fields_markup_safe theme) as (Hbg & Hyl & Hml & Hdl).
  cbv zeta in Hbg, Hyl, Hml, Hdl.
  unfold document_prolog, generateSVGStyles. scan_template.
Qed.

Lemma join_scans (texts ks : list string) :
  Forall2 (fun t k => scans Content t Content k) texts ks ->
  scans Content (join newline texts) Content (concat_texts ks).
Proof.
  induction 1 as [|t k texts ks Ht Hrest IH]; [exact scans_nothing|].
  destruct Hrest as [|t' k' texts ks Ht' Hrest].
  - cbn [join concat_texts fold_right]. now rewrite sapp_nil_r.
  - change (join newline (t :: t' :: texts))
      with (t +:+ newline +:+ join newline (t' :: texts)).
    change (concat_texts (k :: k' :: ks))
      with (k +:+ EmptyString +:+ concat_texts (k' :: ks)).
    apply (scans_app _ Content); [exact Ht|].
    apply (scans_app _ Content); [|exact IH].
    apply scans_safe; [reflexivity | discriminate].
Qed.

Lemma document_epilog_scans (graphSVGs ks : list string) :
  Forall2 (fun t k => scans Content t Content k) graphSVGs ks ->
  scans Content (document_epilog graphSVGs) Content
        (concat_texts ks +:+ "</svg>").
Proof.
  intros Hgraphs. unfold document_epilog.
  pose proof (join_scans _ _ Hgraphs) as Hjoin.
  eapply scans_as.
  - eapply scans_app; [scan_text|].
    eapply scans_app; [scan_text|].
    eapply scans_app; [exact Hjoin|]. scan_text.
  - vm_compute; reflexivity.
  - reflexivity.
Qed.

Lemma stack_years_scans (rt : Runtime) (usernames : list string) (theme : string)
    (padding : Z) (total : nat) (yearData : list YearData) :
  forall (idx : nat) (currentY : Z) (graphSVGs ks : list string),
    Forall2 (fun t k => scans Content t Content k) graphSVGs ks ->
    Forall2 (fun t k => scans Content t Content k)
            (stack_years rt usernames theme padding total idx yearData currentY
                         graphSVGs).2
            (ks ++ map (fun yd => graph_skeleton rt (calendar yd)) yearData).
Proof.
  induction yearData as [|yd rest IH]; intros idx currentY graphSVGs ks Hdone.
  - cbn [stack_years map snd]. now rewrite app_nil_r.
  - cbn [stack_years map].
    replace (ks ++ graph_skeleton rt (calendar yd)
                   :: map (fun yd => graph_skeleton rt (calendar yd)) rest)
      with ((ks ++ [graph_skeleton rt (calendar yd)])
            ++ map (fun yd => graph_skeleton rt (calendar yd)) rest)
      by (rewrite <- app_assoc; reflexivity).
    apply IH. apply Forall2_app; [exact Hdone|].
    constructor; [apply renderYearGraph_scans | constructor].
Qed.

(** The document of [generateSVGVertical], whatever the account names and
    the dates of the year data are. *)
Lemma generateSVGVertical_escaped (rt : Runtime) (yearData : list YearData)
    (usernames : list string) (theme : string) :
  escaped_document rt yearData theme
                   (generateSVGVertical rt yearData usernames theme).
Proof.
  unfold generateSVGVertical, generateCompleteSVG. cbv zeta.
  set (width := document_width 10 (maxWeeks yearData)).
  set (r := stack_years rt usernames theme 10 (length yearData) 0 yearData
                        (10 + headerHeight) []).
  set (prolog := document_prolog width (r.1 + 10 + bottomSpacing)
                                 (resolve_theme theme)).
  assert (Hprolog : reads Content prolog Content prolog_skeleton)
    by apply document_prolog_reads.
  assert (Hrest :
    scans Content (header_element 10 usernames +:+ document_epilog r.2) Content
          (text_element_skeleton
           +:+ concat_texts (map (fun yd => graph_skeleton rt (calendar yd)) yearData)
           +:+ "</svg>")).
  { apply (scans_app _ Content); [apply header_element_scans|].
    apply document_epilog_scans.
    apply (stack_years_scans rt usernames theme 10 (length yearData) yearData
             0%nat (10 + headerHeight) [] []).
    constructor. }
  split.
  - destruct Hrest as [Hreads _].
    exact (proj2 (reads_app _ _ _ _ _ _ _ Hprolog Hreads)).
  - exists width, (r.1 + 10 + bottomSpacing),
      (header_element 10 usernames +:+ document_epilog r.2).
    split; [reflexivity|]. split; [exact (proj1 Hprolog) | exact (proj2 Hrest)].
Qed.

(** A response with status 200 carries the document of
    [generateSVGVertical] for the theme of the request. *)
Lemma fetch_ok_document (rt : Runtime) (env : Env) (request : Request) :
  status (fetch rt env request).2 = 200 ->
  exists yearData usernames,
    body (fetch rt env request).2
    = generateSVGVertical rt yearData usernames
        (default "dark" (truthy (theme_param request))).
Proof.
  intros Hok.
  destruct (truthy (GITHUB_TOKEN env)) as [token|] eqn:Htoken.
  2: { destruct (fetch_unconfigured rt env request) as [_ H500]; [now left|].
       rewrite H500 in Hok. discriminate Hok. }
  destruct (truthy (PRIMARY_USER env)) as [primary|] eqn:Hprimary.
  2: { destruct (fetch_unconfigured rt env request) as [_ H500]; [now right|].
       rewrite H500 in Hok. discriminate Hok. }
  rewrite (fetch_configured rt env request token primary Htoken Hprimary) in *.
  cbv zeta in *. destruct (includes validThemes _); [|discriminate Hok].
  destruct (parse_years _ _) as [r|years] eqn:Hyears.
  { rewrite (parse_years_rejects _ _ _ Hyears) in Hok. discriminate Hok. }
  cbn [snd] in *.
  destruct (fetch_years rt years _) as [issued [r|yearData]] eqn:Hfetch.
  { apply (f_equal snd) in Hfetch. cbn [snd] in *.
    apply fetch_years_rejects in Hfetch as ->. discriminate Hok. }
  cbn [snd body ok_svg]. eexists _, _. reflexivity.
Qed.

(** C7. Escaping.  The text [escapeXml] returns holds none of the
    characters [<], [>], ['] and the double quote, and every [&] in it
    opens one of the five entities; decoding the entities gives the input
    back, so each of the five characters became its own entity and every
    other character is unchanged.  The account names reach the header, the
    date of a cell its attribute and the tooltip its title through
    [escapeXml], and the fill colour of a cell holds no markup character.
    In the output: whatever the account names and the dates are, the markup
    of a year graph of [renderYearGraph] is the one that the numbers of its
    month labels and of its days fix, and its character data and attribute
    values hold none of the five characters raw; the document of
    [generateSVGVertical] has the markup that its year data fix, and after
    its opening part, which the extents and the theme give, its character
    data and attribute values hold none of the five characters raw; and the
    body of every response with status 200 of [fetch] is such a
    document. *)
Theorem C7_markup_escaping :
  (forall s, markup_safe (escapeXml s) = true)
  /\ (forall s, unescapeXml (escapeXml s) = s)
  /\ map escapeXml [ "<"; ">"; "&"; "'"; dquote ] = entities
  /\ (forall width height graphSVGs theme padding,
      exists before after,
        forall usernames,
          generateCompleteSVG width height usernames graphSVGs theme padding
          = before +:+ escapeXml (userListText usernames) +:+ after)
  /\ (forall x y color count level,
      exists before between after,
        forall dateText tooltipContent,
          square_markup x y color
            {| mdate := dateText; mcount := count; contributionLevel := level |}
            tooltipContent
          = before +:+ escapeXml dateText +:+ between
            +:+ escapeXml tooltipContent +:+ after)
  /\ (forall rt calendar usernames xOffset yOffset theme padding weekIdx dayIdx day,
      exists x y color,
        render_square rt calendar usernames xOffset yOffset theme padding
                      weekIdx dayIdx day
        = square_markup x y color day
            (generateTooltipContent rt (mdate day)
               (userContribs_of calendar (mdate day)) usernames)
        /\ markup_safe color = true)
  /\ (forall rt calendar year usernames xOffset yOffset theme padding,
      let graph :=
        svg (renderYearGraph rt calendar year usernames xOffset yOffset theme
                             padding) in
      skeleton Content graph = graph_skeleton rt calendar
      /\ place_at_end Content graph = Content
      /\ payload_safe Content graph = true)
  /\ (forall rt yearData usernames theme,
      escaped_document rt yearData theme
                       (generateSVGVertical rt yearData usernames theme))
  /\ (forall rt env request,
      status (fetch rt env request).2 = 200 ->
      exists yearData,
        escaped_document rt yearData
                         (default "dark" (truthy (theme_param request)))
                         (body (fetch rt env request).2)).
Proof.
  split; [exact escapeXml_markup_safe|].
  split; [exact unescapeXml_escapeXml|].
  split; [reflexivity|].
  split; [|split; [|split; [|split; [|split]]]].
  - intros width height graphSVGs theme padding.
    destruct (header_element_split padding) as (before & after & Hsplit).
    exists (document_prolog width height (resolve_theme theme) +:+ before).
    exists (after +:+ document_epilog graphSVGs).
    intros usernames. unfold generateCompleteSVG. cbv zeta.
    rewrite Hsplit, !sapp_assoc. reflexivity.
  - intros x y color count level.
    exists ("<rect class=" +:+ quoted "contribution-square"
            +:+ " x=" +:+ quoted (num x) +:+ " y=" +:+ quoted (num y)
            +:+ " width=" +:+ quoted (num cellSize)
            +:+ " height=" +:+ quoted (num cellSize)
            +:+ " fill=" +:+ quoted color
            +:+ " data-date=" +:+ dquote).
    exists (dquote +:+ " data-count=" +:+ quoted (num count) +:+ ">" +:+ newline
            +:+ "  <title>").
    exists ("</title>" +:+ newline +:+ "</rect>" +:+ newline).
    intros dateText tooltipContent. unfold square_markup, quoted.
    cbn [mdate mcount]. rewrite !sapp_assoc. reflexivity.
  - intros rt calendar usernames xOffset yOffset theme padding weekIdx dayIdx day.
    eexists _, _, _. split; [reflexivity|]. apply getLevelColor_markup_safe.
  - intros rt calendar year usernames xOffset yOffset theme padding graph.
    destruct (renderYearGraph_scans rt calendar year usernames xOffset yOffset
                theme padding) as [[Hplace Hmarkup] Hsafe].
    split; [exact Hmarkup|]. split; [exact Hplace | exact Hsafe].
  - intros rt yearData usernames theme. apply generateSVGVertical_escaped.
  - intros rt env request Hok.
    destruct (fetch_ok_document rt env request Hok) as (yearData & usernames & ->).
    exists yearData. apply generateSVGVertical_escaped.
Qed.

Lemma C7_markup_escaping_witness :
  status (fetch (sample_runtime 2024 calA) sample_env
                (sample_request (Some "b<ob,a&b") None None)).2 = 200
  /\ exists yearData,
       escaped_document (sample_runtime 2024 calA) yearData "dark"
         (body (fetch (sample_runtime 2024 calA) sample_env
                      (sample_request (Some "b<ob,a&b") None None)).2).
Proof.
  destruct C7_markup_escaping as (_ & _ & _ & _ & _ & _ & _ & _ & Hhandler).
  split; [vm_compute; reflexivity|].
  apply (Hhandler (sample_runtime 2024 calA) sample_env
           (sample_request (Some "b<ob,a&b") None None)).
  vm_compute. reflexivity.
Defined.
